(** * Drunk_App: the acquisition-to-decision pipeline

    A shallow embedding of the SPSC ring transport, the Welford window
    analyzer, the breath state machine, the two processors and the batch
    runner, with the properties the specification states about them.

    Where the code is, under [src/source]:
    - [SpscRing] ([spsc.h]): second part of [gpio_bank.cpp];
    - [WelfordStats], [WindowResult], [WelfordAnalyzer], [BreathEvent],
      [BreathResult], [BreathAnalyzer] ([analyzer.h]): second part of
      [processor_types.h]; their member functions: [analyzer.cpp];
    - [CalibrationProcess], [RuntimeProcess], [StartRuntime]: first part of
      [processor_types.h];
    - [Sample]: [sampler.h]; [StepResult], [ProcessRunner]
      ([process_runner.h]): second part of [sampler.h];
    - the configuration records and their defaults: [config_settings.h];
    - [Sampler]: [sampler.h]; [ADS1115]: [ads1115.h], [ads1115.cpp];
    - [LedType], [Led_Info], [GPIOBank] ([gpio_bank.h]): second part of
      [unnamed/part_001]; [LedController]: [led_controller.h] and
      ([led_controller.cpp]) [unnamed/part_000];
    - the sensor curve ([mq3_helper.h]): [unnamed/part_002]. *)

From Stdlib Require Import ZArith QArith Qabs Lia Lqa PrimFloat Uint63.
From Stdlib Require SpecFloat FloatAxioms.
From stdpp Require Import base list.

Local Open Scope Z_scope.

(** ** Machine integers

    [size_t] and [uint64_t] are 64 bits wide on the target, [uint32_t] 32:
    unsigned arithmetic wraps around. *)

Definition wrap64 (z : Z) : Z := z mod 2 ^ 64.
Definition wrap32 (z : Z) : Z := z mod 2 ^ 32.

(** The last [m] elements of a list (all of it when it is shorter). *)
Definition lastn {A : Type} (m : nat) (l : list A) : list A :=
  drop (length l - m) l.

(** ** The ring transport: [SpscRing<T, N>] *)

Module Spsc.
Section Ring.
Context {T : Type} `{!Inhabited T}.

(** The template parameter [N] is a power of two (the [static_assert]):
    [N = 2 ^ k]. *)
Variable k : nat.

Definition N : Z := 2 ^ Z.of_nat k.

Record SpscRing : Type := mkRing {
  ring_buffer_ : list T;
  head_ : Z;
  tail_ : Z
}.

(** [std::array<T, N> ring_buffer_{}], [head_{0}], [tail_{0}]. *)
Definition empty : SpscRing :=
  {| ring_buffer_ := replicate (Z.to_nat N) inhabitant; head_ := 0; tail_ := 0 |}.

(** [(x) & (N - 1)] on [size_t]. *)
Definition mask (x : Z) : Z := Z.land (wrap64 x) (N - 1).

Definition push (r : SpscRing) (value : T) : bool * SpscRing :=
  let head := head_ r in
  let next := mask (head + 1) in
  if next =? tail_ r then (false, r)
  else (true, {| ring_buffer_ := <[Z.to_nat head := value]> (ring_buffer_ r);
                 head_ := next;
                 tail_ := tail_ r |}).

Definition push_overwrite (r : SpscRing) (value : T) : bool * SpscRing :=
  let head := head_ r in
  let next := mask (head + 1) in
  let overwriten := next =? tail_ r in
  let tail' := if overwriten then mask (tail_ r + 1) else tail_ r in
  (negb overwriten,
   {| ring_buffer_ := <[Z.to_nat head := value]> (ring_buffer_ r);
      head_ := next;
      tail_ := tail' |}).

Definition pop (r : SpscRing) : option T * SpscRing :=
  let tail := tail_ r in
  if tail =? head_ r then (None, r)
  else (Some (ring_buffer_ r !!! Z.to_nat tail),
        {| ring_buffer_ := ring_buffer_ r;
           head_ := head_ r;
           tail_ := mask (tail + 1) |}).

(** [pop_batch(out, max_batch)]: the elements written to [out], in order
    (their number is the value the C++ function returns). *)
Fixpoint pop_batch (max_batch : nat) (r : SpscRing) : list T * SpscRing :=
  match max_batch with
  | O => ([], r)
  | S m =>
      match pop r with
      | (None, _) => ([], r)
      | (Some x, r') => let '(xs, r'') := pop_batch m r' in (x :: xs, r'')
      end
  end.

Definition size_approx (r : SpscRing) : Z := mask (head_ r - tail_ r).

(** A sequence of [push_overwrite] calls, as the sampler issues them; the
    list of their return values comes first. *)
Fixpoint push_all (l : list T) (r : SpscRing) : list bool * SpscRing :=
  match l with
  | [] => ([], r)
  | v :: l' =>
      let '(ok, r') := push_overwrite r v in
      let '(oks, r'') := push_all l' r' in
      (ok :: oks, r'')
  end.

(** A full drain: [pop] repeated until it reports the ring empty.  The
    ring never holds [N] elements, so [N] calls are enough (see
    [drain_spec]). *)
Definition drain (r : SpscRing) : list T * SpscRing :=
  pop_batch (Z.to_nat N) r.

(** *** The abstraction: the unread elements, oldest first *)

Fixpoint slice (buf : list T) (t : Z) (len : nat) : list T :=
  match len with
  | O => []
  | S len' => buf !!! Z.to_nat t :: slice buf ((t + 1) mod N) len'
  end.

Definition occupancy (r : SpscRing) : nat :=
  Z.to_nat ((head_ r - tail_ r) mod N).

Definition contents (r : SpscRing) : list T :=
  slice (ring_buffer_ r) (tail_ r) (occupancy r).

Definition ring_ok (r : SpscRing) : Prop :=
  length (ring_buffer_ r) = Z.to_nat N ∧
  0 <= head_ r < N ∧ 0 <= tail_ r < N.

End Ring.
Arguments SpscRing T : clear implicits.
End Spsc.

(** ** Arithmetic on [double]

    The analyzers compute on [double].  Their code is embedded once, over an
    interface of the operations it uses, and read at two instances: binary64
    itself (the kernel's primitive floats), which is what the program runs
    on, and the rationals, its exact-arithmetic idealisation, where the
    algebraic laws hold. *)

Class Double (D : Type) : Type := {
  d_zero : D;
  d_one : D;
  d_add : D → D → D;
  d_sub : D → D → D;
  d_mul : D → D → D;
  d_div : D → D → D;
  d_abs : D → D;                (* std::abs *)
  d_sqrt : D → D;               (* std::sqrt *)
  d_ltb : D → D → bool;
  d_leb : D → D → bool;
  d_isfinite : D → bool;        (* std::isfinite *)
  d_of_Z : Z → D                (* (double)n, n an unsigned integer *)
}.

Declare Scope double_scope.
Delimit Scope double_scope with D.
Infix "+" := d_add : double_scope.
Infix "-" := d_sub : double_scope.
Infix "*" := d_mul : double_scope.
Infix "/" := d_div : double_scope.
Infix "<?" := d_ltb : double_scope.
Infix "<=?" := d_leb : double_scope.

(** [std::max(a, b)] is [(a < b) ? b : a]. *)
Definition d_max `{Double D} (a b : D) : D := if (a <? b)%D then b else a.

(** [x] is a number: [!std::isnan(x)].  A NaN is the one value that is not
    [<=] itself. *)
Definition d_number `{Double D} (x : D) : bool := (x <=? x)%D.

(** What [<] and [<=] of [double] satisfy on numbers: [<=] is total and
    transitive, and [a < b] is the negation of [b <= a].  Both instances
    below have these laws; a NaN compares with nothing. *)
Class DoubleOrder (D : Type) `{Double D} : Prop := {
  d_leb_total : ∀ x y : D,
    d_number x = true → d_number y = true →
    (x <=? y)%D = true ∨ (y <=? x)%D = true;
  d_ltb_leb : ∀ x y : D,
    d_number x = true → d_number y = true →
    (x <? y)%D = negb (y <=? x)%D;
  d_leb_trans : ∀ x y z : D,
    (x <=? y)%D = true → (y <=? z)%D = true → (x <=? z)%D = true
}.

(** binary64.  [(double)n] is exact below [2 ^ 53] and rounded to nearest
    above; the conversion used here agrees with it on [0, 2 ^ 63). *)
#[export] Instance float_Double : Double float := {
  d_zero := 0%float;
  d_one := 1%float;
  d_add := PrimFloat.add;
  d_sub := PrimFloat.sub;
  d_mul := PrimFloat.mul;
  d_div := PrimFloat.div;
  d_abs := PrimFloat.abs;
  d_sqrt := PrimFloat.sqrt;
  d_ltb := PrimFloat.ltb;
  d_leb := PrimFloat.leb;
  d_isfinite := PrimFloat.is_finite;
  d_of_Z := λ z, PrimFloat.of_uint63 (Uint63.of_Z z)
}.

(** Exact arithmetic: every value is finite and nothing is rounded.  The
    square root is not rational; it stays a parameter [sq]. *)
Definition Q_Double (sq : Q → Q) : Double Q := {|
  d_zero := 0%Q;
  d_one := 1%Q;
  d_add := Qplus;
  d_sub := Qminus;
  d_mul := Qmult;
  d_div := Qdiv;
  d_abs := Qabs;
  d_sqrt := sq;
  d_ltb := λ a b, negb (Qle_bool b a);
  d_leb := Qle_bool;
  d_isfinite := λ _, true;
  d_of_Z := inject_Z
|}.

(** ** [WelfordStats] ([analyzer.h]) *)

Module WelfordStats.
Section WelfordStats.
Context `{Double D}.

Record t : Type := mk {
  num_samples : Z;     (* std::size_t *)
  mean : D;
  m2 : D               (* sum of squares of diffs from mean *)
}.

Definition reset : t := {| num_samples := 0; mean := d_zero; m2 := d_zero |}.

Definition push (s : t) (value : D) : t :=
  let num_samples := wrap64 (num_samples s + 1) in
  let delta := (value - mean s)%D in
  let mean := (mean s + delta / d_of_Z num_samples)%D in
  let delta2 := (value - mean)%D in
  {| num_samples := num_samples; mean := mean; m2 := (m2 s + delta * delta2)%D |}.

Definition variance_sample (s : t) : D :=
  if 1 <? num_samples s
  then (m2 s / d_of_Z (wrap64 (num_samples s - 1)))%D
  else d_zero.

Definition stddev_sample (s : t) : D := d_sqrt (variance_sample s).

(** The statistics after a sequence of values, from a fresh accumulator. *)
Definition push_all (xs : list D) : t := fold_left push xs reset.

(** *** The direct two-pass computation the incremental one is compared to *)

Definition sum (xs : list D) : D := fold_left d_add xs d_zero.

Definition two_pass_mean (xs : list D) : D :=
  (sum xs / d_of_Z (Z.of_nat (length xs)))%D.

Definition sum_sq (xs : list D) : D := sum (map (λ x, (x * x)%D) xs).

Definition sum_sq_dev (c : D) (xs : list D) : D :=
  sum (map (λ x, ((x - c) * (x - c))%D) xs).

Definition two_pass_variance (xs : list D) : D :=
  if 1 <? Z.of_nat (length xs)
  then (sum_sq_dev (two_pass_mean xs) xs / d_of_Z (Z.of_nat (length xs) - 1))%D
  else d_zero.

(** [a] and [b] agree within the relative tolerance [tol]. *)
Definition rel_close (tol a b : D) : bool :=
  (d_abs (a - b) <=? tol * d_max (d_abs a) (d_abs b))%D.

End WelfordStats.
Arguments t D : clear implicits.
End WelfordStats.

(** ** Samples, configurations and step results
    ([sampler.h], [config_settings.h], [process_runner.h]) *)

Record Sample {D : Type} : Type := mkSample {
  t_us : Z;      (* uint64_t *)
  raw : Z;       (* int16_t *)
  volts : D      (* float, widened to double by [get_volts] *)
}.
Arguments Sample D : clear implicits.

Definition get_volts {D : Type} (sample : Sample D) : D := volts sample.

Inductive StateAction : Type := Continue | Done | Abort.

(** [enum class BreathAnalyzerState : uint8_t]. *)
Module BreathAnalyzerState.
Inductive t : Type := None | Warmup | Ready | Processing | Cooldown | Analyzed.
End BreathAnalyzerState.

(** [enum class ProcessState::Event : uint8_t], with the same enumerators in
    the same order. *)
Module Event.
Inductive t : Type := None | Warmup | Ready | Processing | Cooldown | Analyzed.

(** [static_cast<ProcessState::Event>(state)]. *)
Definition of_state (s : BreathAnalyzerState.t) : t :=
  match s with
  | BreathAnalyzerState.None => None
  | BreathAnalyzerState.Warmup => Warmup
  | BreathAnalyzerState.Ready => Ready
  | BreathAnalyzerState.Processing => Processing
  | BreathAnalyzerState.Cooldown => Cooldown
  | BreathAnalyzerState.Analyzed => Analyzed
  end.

Definition is_None (e : t) : bool :=
  match e with None => true | _ => false end.
End Event.

Record StepResult {R : Type} : Type := mkStep {
  action : StateAction;
  event : Event.t;
  result : R           (* snapshot of most recent sampling window *)
}.
Arguments StepResult R : clear implicits.

(** The fields of [Analyzer_Config] the analyzer reads (the circuit
    constants [RL], [R1_3_3v], [Rs_Ro_Div], [Ro_Air] are used by the
    calibration report only). *)
Record Analyzer_Config {D : Type} : Type := mkAnalyzerConfig {
  window_micro : Z;                      (* uint32_t *)
  min_window_sample_size : Z;            (* size_t *)
  stddev_max : D;
  drift_per_sec_max : D;
  stable_consecutive_windows_req : Z     (* size_t *)
}.
Arguments Analyzer_Config D : clear implicits.

Record BreathAnalyzer_Config {D : Type} : Type := mkBreathConfig {
  warmup_stable_windows : Z;             (* uint16_t *)
  cooldown_stable_windows : Z;           (* uint16_t *)
  min_blow_time_us : Z;                  (* uint32_t *)
  max_blow_time_us : Z;                  (* uint32_t *)
  start_delta_v : D;
  end_delta_v : D;
  baseline_alpha : D;
  start_k_sigma : D;
  end_k_sigma : D;
  ready_delta_v : D;
  ready_k_sigma : D
}.
Arguments BreathAnalyzer_Config D : clear implicits.

Record Consumer_Config : Type := mkConsumerConfig {
  consumer_idle_sleep : Z;
  consumer_tick_sleep : Z;
  Timeout : Z;                           (* in ticks of the steady clock *)
  max_batch : nat
}.

(** The default member initializers, from [DrunkAPI::Config]. *)
Module Config.
Section Config.
Context `{Double D}.

Definition RingSize_log2 : nat := 12.          (* RingSize = 4096 *)
Definition ConsumerMaxBatch : nat := 256.

(** [n / m] for the decimal constants: [0.002] is [ratio 2 1000]. *)
Definition ratio (n m : Z) : D := (d_of_Z n / d_of_Z m)%D.

Definition analyzer_cfg : Analyzer_Config D :=
  {| window_micro := 1000000;
     min_window_sample_size := 80;
     stddev_max := ratio 2 1000;
     drift_per_sec_max := ratio 1 1000;
     stable_consecutive_windows_req := 3 |}.

Definition breath_cfg : BreathAnalyzer_Config D :=
  {| warmup_stable_windows := 25;
     cooldown_stable_windows := 25;
     min_blow_time_us := 400000;
     max_blow_time_us := 5000000;
     start_delta_v := ratio 5 100;           (* Rise_Hysteresis *)
     end_delta_v := ratio 2 100;             (* Fall_Hysteresis *)
     baseline_alpha := ratio 5 100;          (* Baseline_Alpha_Percent *)
     start_k_sigma := d_of_Z 3;              (* Rise_Noise_Factor *)
     end_k_sigma := d_of_Z 3;                (* Rise_Noise_Factor *)
     ready_delta_v := ratio 1 100;           (* Ready_Hysteresis *)
     ready_k_sigma := d_of_Z 2 |}.           (* Ready_Noise_Factor *)

(** Milliseconds, milliseconds, minutes: here in microseconds. *)
Definition consumer_cfg : Consumer_Config :=
  {| consumer_idle_sleep := 5000;
     consumer_tick_sleep := 50000;
     Timeout := 60000000;
     max_batch := ConsumerMaxBatch |}.

(** The same with a timeout of [t] microseconds. *)
Definition consumer_cfg_timeout (t : Z) : Consumer_Config :=
  {| consumer_idle_sleep := consumer_idle_sleep consumer_cfg;
     consumer_tick_sleep := consumer_tick_sleep consumer_cfg;
     Timeout := t;
     max_batch := max_batch consumer_cfg |}.
End Config.
End Config.

(** ** [WindowResult] and the Welford window analyzer
    ([analyzer.h], [analyzer.cpp]) *)

Module WindowResult.
(** [mean_prev] copies [prev_window_mean], whose initial quiet NaN (no
    previous window) is [None] here. *)
Record t {D : Type} : Type := mk {
  stable : bool;
  mean : D;
  stddev : D;
  mean_prev : option D;
  drift_per_sec : D;
  window_start_us : Z;    (* uint64_t *)
  window_end_us : Z       (* uint64_t *)
}.
Arguments t D : clear implicits.

(** [WindowResult{}]. *)
Definition default `{Double D} : t D :=
  {| stable := false; mean := d_zero; stddev := d_zero;
     mean_prev := Some d_zero; drift_per_sec := d_zero;
     window_start_us := 0; window_end_us := 0 |}.
End WindowResult.

Module WelfordAnalyzer.
Section WelfordAnalyzer.
Context `{Double D}.

Record t : Type := mk {
  cfg : Analyzer_Config D;
  WfS : WelfordStats.t D;
  stable_window_count : Z;        (* size_t *)
  window_start_micro_sec : Z;     (* uint64_t; 0 while no window is open *)
  window_end_micro_sec : Z;       (* uint64_t *)
  prev_window_mean : option D     (* [None]: the quiet NaN it starts as *)
}.

(** A freshly constructed analyzer. *)
Definition init (n_cfg : Analyzer_Config D) : t :=
  {| cfg := n_cfg; WfS := WelfordStats.reset; stable_window_count := 0;
     window_start_micro_sec := 0; window_end_micro_sec := 0;
     prev_window_mean := None |}.

Definition reset (a : t) : t := init (cfg a).

(** [constexpr float us_to_sec = 1'000'000.0]. *)
Definition us_to_sec : D := d_of_Z 1000000.

(** [std::isfinite(prev_window_mean)]. *)
Definition prev_isfinite (a : t) : bool :=
  match prev_window_mean a with
  | Some p => d_isfinite p
  | None => false
  end.

Definition FinalizeWindow (a : t) : StepResult (WindowResult.t D) * t :=
  let window_start_us := window_start_micro_sec a in
  let window_end_us := wrap64 (window_start_micro_sec a + window_micro (cfg a)) in
  let num_samples := WelfordStats.num_samples (WfS a) in
  if num_samples <? min_window_sample_size (cfg a) then
    (* not enough data: no stability evaluation, early return *)
    ({| action := Continue; event := Event.None;
        result := {| WindowResult.stable := false;
                     WindowResult.mean := WelfordStats.mean (WfS a);
                     WindowResult.stddev := WelfordStats.stddev_sample (WfS a);
                     WindowResult.mean_prev := prev_window_mean a;
                     WindowResult.drift_per_sec := d_zero;
                     WindowResult.window_start_us := window_start_us;
                     WindowResult.window_end_us := window_end_us |} |},
     {| cfg := cfg a; WfS := WfS a; stable_window_count := 0;
        window_start_micro_sec := window_start_micro_sec a;
        window_end_micro_sec := window_end_micro_sec a;
        prev_window_mean := prev_window_mean a |})
  else
    let mean := WelfordStats.mean (WfS a) in
    let standard_deviation := WelfordStats.stddev_sample (WfS a) in
    let drift_per_sec :=
      match prev_window_mean a with
      | Some prev =>
          if d_isfinite prev then
            let dt_second := (d_of_Z (window_micro (cfg a)) / us_to_sec)%D in
            (d_abs (mean - prev) / dt_second)%D
          else d_zero
      | None => d_zero
      end in
    let bWindowStable :=
      (standard_deviation <=? stddev_max (cfg a))%D
      && (negb (prev_isfinite a)
          || (drift_per_sec <=? drift_per_sec_max (cfg a))%D) in
    let stable_window_count :=
      if bWindowStable then wrap64 (stable_window_count a + 1) else 0 in
    ({| action := Continue; event := Event.None;
        result := {| WindowResult.stable :=
                       stable_consecutive_windows_req (cfg a) <=? stable_window_count;
                     WindowResult.mean := mean;
                     WindowResult.stddev := standard_deviation;
                     WindowResult.mean_prev := prev_window_mean a;
                     WindowResult.drift_per_sec := drift_per_sec;
                     WindowResult.window_start_us := window_start_us;
                     WindowResult.window_end_us := window_end_us |} |},
     {| cfg := cfg a; WfS := WfS a; stable_window_count := stable_window_count;
        window_start_micro_sec := window_start_micro_sec a;
        window_end_micro_sec := window_end_micro_sec a;
        prev_window_mean := Some mean |}).

(** The [while] loop of [AnalyzeSample].  [out] is the result of the last
    [FinalizeWindow]; [log] collects the result of every call, oldest
    first (the C++ code keeps the last only).  [None]: the loop did not
    end within [fuel] iterations. *)
Fixpoint finalize_loop (fuel : nat) (t_micro : Z) (a : t)
    (out : StepResult (WindowResult.t D)) (log : list (WindowResult.t D))
    : option (StepResult (WindowResult.t D) * t * list (WindowResult.t D)) :=
  if window_micro (cfg a) <=? wrap64 (t_micro - window_start_micro_sec a) then
    match fuel with
    | O => None
    | S fuel' =>
        let '(out', a') := FinalizeWindow a in
        let a'' :=
          {| cfg := cfg a'; WfS := WelfordStats.reset;
             stable_window_count := stable_window_count a';
             window_start_micro_sec :=
               wrap64 (window_start_micro_sec a' + window_micro (cfg a'));
             window_end_micro_sec := window_end_micro_sec a';
             prev_window_mean := prev_window_mean a' |} in
        finalize_loop fuel' t_micro a'' out' (log ++ [result out'])
    end
  else Some (out, a, log).

Definition default_step : StepResult (WindowResult.t D) :=
  {| action := Continue; event := Event.None; result := WindowResult.default |}.

(** [AnalyzeSample], with the windows it finalized (oldest first) as a
    third component. *)
Definition AnalyzeSample (fuel : nat) (a : t) (t_micro : Z) (sample : D)
    : option (StepResult (WindowResult.t D) * t * list (WindowResult.t D)) :=
  let a1 :=
    if window_start_micro_sec a =? 0 then
      (* fresh window *)
      {| cfg := cfg a; WfS := WfS a; stable_window_count := stable_window_count a;
         window_start_micro_sec := t_micro;
         window_end_micro_sec := window_end_micro_sec a;
         prev_window_mean := prev_window_mean a |}
    else a in
  match finalize_loop fuel t_micro a1 default_step [] with
  | None => None
  | Some (out, a2, log) =>
      Some (out,
            {| cfg := cfg a2; WfS := WelfordStats.push (WfS a2) sample;
               stable_window_count := stable_window_count a2;
               window_start_micro_sec := window_start_micro_sec a2;
               window_end_micro_sec := t_micro;
               prev_window_mean := prev_window_mean a2 |},
            log)
  end.

(** The [for] loop of [AnalyzeBatch]. *)
Fixpoint AnalyzeBatch_loop (fuel : nat) (a : t) (Samples : list (Sample D))
    (get_value : Sample D → D) (last_finalized : StepResult (WindowResult.t D))
    : option (StepResult (WindowResult.t D) * t) :=
  match Samples with
  | [] => Some (last_finalized, a)   (* may have end_us=0 if no windows finalized *)
  | s :: rest =>
      match AnalyzeSample fuel a (t_us s) (get_value s) with
      | None => None
      | Some (step, a', _) =>
          if WindowResult.window_end_us (result step) =? 0
          then AnalyzeBatch_loop fuel a' rest get_value last_finalized
          else if WindowResult.stable (result step) then Some (step, a')
          else AnalyzeBatch_loop fuel a' rest get_value step
      end
  end.

Definition AnalyzeBatch (fuel : nat) (a : t) (Samples : list (Sample D))
    (get_value : Sample D → D) : option (StepResult (WindowResult.t D) * t) :=
  AnalyzeBatch_loop fuel a Samples get_value default_step.

(** A sequence of [AnalyzeSample] calls; the log holds every window
    finalized on the way. *)
Fixpoint feed (fuel : nat) (a : t) (samples : list (Z * D))
    : option (t * list (WindowResult.t D)) :=
  match samples with
  | [] => Some (a, [])
  | (t_micro, v) :: rest =>
      match AnalyzeSample fuel a t_micro v with
      | None => None
      | Some (_, a', log) =>
          match feed fuel a' rest with
          | None => None
          | Some (a'', log') => Some (a'', log ++ log')
          end
      end
  end.

(** [n] consecutive windows of length [W] from [s] on, as bounds. *)
Fixpoint grid (s W : Z) (n : nat) : list (Z * Z) :=
  match n with
  | O => []
  | S n' => (s, s + W) :: grid (s + W) W n'
  end.

(** The bounds of a window, as [(window_start_us, window_end_us)]. *)
Definition bounds (w : WindowResult.t D) : Z * Z :=
  (WindowResult.window_start_us w, WindowResult.window_end_us w).

End WelfordAnalyzer.
Arguments t D : clear implicits.
End WelfordAnalyzer.

(** ** The breath state machine ([analyzer.h], [analyzer.cpp]) *)

Record BreathEvent {D : Type} : Type := mkBreathEvent {
  start_us : Z;                      (* uint64_t *)
  end_us : Z;                        (* uint64_t *)
  peak_voltage : D;
  State : BreathAnalyzerState.t
}.
Arguments BreathEvent D : clear implicits.

Record BreathResult {D : Type} : Type := mkBreathResult {
  baseline_mean : D;
  baseline_std : D;
  peak_volts : D;
  last_window : WindowResult.t D
}.
Arguments BreathResult D : clear implicits.

Module BreathAnalyzer.
Section BreathAnalyzer.
Context `{Double D}.

(** [BreathEvent{}]: the member initializer of [State] is [Warmup]. *)
Definition default_event : BreathEvent D :=
  {| start_us := 0; end_us := 0; peak_voltage := d_zero;
     State := BreathAnalyzerState.Warmup |}.

(** [BreathResult{}]. *)
Definition default_result : BreathResult D :=
  {| baseline_mean := d_zero; baseline_std := d_zero; peak_volts := d_zero;
     last_window := WindowResult.default |}.

Record t : Type := mk {
  bcfg : BreathAnalyzer_Config D;
  breath_state : BreathAnalyzerState.t;
  baseline_stable_count : Z;       (* uint32_t *)
  cooldown_stable_count : Z;       (* uint32_t *)
  breath_start_us : Z;             (* uint64_t *)
  cooldown_start_us : Z;           (* uint64_t *)
  analyzed_end_us : Z;             (* uint64_t *)
  cur_peak_voltage : D;
  bWarmedup : bool;
  bFoundbaseline : bool;
  bFreezebaseline : bool
}.

(** A freshly constructed analyzer. *)
Definition init (b_cfg : BreathAnalyzer_Config D) : t :=
  {| bcfg := b_cfg; breath_state := BreathAnalyzerState.Warmup;
     baseline_stable_count := 0; cooldown_stable_count := 0;
     breath_start_us := 0; cooldown_start_us := 0; analyzed_end_us := 0;
     cur_peak_voltage := d_zero;
     bWarmedup := false; bFoundbaseline := false; bFreezebaseline := false |}.

(** Field updates. *)
Definition set_state (st : BreathAnalyzerState.t) (b : t) : t :=
  mk (bcfg b) st (baseline_stable_count b) (cooldown_stable_count b)
     (breath_start_us b) (cooldown_start_us b) (analyzed_end_us b)
     (cur_peak_voltage b) (bWarmedup b) (bFoundbaseline b) (bFreezebaseline b).
Definition set_baseline_stable_count (n : Z) (b : t) : t :=
  mk (bcfg b) (breath_state b) n (cooldown_stable_count b)
     (breath_start_us b) (cooldown_start_us b) (analyzed_end_us b)
     (cur_peak_voltage b) (bWarmedup b) (bFoundbaseline b) (bFreezebaseline b).
Definition set_cooldown_stable_count (n : Z) (b : t) : t :=
  mk (bcfg b) (breath_state b) (baseline_stable_count b) n
     (breath_start_us b) (cooldown_start_us b) (analyzed_end_us b)
     (cur_peak_voltage b) (bWarmedup b) (bFoundbaseline b) (bFreezebaseline b).
Definition set_breath_start_us (u : Z) (b : t) : t :=
  mk (bcfg b) (breath_state b) (baseline_stable_count b) (cooldown_stable_count b)
     u (cooldown_start_us b) (analyzed_end_us b)
     (cur_peak_voltage b) (bWarmedup b) (bFoundbaseline b) (bFreezebaseline b).
Definition set_cooldown_start_us (u : Z) (b : t) : t :=
  mk (bcfg b) (breath_state b) (baseline_stable_count b) (cooldown_stable_count b)
     (breath_start_us b) u (analyzed_end_us b)
     (cur_peak_voltage b) (bWarmedup b) (bFoundbaseline b) (bFreezebaseline b).
Definition set_analyzed_end_us (u : Z) (b : t) : t :=
  mk (bcfg b) (breath_state b) (baseline_stable_count b) (cooldown_stable_count b)
     (breath_start_us b) (cooldown_start_us b) u
     (cur_peak_voltage b) (bWarmedup b) (bFoundbaseline b) (bFreezebaseline b).
Definition set_cur_peak_voltage (v : D) (b : t) : t :=
  mk (bcfg b) (breath_state b) (baseline_stable_count b) (cooldown_stable_count b)
     (breath_start_us b) (cooldown_start_us b) (analyzed_end_us b)
     v (bWarmedup b) (bFoundbaseline b) (bFreezebaseline b).
Definition set_bWarmedup (x : bool) (b : t) : t :=
  mk (bcfg b) (breath_state b) (baseline_stable_count b) (cooldown_stable_count b)
     (breath_start_us b) (cooldown_start_us b) (analyzed_end_us b)
     (cur_peak_voltage b) x (bFoundbaseline b) (bFreezebaseline b).
Definition set_bFoundbaseline (x : bool) (b : t) : t :=
  mk (bcfg b) (breath_state b) (baseline_stable_count b) (cooldown_stable_count b)
     (breath_start_us b) (cooldown_start_us b) (analyzed_end_us b)
     (cur_peak_voltage b) (bWarmedup b) x (bFreezebaseline b).
Definition set_bFreezebaseline (x : bool) (b : t) : t :=
  mk (bcfg b) (breath_state b) (baseline_stable_count b) (cooldown_stable_count b)
     (breath_start_us b) (cooldown_start_us b) (analyzed_end_us b)
     (cur_peak_voltage b) (bWarmedup b) (bFoundbaseline b) x.

Definition set_baseline (m sd : D) (r : BreathResult D) : BreathResult D :=
  {| baseline_mean := m; baseline_std := sd;
     peak_volts := peak_volts r; last_window := last_window r |}.
Definition set_peak_volts (v : D) (r : BreathResult D) : BreathResult D :=
  {| baseline_mean := baseline_mean r; baseline_std := baseline_std r;
     peak_volts := v; last_window := last_window r |}.
Definition set_last_window (w : WindowResult.t D) (r : BreathResult D)
    : BreathResult D :=
  {| baseline_mean := baseline_mean r; baseline_std := baseline_std r;
     peak_volts := peak_volts r; last_window := w |}.
Definition set_State (st : BreathAnalyzerState.t) (e : BreathEvent D)
    : BreathEvent D :=
  {| start_us := start_us e; end_us := end_us e;
     peak_voltage := peak_voltage e; State := st |}.

(** The exponentially weighted moving average of [UpdateBaseline]. *)
Definition ewma (alpha old sample : D) : D :=
  ((d_one - alpha) * old + alpha * sample)%D.

Definition UpdateBaseline (b : t) (breathwindow : WindowResult.t D)
    (breathresult : BreathResult D) : t * BreathResult D :=
  if bFreezebaseline b then (b, breathresult)
  else if negb (WindowResult.stable breathwindow) then (b, breathresult)
  else
    let alpha := baseline_alpha (bcfg b) in
    let '(b1, r1) :=
      if negb (bFoundbaseline b) then
        (* Count the first stable window immediately *)
        (set_baseline_stable_count 1 (set_bFoundbaseline true b),
         set_baseline (WindowResult.mean breathwindow)
                      (WindowResult.stddev breathwindow) breathresult)
      else (b, breathresult) in
    let r2 :=
      set_baseline
        (ewma alpha (baseline_mean r1) (WindowResult.mean breathwindow))
        (ewma alpha (baseline_std r1) (WindowResult.stddev breathwindow)) r1 in
    let b2 :=
      if negb (bWarmedup b1)
      then set_baseline_stable_count (wrap32 (baseline_stable_count b1 + 1)) b1
      else b1 in
    (b2, r2).

Definition Warmup (b : t) : bool * t :=
  if bFoundbaseline b
     && (warmup_stable_windows (bcfg b) <=? baseline_stable_count b)
  then (false,
        set_baseline_stable_count 0
          (set_state BreathAnalyzerState.Ready (set_bWarmedup true b)))
  else (false, set_state BreathAnalyzerState.Warmup b).

Definition Ready (b : t) (breathwindow : WindowResult.t D)
    (breathresult : BreathResult D) (start_threshold : D)
    : bool * t * BreathResult D :=
  if (WindowResult.mean breathwindow <? start_threshold)%D
  then (false, b, breathresult)
  else
    let b1 := set_state BreathAnalyzerState.Processing b in
    let b2 :=
      set_breath_start_us
        (if negb (WindowResult.window_start_us breathwindow =? 0)
         then WindowResult.window_start_us breathwindow
         else WindowResult.window_end_us breathwindow) b1 in
    let b3 := set_cur_peak_voltage (WindowResult.mean breathwindow) b2 in
    let r := set_peak_volts (cur_peak_voltage b3) breathresult in
    (false, set_cooldown_stable_count 0 b3, r).

Definition Processing (b : t) (breathwindow : WindowResult.t D)
    (breathresult : BreathResult D) (end_threshold : D)
    (out_event : BreathEvent D) : bool * t * BreathResult D * BreathEvent D :=
  let b1 :=
    set_cur_peak_voltage
      (d_max (cur_peak_voltage b) (WindowResult.mean breathwindow)) b in
  let r := set_peak_volts (cur_peak_voltage b1) breathresult in
  let elapsed :=
    wrap64 (WindowResult.window_end_us breathwindow - breath_start_us b1) in
  let falling_edge := (WindowResult.mean breathwindow <=? end_threshold)%D in
  let blowtimeout := max_blow_time_us (bcfg b1) <=? elapsed in
  if negb falling_edge && negb blowtimeout then (false, b1, r, out_event)
  else if elapsed <? min_blow_time_us (bcfg b1) then
    (false,
     set_cooldown_stable_count 0
       (set_cooldown_start_us (WindowResult.window_end_us breathwindow)
          (set_state BreathAnalyzerState.Cooldown b1)),
     r, out_event)
  else
    let ev :=
      {| start_us := breath_start_us b1;
         end_us := WindowResult.window_end_us breathwindow;
         peak_voltage := cur_peak_voltage b1;
         State := State out_event |} in
    (true,
     set_state BreathAnalyzerState.Analyzed
       (set_analyzed_end_us (WindowResult.window_end_us breathwindow) b1),
     r, ev).

Definition Cooldown (b : t) (breathwindow : WindowResult.t D)
    (breathresult : BreathResult D) (ready_threshold : D)
    : bool * t * BreathResult D :=
  if WindowResult.stable breathwindow
     && (WindowResult.mean breathwindow <=? ready_threshold)%D
  then
    let b1 := set_cooldown_stable_count (wrap32 (cooldown_stable_count b + 1)) b in
    if cooldown_stable_windows (bcfg b1) <=? cooldown_stable_count b1
    then (false,
          set_cur_peak_voltage d_zero
            (set_cooldown_stable_count 0
               (set_state BreathAnalyzerState.Ready b1)),
          set_peak_volts d_zero breathresult)
    else (false, b1, breathresult)
  else (false, set_cooldown_stable_count 0 b, breathresult).

Definition threshold (breathresult : BreathResult D) (delta_v k_sigma : D) : D :=
  (baseline_mean breathresult + delta_v + k_sigma * baseline_std breathresult)%D.

(** [AnalyzeBreath]: the return value, the analyzer, [breathresult] and
    [out_event] after the call. *)
Definition AnalyzeBreath (b : t) (breathwindow : WindowResult.t D)
    (breathresult : BreathResult D)
    : bool * t * BreathResult D * BreathEvent D :=
  let out_event := default_event in
  let breathresult := set_last_window breathwindow breathresult in
  if WindowResult.window_end_us breathwindow =? 0
  then (false, b, breathresult, out_event)
  else if negb (bWarmedup b) then
    let '(b1, r1) :=
      UpdateBaseline (set_bFreezebaseline false b) breathwindow breathresult in
    let '(ret, b2) := Warmup b1 in
    (ret, b2, r1, out_event)
  else
    (* Breath Analyzer Detection Thresholds *)
    let start_threshold :=
      threshold breathresult (start_delta_v (bcfg b)) (start_k_sigma (bcfg b)) in
    let end_threshold :=
      threshold breathresult (end_delta_v (bcfg b)) (end_k_sigma (bcfg b)) in
    let ready_threshold :=
      threshold breathresult (ready_delta_v (bcfg b)) (ready_k_sigma (bcfg b)) in
    match breath_state b with
    | BreathAnalyzerState.Ready =>
        let '(b1, r1) :=
          UpdateBaseline (set_bFreezebaseline false b) breathwindow breathresult in
        let out_event := set_State BreathAnalyzerState.Ready out_event in
        let '(ret, b2, r2) := Ready b1 breathwindow r1 start_threshold in
        (ret, b2, r2, out_event)
    | BreathAnalyzerState.Processing =>
        let b1 := set_bFreezebaseline true b in
        let out_event := set_State BreathAnalyzerState.Processing out_event in
        Processing b1 breathwindow breathresult end_threshold out_event
    | BreathAnalyzerState.Analyzed =>
        let out_event :=
          {| start_us := start_us out_event; end_us := end_us out_event;
             peak_voltage := peak_volts breathresult;   (* Set peak voltage found *)
             State := BreathAnalyzerState.Analyzed |} in
        (false,
         set_cooldown_stable_count 0 (set_state BreathAnalyzerState.Cooldown b),
         breathresult, out_event)
    | BreathAnalyzerState.Cooldown =>
        let '(b1, r1) :=
          UpdateBaseline (set_bFreezebaseline false b) breathwindow breathresult in
        let out_event := set_State BreathAnalyzerState.Cooldown out_event in
        let '(ret, b2, r2) := Cooldown b1 breathwindow r1 ready_threshold in
        (ret, b2, r2, out_event)
    | BreathAnalyzerState.Warmup | BreathAnalyzerState.None =>
        (false, b, breathresult,
         set_State BreathAnalyzerState.Cooldown out_event)
    end.

(** The analyzer after a sequence of windows, each given to
    [AnalyzeBreath] with the result of the one before. *)
Fixpoint run (b : t) (r : BreathResult D) (ws : list (WindowResult.t D))
    : t * BreathResult D :=
  match ws with
  | [] => (b, r)
  | w :: ws' =>
      let '(_, b', r', _) := AnalyzeBreath b w r in run b' r' ws'
  end.

(** Every window of [ws], taken in turn, leaves the machine in the phase
    [st]. *)
Fixpoint stays_in (st : BreathAnalyzerState.t) (b : t) (r : BreathResult D)
    (ws : list (WindowResult.t D)) : Prop :=
  match ws with
  | [] => True
  | w :: ws' =>
      breath_state (AnalyzeBreath b w r).1.1.2 = st ∧
      stays_in st (AnalyzeBreath b w r).1.1.2 (AnalyzeBreath b w r).1.2 ws'
  end.

(** A finalized window: [AnalyzeBreath] ignores the others. *)
Definition finalized (w : WindowResult.t D) : Prop :=
  WindowResult.window_end_us w ≠ 0.

Definition count_stable (ws : list (WindowResult.t D)) : nat :=
  length (filter (λ w, WindowResult.stable w = true) ws).

(** Until the warm-up is over the machine is in [Warmup]: the other phases
    are entered with [bWarmedup] set. *)
Definition warm_inv (b : t) : Prop :=
  bWarmedup b = false → breath_state b = BreathAnalyzerState.Warmup.

(** The machine during the warm-up, after [k] stable windows. *)
Definition warming (k : nat) (b : t) : Prop :=
  bWarmedup b = false ∧
  breath_state b = BreathAnalyzerState.Warmup ∧
  match k with
  | O => bFoundbaseline b = false
  | S _ => bFoundbaseline b = true ∧ baseline_stable_count b = Z.of_nat k + 1
  end.

(** The states an analyzer built with [b_cfg] goes through. *)
Inductive reachable (b_cfg : BreathAnalyzer_Config D) : t → Prop :=
| reachable_init : reachable b_cfg (init b_cfg)
| reachable_step b w r :
    reachable b_cfg b → reachable b_cfg (AnalyzeBreath b w r).1.1.2.

End BreathAnalyzer.
Arguments t D : clear implicits.
End BreathAnalyzer.

(** Windows and configurations for the worked examples. *)
Module Scenario.
Section Scenario.
Context `{Double D}.

(** A finalized window from [start] to [start + 1 s], with a standard
    deviation of 1 mV and no drift. *)
Definition window (stable : bool) (mean : D) (start : Z) : WindowResult.t D :=
  {| WindowResult.stable := stable;
     WindowResult.mean := mean;
     WindowResult.stddev := Config.ratio 1 1000;
     WindowResult.mean_prev := Some mean;
     WindowResult.drift_per_sec := d_zero;
     WindowResult.window_start_us := start;
     WindowResult.window_end_us := start + 1000000 |}.

(** A stable window at the 1 V baseline. *)
Definition quiet (start : Z) : WindowResult.t D := window true d_one start.

(** The default configuration with a warm-up of [warmup] stable windows and
    a minimal blow time of [min_blow] microseconds. *)
Definition breath_cfg (warmup min_blow : Z) : BreathAnalyzer_Config D :=
  {| warmup_stable_windows := warmup;
     cooldown_stable_windows := cooldown_stable_windows Config.breath_cfg;
     min_blow_time_us := min_blow;
     max_blow_time_us := max_blow_time_us Config.breath_cfg;
     start_delta_v := start_delta_v Config.breath_cfg;
     end_delta_v := end_delta_v Config.breath_cfg;
     baseline_alpha := baseline_alpha Config.breath_cfg;
     start_k_sigma := start_k_sigma Config.breath_cfg;
     end_k_sigma := end_k_sigma Config.breath_cfg;
     ready_delta_v := ready_delta_v Config.breath_cfg;
     ready_k_sigma := ready_k_sigma Config.breath_cfg |}.

(** An analyzer configuration that accepts one-sample windows and reports
    the first quiet window as stable. *)
Definition eager_cfg : Analyzer_Config D :=
  {| window_micro := 1000000;
     min_window_sample_size := 1;
     stddev_max := stddev_max Config.analyzer_cfg;
     drift_per_sec_max := drift_per_sec_max Config.analyzer_cfg;
     stable_consecutive_windows_req := 1 |}.

End Scenario.
End Scenario.

(** ** The processors ([processor_types.h]) *)

(** What [ProcessRunner] asks of its [Processor] template argument.
    [bEnableTimeout] is the [consteval] of the same name: the static member
    when the processor declares one, [true] otherwise. *)
Module Proc.
Class Processor (D P R : Type) : Type := {
  on_batch : nat → P → list (Sample D) → option (StepResult R * P);
  result : P → R;
  bEnableTimeout : bool
}.
End Proc.

Module CalibrationProcess.
Section CalibrationProcess.
Context `{Double D}.

Record t : Type := mk {
  analyzer_ : WelfordAnalyzer.t D;
  last_ : WindowResult.t D
}.

Definition init (cfg : Analyzer_Config D) : t :=
  {| analyzer_ := WelfordAnalyzer.init cfg; last_ := WindowResult.default |}.

Definition on_batch (fuel : nat) (p : t) (sample : list (Sample D))
    : option (StepResult (WindowResult.t D) * t) :=
  match WelfordAnalyzer.AnalyzeBatch fuel (analyzer_ p) sample get_volts with
  | None => None
  | Some (step, a) =>
      let last :=
        if negb (WindowResult.window_end_us (result step) =? 0)
        then result step else last_ p in
      let step' :=
        if WindowResult.stable (result step)
        then {| action := Done; event := event step; result := result step |}
        else step in
      Some (step', {| analyzer_ := a; last_ := last |})
  end.

Definition result (p : t) : WindowResult.t D := last_ p.

(** No [bEnableTimeout] member: the runner's default applies. *)
#[global] Instance processor : Proc.Processor D t (WindowResult.t D) :=
  {| Proc.on_batch := on_batch; Proc.result := result;
     Proc.bEnableTimeout := true |}.

End CalibrationProcess.
Arguments t D : clear implicits.
End CalibrationProcess.

Module RuntimeProcess.
Section RuntimeProcess.
Context `{Double D}.

Record t : Type := mk {
  W_analyzer_ : WelfordAnalyzer.t D;
  B_analyzer_ : BreathAnalyzer.t D;
  snapshot_ : BreathResult D;
  bHasEvent : bool;
  last_event : BreathEvent D
}.

Definition init (cfg : Analyzer_Config D) (bcfg : BreathAnalyzer_Config D) : t :=
  {| W_analyzer_ := WelfordAnalyzer.init cfg;
     B_analyzer_ := BreathAnalyzer.init bcfg;
     snapshot_ := BreathAnalyzer.default_result;
     bHasEvent := false;
     last_event := BreathAnalyzer.default_event |}.

Definition on_batch (fuel : nat) (p : t) (sample : list (Sample D))
    : option (StepResult (BreathResult D) * t) :=
  let out_result := snapshot_ p in
  match WelfordAnalyzer.AnalyzeBatch fuel (W_analyzer_ p) sample get_volts with
  | None => None
  | Some (step, wa) =>
      if negb (WindowResult.window_end_us (result step) =? 0) then
        (* Window finalized: the breath analyzer consumes it *)
        let out_result := BreathAnalyzer.set_last_window (result step) out_result in
        let '(_, ba, out_result, breath_event) :=
          BreathAnalyzer.AnalyzeBreath (B_analyzer_ p)
            (last_window out_result) out_result in
        Some ({| action := Continue;
                 event := Event.of_state (State breath_event);
                 result := out_result |},
              {| W_analyzer_ := wa; B_analyzer_ := ba; snapshot_ := out_result;
                 bHasEvent := true; last_event := breath_event |})
      else
        Some ({| action := Continue; event := Event.None; result := out_result |},
              {| W_analyzer_ := wa; B_analyzer_ := B_analyzer_ p;
                 snapshot_ := out_result;
                 bHasEvent := bHasEvent p; last_event := last_event p |})
  end.

Definition pop_breath_event (p : t) : option (BreathEvent D) * t :=
  if negb (bHasEvent p) then (None, p)
  else (Some (last_event p),
        {| W_analyzer_ := W_analyzer_ p; B_analyzer_ := B_analyzer_ p;
           snapshot_ := snapshot_ p; bHasEvent := false;
           last_event := last_event p |}).

Definition result (p : t) : BreathResult D := snapshot_ p.

(** [static constexpr bool bEnableTimeout = false]. *)
#[global] Instance processor : Proc.Processor D t (BreathResult D) :=
  {| Proc.on_batch := on_batch; Proc.result := result;
     Proc.bEnableTimeout := false |}.

(** The loop of the [on_breath] callback of [StartRuntime]:
    [while (processor.pop_breath_event(event))], with the events it
    handled. *)
Fixpoint drain_events (fuel : nat) (p : t) : list (BreathEvent D) * t :=
  match fuel with
  | O => ([], p)
  | S fuel' =>
      match pop_breath_event p with
      | (None, p') => ([], p')
      | (Some e, p') =>
          let '(es, p'') := drain_events fuel' p' in (e :: es, p'')
      end
  end.

End RuntimeProcess.
Arguments t D : clear implicits.
End RuntimeProcess.

(** ** The batch runner ([process_runner.h])

    The consumer loop of [ProcessRunner::run].  What it cannot see from the
    inside is given by a [World]: the samples the sampler thread pushed into
    the ring before each [pop_batch], the successive readings of the steady
    clock and the successive loads of [g_running]. *)

#[export] Instance Sample_inhabited `{Double D} : Inhabited (Sample D) :=
  populate {| t_us := 0; raw := 0; volts := d_zero |}.

Module ProcessRunner.
Section ProcessRunner.
Context `{Double D} {P R : Type} `{!Proc.Processor D P R}.

(** [Config::RingSize] is [2 ^ k]. *)
Variable k : nat.

Record World : Type := mkWorld {
  produced : nat → list (Sample D);
  clock : nat → Z;
  g_running : nat → bool
}.

Record Outcome : Type := mkOutcome {
  returned : R;          (* the value of [run] *)
  processor : P;         (* the processor when [run] returns *)
  callbacks : nat;       (* calls of [on_process_event] *)
  iterations : nat       (* completed passes through the loop *)
}.

Variable w : World.
Variable consumer_config : Consumer_Config.
Variable on_process_event : P → P.
Variable analyzer_fuel : nat.

(** [steady_clock::now() - start >= consumer_config.Timeout], at the
    [c]-th reading of the clock. *)
Definition timed_out (start : Z) (c : nat) : bool :=
  Timeout consumer_config <=? clock w c - start.

Fixpoint run_loop (fuel : nat) (start : Z) (i c calls : nat)
    (ring : Spsc.SpscRing (Sample D)) (p : P) : option Outcome :=
  match fuel with
  | O => None
  | S fuel' =>
      if negb (g_running w i) then
        (* stopped via signal *)
        Some (mkOutcome (Proc.result p) p calls i)
      else
        let ring := (Spsc.push_all k (produced w i) ring).2 in
        let '(batch, ring) := Spsc.pop_batch k (max_batch consumer_config) ring in
        match batch with
        | [] =>
            (* idle *)
            if Proc.bEnableTimeout then
              if timed_out start c
              then Some (mkOutcome (Proc.result p) p calls i)
              else run_loop fuel' start (S i) (S c) calls ring p
            else run_loop fuel' start (S i) c calls ring p
        | _ :: _ =>
            match Proc.on_batch analyzer_fuel p batch with
            | None => None
            | Some (cur_step, p) =>
                (* Fire off an event to the lambda *)
                let '(p, calls) :=
                  if negb (Event.is_None (event cur_step))
                  then (on_process_event p, S calls) else (p, calls) in
                match action cur_step with
                | Continue =>
                    if Proc.bEnableTimeout then
                      if timed_out start c
                      then Some (mkOutcome (Proc.result p) p calls i)
                      else run_loop fuel' start (S i) (S c) calls ring p
                    else run_loop fuel' start (S i) c calls ring p
                | Done | Abort => Some (mkOutcome (Proc.result p) p calls i)
                end
            end
        end
  end.

(** [run(on_process_event)]: the first reading of the clock is [start]. *)
Definition run (fuel : nat) (p : P) : option Outcome :=
  run_loop fuel (clock w 0) 0 1 0 (Spsc.empty k) p.

End ProcessRunner.
End ProcessRunner.

(** A runtime processor and two batches for the worked examples: every
    reading is 1 V; the first batch closes the window opened at 1 us, the
    second the one after it. *)
Module RuntimeScenario.
Section RuntimeScenario.
Context `{Double D}.

Definition fresh : RuntimeProcess.t D :=
  RuntimeProcess.init Scenario.eager_cfg (Scenario.breath_cfg 1 400000).

Definition reading (t : Z) : Sample D := {| t_us := t; raw := 0; volts := d_one |}.

Definition first_batch : list (Sample D) := [reading 1; reading 1000001].
Definition second_batch : list (Sample D) := [reading 2000001].

(** The sampler delivers the two batches, then the run is stopped. *)
Definition world : ProcessRunner.World :=
  {| ProcessRunner.produced :=
       λ i, match i with
            | 0%nat => first_batch
            | 1%nat => second_batch
            | _ => []
            end;
     ProcessRunner.clock := λ c, Z.of_nat c * 50000;
     ProcessRunner.g_running := λ i, (i <? 2)%nat |}.

(** The callback of [StartRuntime], as far as the processor is concerned:
    it drains the pending events. *)
Definition on_breath (p : RuntimeProcess.t D) : RuntimeProcess.t D :=
  (RuntimeProcess.drain_events 8 p).2.

End RuntimeScenario.
End RuntimeScenario.

(** ** The ring in sequential use, and the queue it stands for

    The three operations of [SpscRing] as commands, with what each call
    returns, and the same commands on a plain first-in first-out list of
    bounded length: the reference the ring is compared with. *)

Module SpscOps.
Section Ops.
Context {T : Type} `{!Inhabited T}.
Variable k : nat.

Inductive Op : Type :=
| Push (value : T)
| PushOverwrite (value : T)
| Pop.

Inductive Ret : Type :=
| Pushed (ok : bool)
| Popped (out : option T).

Definition step (r : Spsc.SpscRing T) (o : Op) : Ret * Spsc.SpscRing T :=
  match o with
  | Push value => let '(ok, r') := Spsc.push k r value in (Pushed ok, r')
  | PushOverwrite value =>
      let '(ok, r') := Spsc.push_overwrite k r value in (Pushed ok, r')
  | Pop => let '(out, r') := Spsc.pop k r in (Popped out, r')
  end.

Fixpoint run (ops : list Op) (r : Spsc.SpscRing T)
    : list Ret * Spsc.SpscRing T :=
  match ops with
  | [] => ([], r)
  | o :: ops' =>
      let '(x, r') := step r o in
      let '(xs, r'') := run ops' r' in
      (x :: xs, r'')
  end.

(** The reference queue, holding at most [cap] elements, oldest first:
    [Push] refuses when it is full, [PushOverwrite] then makes room by
    dropping the oldest element and reports it by returning [false]. *)
Definition fifo_step (cap : nat) (q : list T) (o : Op) : Ret * list T :=
  match o with
  | Push value =>
      if bool_decide (length q < cap)%nat
      then (Pushed true, q ++ [value]) else (Pushed false, q)
  | PushOverwrite value =>
      if bool_decide (length q < cap)%nat
      then (Pushed true, q ++ [value])
      else (Pushed false, lastn cap (q ++ [value]))
  | Pop =>
      match q with
      | [] => (Popped None, [])
      | x :: q' => (Popped (Some x), q')
      end
  end.

Fixpoint fifo_run (cap : nat) (ops : list Op) (q : list T) : list Ret * list T :=
  match ops with
  | [] => ([], q)
  | o :: ops' =>
      let '(x, q') := fifo_step cap q o in
      let '(xs, q'') := fifo_run cap ops' q' in
      (x :: xs, q'')
  end.

End Ops.
Arguments Op T : clear implicits.
Arguments Ret T : clear implicits.
End SpscOps.

(** ** The producer: [Sampler::run_sampler] ([sampler.h])

    The loop body, once per period while [running] is set: a reading the
    source delivered is pushed with [push_overwrite], and [dropped_] counts
    the pushes that evicted an unread sample.  [None] is a pass in which
    [sample_value] returned [false]. *)

Module Sampler.
Section Sampler.
Context `{Double D}.

(** [Config::RingSize] is [2 ^ k]. *)
Variable k : nat.

Record t : Type := mk {
  ring : Spsc.SpscRing (Sample D);
  dropped_ : Z                       (* std::atomic<uint64_t> *)
}.

Definition init : t := {| ring := Spsc.empty k; dropped_ := 0 |}.

Definition tick (s : t) (reading : option (Sample D)) : t :=
  match reading with
  | Some sample =>
      let '(ok, ring') := Spsc.push_overwrite k (ring s) sample in
      {| ring := ring';
         dropped_ := if negb ok then wrap64 (dropped_ s + 1) else dropped_ s |}
  | None => s
  end.

Definition run_sampler (readings : list (option (Sample D))) (s : t) : t :=
  fold_left tick readings s.

Definition dropped (s : t) : Z := dropped_ s.

(** The readings the source delivered, in order. *)
Definition delivered (readings : list (option (Sample D))) : list (Sample D) :=
  omap id readings.

End Sampler.
Arguments t D : clear implicits.
End Sampler.

(** ** The ADC: the register words of [ADS1115] ([ads1115.h], [ads1115.cpp]) *)

Module ADS1115.

(** [static_cast<std::uint8_t>], [static_cast<std::uint16_t>] and
    [static_cast<int16_t>] of a 16-bit value. *)
Definition uint8 (z : Z) : Z := z mod 2 ^ 8.
Definition uint16 (z : Z) : Z := z mod 2 ^ 16.
Definition int16 (raw_u16 : Z) : Z :=
  if raw_u16 <? 2 ^ 15 then raw_u16 else raw_u16 - 2 ^ 16.

Module Mode.
Inductive t : Type := Continuous | SingleShot.
Definition val (m : t) : Z :=
  match m with
  | Continuous => Z.shiftl 0 8
  | SingleShot => Z.shiftl 1 8
  end.
End Mode.

Module Mux.
Inductive t : Type := AIN0_GND | AIN1_GND | AIN2_GND | AIN3_GND.
Definition val (m : t) : Z :=
  match m with
  | AIN0_GND => Z.shiftl 4 12
  | AIN1_GND => Z.shiftl 5 12
  | AIN2_GND => Z.shiftl 6 12
  | AIN3_GND => Z.shiftl 7 12
  end.
End Mux.

Module Pga.
Inductive t : Type :=
  FS_6_144V | FS_4_096V | FS_2_048V | FS_1_024V | FS_0_512V | FS_0_256V.
Definition val (p : t) : Z :=
  match p with
  | FS_6_144V => Z.shiftl 0 9
  | FS_4_096V => Z.shiftl 1 9
  | FS_2_048V => Z.shiftl 2 9
  | FS_1_024V => Z.shiftl 3 9
  | FS_0_512V => Z.shiftl 4 9
  | FS_0_256V => Z.shiftl 5 9
  end.
End Pga.

Module DataRate.
Inductive t : Type :=
  SPS_8 | SPS_16 | SPS_32 | SPS_64 | SPS_128 | SPS_250 | SPS_475 | SPS_860.
Definition val (d : t) : Z :=
  match d with
  | SPS_8 => Z.shiftl 0 5
  | SPS_16 => Z.shiftl 1 5
  | SPS_32 => Z.shiftl 2 5
  | SPS_64 => Z.shiftl 3 5
  | SPS_128 => Z.shiftl 4 5
  | SPS_250 => Z.shiftl 5 5
  | SPS_475 => Z.shiftl 6 5
  | SPS_860 => Z.shiftl 7 5
  end.
(** The rate each enumerator is named after, in samples per second. *)
Definition named_rate (d : t) : Z :=
  match d with
  | SPS_8 => 8
  | SPS_16 => 16
  | SPS_32 => 32
  | SPS_64 => 64
  | SPS_128 => 128
  | SPS_250 => 250
  | SPS_475 => 475
  | SPS_860 => 860
  end.
End DataRate.

Module CompQueue.
Inductive t : Type := Assert1 | Assert2 | Assert4 | Disable.
Definition val (c : t) : Z :=
  match c with
  | Assert1 => 0
  | Assert2 => 1
  | Assert4 => 2
  | Disable => 3
  end.
End CompQueue.

(** Build a config word. *)
Definition MakeConfig (mux : Mux.t) (pga : Pga.t) (mode : Mode.t)
    (drate : DataRate.t) (cqueue : CompQueue.t) : Z :=
  let COMP_MODE_TRAD := Z.shiftl 0 4 in
  let COMP_POL_LOW := Z.shiftl 0 3 in
  let COMP_LAT_NON := Z.shiftl 0 2 in
  uint16
    (Z.lor (Z.lor (Z.lor (Z.lor (Z.lor (Z.lor (Z.lor
       (uint16 (Mux.val mux))
       (uint16 (Pga.val pga)))
       (uint16 (Mode.val mode)))
       (uint16 (DataRate.val drate)))
       COMP_MODE_TRAD)
       COMP_POL_LOW)
       COMP_LAT_NON)
       (uint16 (CompQueue.val cqueue))).

Definition StartSingleConversion (cfg : Z) : Z :=
  let OS_BITSHIFT := 15 in
  uint16 (Z.lor cfg (Z.shiftl 1 OS_BITSHIFT)).   (* OS bit *)

(** The config word [ReadSingleShot] writes. *)
Definition ReadSingleShot_config (mux : Mux.t) (pga : Pga.t)
    (daterate : DataRate.t) : Z :=
  StartSingleConversion
    (MakeConfig mux pga Mode.SingleShot daterate CompQueue.Disable).

Definition Rate_lookup : list Z := [8; 16; 32; 64; 128; 250; 475; 860].

Definition Get_SpsRate (datarate : DataRate.t) : Z :=
  let Mask3Bits := 7 in
  let idx := Z.land (Z.shiftr (uint8 (DataRate.val datarate)) 5) Mask3Bits in
  Rate_lookup !!! Z.to_nat idx.

Definition ConversionTimeMs (datarate : DataRate.t) : Z :=
  let sps_rate := Get_SpsRate datarate in
  Z.quot (1000 + sps_rate - 1) sps_rate.

(** The waiting times of [ReadSingleShot], in milliseconds. *)
Definition timeout_ms (daterate : DataRate.t) : Z :=
  let margin_ms := 5 in ConversionTimeMs daterate + margin_ms.

Definition poll_ms (daterate : DataRate.t) : Z :=
  if ConversionTimeMs daterate <=? 2 then 1 else 2.

(** The bytes [i2c_write_word] puts on the bus: the register, then the
    value, most significant byte first. *)
Definition i2c_write_word_buf (reg value : Z) : list Z :=
  let LSB := 255 in
  let MSB := 8 in
  [reg; uint8 (Z.shiftr value MSB); uint8 (Z.land value LSB)].

(** The word [i2c_read_word] makes of the two bytes it read. *)
Definition i2c_read_word_conversion (rbuf : list Z) : Z :=
  let MSB_SHIFT := 8 in
  uint16 (Z.lor (Z.shiftl (uint16 (rbuf !!! 0%nat)) MSB_SHIFT)
                (uint16 (rbuf !!! 1%nat))).

(** [ReadSingleShot] on a bus it cannot see into: whether the write of a
    register succeeds, what the successive calls of [i2c_read_word] read
    ([None] when one fails), and the successive readings of the steady
    clock, in nanoseconds. *)
Record Bus : Type := mkBus {
  i2c_write_word : Z → Z → bool;
  i2c_read_word : nat → option Z;
  now : nat → Z
}.

Module Reg.
Definition Conversion : Z := 0.
Definition Config : Z := 1.
End Reg.

Section ReadSingleShot.
Variable bus : Bus.

(** The polling loop, from the [r]-th read and the [c]-th reading of the
    clock on; [Some None] is the return value [false], [Some (Some raw)]
    is [true] with [out_raw = raw]. *)
Fixpoint ReadSingleShot_loop (daterate : DataRate.t) (fuel : nat) (start : Z)
    (r c : nat) : option (option Z) :=
  let OSMASK := 0x8000 in
  match fuel with
  | O => None
  | S fuel' =>
      match i2c_read_word bus r with
      | None => Some None
      | Some read_cfg =>
          if negb (Z.land read_cfg OSMASK =? 0)
          then Some (i2c_read_word bus (S r))
          else if timeout_ms daterate * 1000000 <=? now bus c - start
          then Some None
          else ReadSingleShot_loop daterate fuel' start (S r) (S c)
      end
  end.

Definition ReadSingleShot (fuel : nat) (mux : Mux.t) (pga : Pga.t)
    (daterate : DataRate.t) : option (option Z) :=
  if negb (i2c_write_word bus Reg.Config (ReadSingleShot_config mux pga daterate))
  then Some None
  else ReadSingleShot_loop daterate fuel (now bus 0) 0 1.

End ReadSingleShot.

Section Volts.
Context `{Double D}.

(** [static_cast<double>(raw)] of a signed [raw]: the class converts
    unsigned integers, and [0 - n] is the exact negative. *)
Definition d_of_int (z : Z) : D :=
  if z <? 0 then (d_zero - d_of_Z (- z))%D else d_of_Z z.

Definition Convert_Volts_FS4_096 (raw_u16 : Z) : D :=
  let raw := int16 raw_u16 in
  let FS_4_096V := Config.ratio 4096 1000 in
  let Step_Div := d_of_Z 32768 in
  (d_of_int raw * (FS_4_096V / Step_Div))%D.

End Volts.
End ADS1115.

(** ** The LEDs ([gpio_bank.h], [gpio_bank.cpp], [led_controller.h],
    [led_controller.cpp]) *)

Module LedType.
Inductive t : Type := Blue | Green | Yellow | Orange | Red.

(** The enumerator values: [static_cast<size_t>(T)]. *)
Definition val (T : t) : Z :=
  match T with
  | Blue => 0
  | Green => 1
  | Yellow => 2
  | Orange => 3
  | Red => 4
  end.

(** [static_cast<LedType>(i)], which the code applies to the indices of the
    LED array, [0] to [4], only. *)
Definition of_Z (i : Z) : t :=
  match i with
  | 0 => Blue
  | 1 => Green
  | 2 => Yellow
  | 3 => Orange
  | _ => Red
  end.
End LedType.

Record Led_Info : Type := mkLedInfo {
  gpio_pin : Z;               (* unsigned int *)
  led_Type : LedType.t        (* the member [Type] *)
}.

Definition NUM_PINS : Z := 5.

Definition Default_LedArray : list Led_Info :=
  [ {| gpio_pin := 26; led_Type := LedType.Blue |};
    {| gpio_pin := 17; led_Type := LedType.Green |};
    {| gpio_pin := 27; led_Type := LedType.Yellow |};
    {| gpio_pin := 22; led_Type := LedType.Orange |};
    {| gpio_pin := 16; led_Type := LedType.Red |} ].

#[export] Instance Led_Info_inhabited : Inhabited Led_Info :=
  populate {| gpio_pin := 0; led_Type := LedType.Blue |}.

Module LedMask.
Definition M_Blue : Z := Z.shiftl 1 0.
Definition M_Green : Z := Z.shiftl 1 1.
Definition M_Yellow : Z := Z.shiftl 1 2.
Definition M_Orange : Z := Z.shiftl 1 3.
Definition M_Red : Z := Z.shiftl 1 4.
End LedMask.

(** The bank once [Init] has run: whether the line request is there, and
    the value of every line ([true] is [GPIOD_LINE_VALUE_ACTIVE]), which
    [gpiod_line_request_set_value] changes. *)
Module GPIOBank.
Record t : Type := mk {
  request_interface : bool;         (* false: nullptr *)
  lines : Z → bool
}.

Definition GetLedInfo : list Led_Info := Default_LedArray.

Definition MakeOffset (leds : list Led_Info) : list Z :=
  map (λ i, gpio_pin (leds !!! i)) (seq 0 (length Default_LedArray)).

Definition set_value (bank : t) (offset : Z) (value : bool) : t :=
  {| request_interface := request_interface bank;
     lines := λ pin, if pin =? offset then value else lines bank pin |}.
End GPIOBank.

Module LedController.

Definition LedToIndex (T : LedType.t) : Z := LedType.val T.

(** The line of an LED: [led_info[idx].gpio_pin]. *)
Definition pin_of (T : LedType.t) : Z :=
  gpio_pin (GPIOBank.GetLedInfo !!! Z.to_nat (LedToIndex T)).

Definition SetLed (LedBank : GPIOBank.t) (type : LedType.t) (state : bool)
    : GPIOBank.t :=
  let led_info := GPIOBank.GetLedInfo in
  if negb (GPIOBank.request_interface LedBank) then LedBank
  else if bool_decide (led_info = []) then LedBank
  else
    let idx := LedToIndex type in
    if Z.of_nat (length led_info) <? idx then LedBank
    else GPIOBank.set_value LedBank (gpio_pin (led_info !!! Z.to_nat idx)) state.

Definition Clear (LedBank : GPIOBank.t) : GPIOBank.t :=
  fold_left (λ bank led, SetLed bank (led_Type led) false)
            GPIOBank.GetLedInfo LedBank.

Definition EnableAll (LedBank : GPIOBank.t) : GPIOBank.t :=
  fold_left (λ bank led, SetLed bank (led_Type led) true)
            GPIOBank.GetLedInfo LedBank.

Definition ApplyMask (LedBank : GPIOBank.t) (mask : Z) : GPIOBank.t :=
  fold_left
    (λ bank i,
       let led := LedType.of_Z (Z.of_nat i) in
       let enable := negb (Z.land mask (Z.shiftl 1 (Z.of_nat i)) =? 0) in
       SetLed bank led enable)
    (seq 0 (length GPIOBank.GetLedInfo)) LedBank.

Section BAC.
Context `{Double D}.

(** [std::clamp(v, lo, hi)]. *)
Definition d_clamp (v lo hi : D) : D :=
  if (v <? lo)%D then lo else if (hi <? v)%D then hi else v.

(** The mask [DriveBAC] applies. *)
Definition DriveBAC_mask (bac_percent : D) : Z :=
  let PumpStomach := Config.ratio 45 100 in
  let bac_percent := d_clamp bac_percent d_zero PumpStomach in
  (* BAC thresholds *)
  let No_Impariment := Config.ratio 2 100 in
  let Slightly_Tipsy := Config.ratio 5 100 in
  let Drunk := Config.ratio 8 100 in
  if (bac_percent <? No_Impariment)%D then LedMask.M_Green
  else if (bac_percent <? Slightly_Tipsy)%D
  then Z.lor LedMask.M_Green LedMask.M_Yellow
  else if (bac_percent <? Drunk)%D
  then Z.lor (Z.lor LedMask.M_Green LedMask.M_Yellow) LedMask.M_Orange
  else Z.lor (Z.lor (Z.lor LedMask.M_Green LedMask.M_Yellow) LedMask.M_Orange)
             LedMask.M_Red.

Definition DriveBAC (LedBank : GPIOBank.t) (bac_percent : D) : GPIOBank.t :=
  ApplyMask LedBank (DriveBAC_mask bac_percent).

End BAC.
End LedController.

(** ** The sensor curve ([mq3_helper.h]) and the reading of a breath
    ([StartRuntime], [processor_types.h])

    [std::exp] and [std::log] stay parameters. *)

Module MQ3.
Section MQ3.
Context `{Double D}.
Variable d_exp : D → D.     (* std::exp *)
Variable d_log : D → D.     (* std::log *)

Definition E_Slope : D := (d_zero - Config.ratio 268 1000)%D.
Definition E_Intercept : D := Config.ratio 29 100.
Definition Voltage_Factor : D := Config.ratio 15 10.     (* 3v3 -> 5v *)
Definition VCC_5v : D := d_of_Z 5.
Definition Ethanol_Conversion : D := d_of_Z 530.
Definition PPM_BAC_Conversion : D := Config.ratio 385505 1000000000.

(** [Config::RLoad] and [Config::Ro_Air]. *)
Definition RLoad : D := d_of_Z 20000.
Definition Ro_Air : D := Config.ratio 685124026 1000000.

Definition adc3v3_to_vout5 (vadc_3v3 : D) : D := (vadc_3v3 * Voltage_Factor)%D.

Definition vout5_to_rs (vout_5v RLoad Vcc : D) : D :=
  (RLoad * ((Vcc / vout_5v) - d_one))%D.

Definition adc3v3_to_rs (vadc_3v3 RLoad Vcc : D) : D :=
  vout5_to_rs (adc3v3_to_vout5 vadc_3v3) RLoad Vcc.

Definition rs_to_ratio (rstable r0_air : D) : D := (rstable / r0_air)%D.

Definition adc3v3_to_ratio (vadc_3v3 RLoad r0_air Vcc : D) : D :=
  rs_to_ratio (adc3v3_to_rs vadc_3v3 RLoad Vcc) r0_air.

Definition calculate_concentration_exp (rs_ro : D) : D :=
  d_exp ((d_log rs_ro + E_Intercept) / E_Slope)%D.

Definition calculate_ppm (concentration : D) : D :=
  (concentration * Ethanol_Conversion)%D.

Definition calculate_bac (ppm : D) : D := (ppm * PPM_BAC_Conversion)%D.

(** The [Analyzed] case of the [on_breath] callback of [StartRuntime]: the
    blood alcohol content shown for an event's peak voltage. *)
Definition Analyzed_bac (peak_voltage : D) : D :=
  let Rs_Peak := adc3v3_to_rs peak_voltage RLoad VCC_5v in
  let ratio := rs_to_ratio Rs_Peak Ro_Air in
  let conc := calculate_concentration_exp ratio in
  let ppm := calculate_ppm conc in
  calculate_bac ppm.

End MQ3.
End MQ3.

(** ** The stability test, read off a result *)

Module WindowLimits.
Section WindowLimits.
Context `{Double D}.

(** The test [FinalizeWindow] makes of a window with enough samples
    ([bWindowStable]), on the values it stores in the result. *)
Definition within_limits (c : Analyzer_Config D) (w : WindowResult.t D) : bool :=
  (WindowResult.stddev w <=? stddev_max c)%D
  && (negb (match WindowResult.mean_prev w with
            | Some prev => d_isfinite prev
            | None => false
            end)
      || (WindowResult.drift_per_sec w <=? drift_per_sec_max c)%D).

(** The counter of stable windows never exceeds the length of the run of
    windows within the limits that ends the history [hist] of finalized
    windows. *)
Definition counted (c : Analyzer_Config D) (a : WelfordAnalyzer.t D)
    (hist : list (WindowResult.t D)) : Prop :=
  WelfordAnalyzer.cfg a = c ∧
  ∃ run, run `suffix_of` hist ∧
         Forall (λ w, within_limits c w = true) run ∧
         0 <= WelfordAnalyzer.stable_window_count a <= Z.of_nat (length run).

(** Every stable window of the history ends a run of at least
    [stable_consecutive_windows_req] windows within the limits. *)
Definition debounced (c : Analyzer_Config D)
    (hist : list (WindowResult.t D)) : Prop :=
  ∀ i w, hist !! i = Some w → WindowResult.stable w = true →
    ∃ run, run `suffix_of` take (S i) hist ∧
           Forall (λ w, within_limits c w = true) run ∧
           stable_consecutive_windows_req c <= Z.of_nat (length run).

End WindowLimits.
End WindowLimits.

(** ** More of the state machine: [BreathAnalyzer::reset] and the windows
    of a cool-down *)

Module BreathAnalyzerMore.
Section More.
Context `{Double D}.

(** [reset(BreathResult&)]. *)
Definition reset (b : BreathAnalyzer.t D) (breathresult : BreathResult D)
    : BreathAnalyzer.t D * BreathResult D :=
  (BreathAnalyzer.set_baseline_stable_count 0
     (BreathAnalyzer.set_breath_start_us 0
        (BreathAnalyzer.set_cur_peak_voltage d_zero b)),
   BreathAnalyzer.set_peak_volts d_zero breathresult).

(** The phases of a machine that has finished its warm-up. *)
Definition in_service (st : BreathAnalyzerState.t) : bool :=
  match st with
  | BreathAnalyzerState.Ready | BreathAnalyzerState.Processing
  | BreathAnalyzerState.Analyzed | BreathAnalyzerState.Cooldown => true
  | BreathAnalyzerState.Warmup | BreathAnalyzerState.None => false
  end.

(** The phases in which [AnalyzeBreath] calls [UpdateBaseline] once the
    warm-up is over. *)
Definition follows_baseline (st : BreathAnalyzerState.t) : bool :=
  match st with
  | BreathAnalyzerState.Ready | BreathAnalyzerState.Cooldown => true
  | _ => false
  end.

(** What every call of [AnalyzeBreath] keeps: the configuration and, once
    the warm-up is over, the baseline found and the machine in one of its
    four working phases. *)
Definition settled (b_cfg : BreathAnalyzer_Config D) (b : BreathAnalyzer.t D)
    : Prop :=
  BreathAnalyzer.bcfg b = b_cfg ∧
  (BreathAnalyzer.bWarmedup b = true →
   BreathAnalyzer.bFoundbaseline b = true ∧
   in_service (BreathAnalyzer.breath_state b) = true).

(** A window that [Cooldown] counts: stable, with a mean at or below the
    ready threshold of the baseline as it stands when the window comes. *)
Definition quiet (b : BreathAnalyzer.t D) (r : BreathResult D)
    (w : WindowResult.t D) : Prop :=
  BreathAnalyzer.finalized w ∧ WindowResult.stable w = true ∧
  (WindowResult.mean w
     <=? BreathAnalyzer.threshold r
           (ready_delta_v (BreathAnalyzer.bcfg b))
           (ready_k_sigma (BreathAnalyzer.bcfg b)))%D = true.

(** Every window of [ws], taken in turn, is one that [Cooldown] counts. *)
Fixpoint all_quiet (b : BreathAnalyzer.t D) (r : BreathResult D)
    (ws : list (WindowResult.t D)) : Prop :=
  match ws with
  | [] => True
  | w :: ws' =>
      quiet b r w ∧
      all_quiet (BreathAnalyzer.AnalyzeBreath b w r).1.1.2
                (BreathAnalyzer.AnalyzeBreath b w r).1.2 ws'
  end.

End More.
End BreathAnalyzerMore.
(** A breath in binary64, for the worked examples: a machine that has
    finished a warm-up of two windows at the 1 V baseline, the trigger at
    1.2 V, a window at 1.5 V, the fall back to 1 V that ends the breath,
    and the quiet windows after it. *)
Module BreathScenario.

Definition cfg : BreathAnalyzer_Config float := Scenario.breath_cfg 2 400000.

Definition ready : BreathAnalyzer.t float :=
  (BreathAnalyzer.run (BreathAnalyzer.init cfg) BreathAnalyzer.default_result
     [Scenario.quiet 1]).1.

Definition ready_result : BreathResult float :=
  (BreathAnalyzer.run (BreathAnalyzer.init cfg) BreathAnalyzer.default_result
     [Scenario.quiet 1]).2.

Definition trigger : WindowResult.t float :=
  Scenario.window false (Config.ratio 12 10) 1000001.
Definition rising : WindowResult.t float :=
  Scenario.window false (Config.ratio 15 10) 2000001.
Definition falling : WindowResult.t float := Scenario.window false 1%float 3000001.

(** The machine and the snapshot when the last window of the breath
    comes. *)
Definition blowing : BreathAnalyzer.t float :=
  (BreathAnalyzer.run ready ready_result [trigger; rising]).1.
Definition blowing_result : BreathResult float :=
  (BreathAnalyzer.run ready ready_result [trigger; rising]).2.

(** At the start of the cool-down. *)
Definition cooling : BreathAnalyzer.t float :=
  (BreathAnalyzer.run blowing blowing_result [falling; Scenario.quiet 4000001]).1.
Definition cooling_result : BreathResult float :=
  (BreathAnalyzer.run blowing blowing_result [falling; Scenario.quiet 4000001]).2.

(** In the middle of a warm-up of three windows. *)
Definition warming : BreathAnalyzer.t float :=
  (BreathAnalyzer.run (BreathAnalyzer.init (Scenario.breath_cfg 3 400000))
     BreathAnalyzer.default_result [Scenario.quiet 1]).1.

End BreathScenario.

(** ** Proofs: the ring transport *)

Module SpscProofs.
Import Spsc.
Section Ring.
Context {T : Type} `{!Inhabited T}.
Variable k : nat.
Hypothesis Hk : (k < 64)%nat.

Local Abbreviation N := (Spsc.N k).

Lemma N_pos : 0 < N.
Proof. unfold Spsc.N. apply Z.pow_pos_nonneg; lia. Qed.

Lemma N_le : N <= 2 ^ 63.
Proof. unfold Spsc.N. apply Z.pow_le_mono_r; lia. Qed.

Lemma mask_mod (x : Z) : 0 <= x < 2 ^ 64 → mask k x = x mod N.
Proof.
  intros Hx. unfold mask, wrap64. rewrite Z.mod_small by lia.
  replace (N - 1) with (Z.ones (Z.of_nat k)).
  - apply Z.land_ones. lia.
  - rewrite Z.ones_equiv. unfold Spsc.N. lia.
Qed.

Lemma mod_wrap (a : Z) : 0 <= a < 2 * N →
  a mod N = if a <? N then a else a - N.
Proof.
  intros Ha. destruct (Z.ltb_spec a N).
  - apply Z.mod_small. lia.
  - replace a with ((a - N) + 1 * N) at 1 by lia.
    rewrite Z.mod_add by lia. apply Z.mod_small. lia.
Qed.

Lemma succ_in_range (t : Z) : 0 <= (t + 1) mod N < N.
Proof. apply Z.mod_pos_bound, N_pos. Qed.

Lemma slice_length (buf : list T) (t : Z) (len : nat) :
  length (slice k buf t len) = len.
Proof.
  revert t. induction len as [|len IH]; intros t; simpl; [done|]. by rewrite IH.
Qed.

Lemma slice_snoc (buf : list T) (t : Z) (len : nat) :
  0 <= t < N →
  slice k buf t (S len)
  = slice k buf t len ++ [buf !!! Z.to_nat ((t + Z.of_nat len) mod N)].
Proof.
  revert t. induction len as [|len IH]; intros t Ht.
  - simpl. rewrite Z.add_0_r, Z.mod_small by lia. done.
  - change (slice k buf t (S (S len)))
      with (buf !!! Z.to_nat t :: slice k buf ((t + 1) mod N) (S len)).
    rewrite IH by apply succ_in_range.
    simpl. do 4 f_equal.
    rewrite Zplus_mod_idemp_l. do 2 f_equal. lia.
Qed.

Lemma slice_insert (buf : list T) (t : Z) (len : nat) (h : Z) (v : T) :
  0 <= t < N → Z.of_nat len < N → h = (t + Z.of_nat len) mod N →
  slice k (<[Z.to_nat h := v]> buf) t len = slice k buf t len.
Proof.
  revert t. induction len as [|len IH]; intros t Ht Hlen Hh; simpl; [done|].
  f_equal.
  - apply list_lookup_total_insert_ne.
    subst h. rewrite mod_wrap by lia.
    destruct (Z.ltb_spec (t + Z.of_nat (S len)) N); lia.
  - apply IH; [apply succ_in_range | lia |].
    subst h. rewrite Zplus_mod_idemp_l. f_equal. lia.
Qed.

Lemma occupancy_bound (r : SpscRing T) : (occupancy k r < Z.to_nat N)%nat.
Proof.
  unfold occupancy. pose proof (Z.mod_pos_bound (head_ r - tail_ r) N N_pos). lia.
Qed.

Lemma contents_length (r : SpscRing T) : length (contents k r) = occupancy k r.
Proof. apply slice_length. Qed.

Lemma empty_ok : ring_ok k (empty k (T:=T)).
Proof.
  pose proof N_pos. unfold ring_ok, empty; simpl.
  rewrite length_replicate. lia.
Qed.

Lemma empty_contents : contents k (empty k (T:=T)) = [].
Proof.
  unfold contents, occupancy, empty; simpl. done.
Qed.

Lemma mod_succ (h : Z) : 0 <= h < N →
  (h + 1) mod N = if h + 1 <? N then h + 1 else 0.
Proof.
  intros Hh. rewrite mod_wrap by lia. destruct (Z.ltb_spec (h + 1) N); lia.
Qed.

Lemma mod_diff (h t : Z) : 0 <= h < N → 0 <= t < N →
  (h - t) mod N = if t <=? h then h - t else h - t + N.
Proof.
  intros Hh Ht. destruct (Z.leb_spec t h).
  - apply Z.mod_small. lia.
  - rewrite <- (Z.mod_add (h - t) 1 N) by lia. rewrite Z.mul_1_l.
    apply Z.mod_small. lia.
Qed.

Ltac mod_norm :=
  repeat first
    [ rewrite mod_succ by lia
    | rewrite mod_diff by lia
    | rewrite mod_wrap by lia
    | match goal with
      | |- context [?a <? ?b] => destruct (Z.ltb_spec a b); cbv iota
      | |- context [?a <=? ?b] => destruct (Z.leb_spec a b); cbv iota
      | |- context [?a =? ?b] => destruct (Z.eqb_spec a b); cbv iota
      end ];
  try lia.

(** One [push_overwrite]: the unread elements gain [v] at the end and
    lose their oldest when the ring was full, which is when the call
    returns [false]. *)
Lemma push_overwrite_spec (r : SpscRing T) (v : T) :
  ring_ok k r →
  ring_ok k (push_overwrite k r v).2 ∧
  contents k (push_overwrite k r v).2
    = lastn (Z.to_nat N - 1) (contents k r ++ [v]) ∧
  (push_overwrite k r v).1 = bool_decide (occupancy k r < Z.to_nat N - 1)%nat.
Proof.
  pose proof N_pos as Hpos. pose proof N_le as Hle.
  destruct r as [buf h t]. unfold ring_ok; simpl. intros (Hlen & Hh & Ht).
  unfold push_overwrite, contents, occupancy, lastn; simpl.
  rewrite !mask_mod by lia.
  pose proof (succ_in_range h) as Hh'. pose proof (succ_in_range t) as Ht'.
  rewrite length_insert, length_app, slice_length. simpl.
  set (len := Z.to_nat ((h - t) mod N)).
  assert (Hlenb : (len < Z.to_nat N)%nat)
    by (subst len; pose proof (Z.mod_pos_bound (h - t) N Hpos); lia).
  destruct (Z.eqb_spec ((h + 1) mod N) t) as [Hfull|Hfree]; simpl.
  - (* full: the oldest element is dropped *)
    assert (Hl : len = (Z.to_nat N - 1)%nat) by (subst len; revert Hfull; mod_norm).
    split; [lia|]. split; [|rewrite bool_decide_eq_false_2; [done|lia]].
    rewrite Hfull.
    replace (Z.to_nat ((t - (t + 1) mod N) mod N)) with len
      by (rewrite Hl; mod_norm).
    replace (len + 1 - (Z.to_nat N - 1))%nat with 1%nat by lia.
    destruct len as [|m] eqn:Elen; [done|].
    rewrite (slice_snoc (<[Z.to_nat h := v]> buf)) by lia. simpl.
    rewrite drop_0. f_equal.
    + apply slice_insert; [lia | lia |].
      rewrite Zplus_mod_idemp_l. revert Hfull; mod_norm.
    + f_equal.
      replace ((((t + 1) mod N) + Z.of_nat m) mod N) with h
        by (rewrite Zplus_mod_idemp_l; revert Hfull; mod_norm).
      apply list_lookup_total_insert_eq. lia.
  - (* room left: nothing is dropped *)
    assert (Hl : (len < Z.to_nat N - 1)%nat) by (subst len; revert Hfree; mod_norm).
    split; [lia|]. split; [|rewrite bool_decide_eq_true_2; [done|lia]].
    replace (Z.to_nat (((h + 1) mod N - t) mod N)) with (S len)
      by (subst len; revert Hfree; mod_norm).
    replace (len + 1 - (Z.to_nat N - 1))%nat with 0%nat by lia.
    rewrite slice_snoc by lia. rewrite drop_0.
    f_equal.
    + apply slice_insert; [lia | lia |].
      subst len. rewrite Z2Nat.id by (apply Z.mod_pos_bound; lia).
      rewrite Zplus_mod_idemp_r. replace (t + (h - t)) with h by lia.
      rewrite Z.mod_small; lia.
    + f_equal.
      replace ((t + Z.of_nat len) mod N) with h.
      * apply list_lookup_total_insert_eq. lia.
      * subst len. rewrite Z2Nat.id by (apply Z.mod_pos_bound; lia).
        rewrite Zplus_mod_idemp_r. replace (t + (h - t)) with h by lia.
        rewrite Z.mod_small; lia.
Qed.

Lemma pop_spec (r : SpscRing T) :
  ring_ok k r →
  match contents k r with
  | [] => pop k r = (None, r)
  | x :: c =>
      (pop k r).1 = Some x ∧ contents k (pop k r).2 = c ∧ ring_ok k (pop k r).2
  end.
Proof.
  pose proof N_pos as Hpos. pose proof N_le as Hle.
  destruct r as [buf h t]. unfold ring_ok; simpl. intros (Hlen & Hh & Ht).
  unfold pop, contents, occupancy; simpl.
  destruct (Z.eqb_spec t h) as [->|Hne].
  - rewrite Z.sub_diag, Zmod_0_l. done.
  - rewrite mask_mod by lia.
    destruct (Z.to_nat ((h - t) mod N)) as [|m] eqn:Em.
    { exfalso. revert Em. mod_norm. }
    simpl. split; [done|]. split.
    + f_equal. revert Em. mod_norm.
    + pose proof (succ_in_range t). lia.
Qed.

Lemma pop_batch_spec (n : nat) (r : SpscRing T) :
  ring_ok k r →
  (pop_batch k n r).1 = take n (contents k r) ∧
  contents k (pop_batch k n r).2 = drop n (contents k r) ∧
  ring_ok k (pop_batch k n r).2.
Proof.
  revert r. induction n as [|n IH]; intros r Hok; simpl.
  - by rewrite take_0, drop_0.
  - pose proof (pop_spec r Hok) as Hpop.
    destruct (contents k r) as [|x c] eqn:Ec.
    + rewrite Hpop. simpl. by rewrite Ec.
    + destruct (pop k r) as [[y|] r'] eqn:Epop; simpl in Hpop;
        destruct Hpop as (Hy & Hc & Hok'); [|done].
      injection Hy as ->.
      destruct (IH r' Hok') as (H1 & H2 & H3).
      destruct (pop_batch k n r') as [xs r'']. simpl in *.
      by rewrite H1, H2, Hc.
Qed.

(** [drain] returns every unread element and leaves the ring empty: the
    next [pop] fails. *)
Lemma drain_spec (r : SpscRing T) :
  ring_ok k r →
  (drain k r).1 = contents k r ∧
  pop k (drain k r).2 = (None, (drain k r).2).
Proof.
  intros Hok. unfold drain.
  destruct (pop_batch_spec (Z.to_nat N) r Hok) as (H1 & H2 & H3).
  pose proof (occupancy_bound r) as Hb. rewrite <- contents_length in Hb.
  split.
  - rewrite H1. apply take_ge. lia.
  - pose proof (pop_spec _ H3) as Hpop.
    rewrite H2, drop_ge in Hpop by lia. done.
Qed.

Lemma lastn_app_lastn {A : Type} (m : nat) (a b : list A) :
  lastn m (lastn m a ++ b) = lastn m (a ++ b).
Proof.
  unfold lastn. rewrite !length_app, length_drop.
  destruct (decide (length a ≤ m)%nat) as [Hle|Hgt].
  - replace (length a - m)%nat with 0%nat by lia. rewrite drop_0.
    f_equal. lia.
  - rewrite !drop_app, drop_drop, length_drop. f_equal; f_equal; lia.
Qed.

Lemma push_all_spec (l : list T) (r : SpscRing T) :
  ring_ok k r →
  ring_ok k (push_all k l r).2 ∧
  contents k (push_all k l r).2 = lastn (Z.to_nat N - 1) (contents k r ++ l) ∧
  (push_all k l r).1
    = map (λ i, bool_decide (occupancy k r + i < Z.to_nat N - 1)%nat)
          (seq 0 (length l)).
Proof.
  revert r. induction l as [|v l IH]; intros r Hok.
  - simpl. split; [done|]. split; [|done].
    rewrite app_nil_r. unfold lastn.
    pose proof (occupancy_bound r). rewrite contents_length.
    replace (occupancy k r - (Z.to_nat N - 1))%nat with 0%nat by lia.
    by rewrite drop_0.
  - cbn [push_all length seq map].
    destruct (push_overwrite_spec r v Hok) as (Hok' & Hc & Hret).
    destruct (push_overwrite k r v) as [ok r'] eqn:Epush. simpl in Hok', Hc, Hret.
    destruct (IH r' Hok') as (H1 & H2 & H3).
    destruct (push_all k l r') as [oks r'']. simpl in H1, H2, H3. simpl.
    split; [done|]. split.
    + rewrite H2, Hc, lastn_app_lastn. by rewrite <- app_assoc.
    + f_equal; [by rewrite Hret, Nat.add_0_r|].
      rewrite H3, <- seq_shift, map_map.
      apply map_ext. intros i.
      assert (Hocc : occupancy k r' = Nat.min (occupancy k r + 1) (Z.to_nat N - 1)).
      { rewrite <- !contents_length, Hc. unfold lastn.
        rewrite length_drop, length_app. simpl.
        pose proof (occupancy_bound r). rewrite contents_length. lia. }
      rewrite Hocc. apply bool_decide_ext. lia.
Qed.

Lemma pushed_contents (l : list T) :
  ring_ok k (push_all k l (empty k)).2 ∧
  contents k (push_all k l (empty k)).2 = lastn (Z.to_nat N - 1) l.
Proof.
  destruct (push_all_spec l (empty k) empty_ok) as (H1 & H2 & _).
  by rewrite empty_contents in H2.
Qed.

(** C1 (amended): after more than [N] calls of [push_overwrite] on an
    empty ring of [N] slots, a full drain by repeated [pop] yields exactly
    the last [N - 1] pushed values, in their original order, and leaves
    the ring empty: one slot always stays free. *)
Theorem drain_after_overwrite (l : list T) :
  (Z.to_nat N < length l)%nat →
  (drain k (push_all k l (empty k)).2).1 = lastn (Z.to_nat N - 1) l ∧
  length (drain k (push_all k l (empty k)).2).1 = (Z.to_nat N - 1)%nat ∧
  pop k (drain k (push_all k l (empty k)).2).2
    = (None, (drain k (push_all k l (empty k)).2).2).
Proof.
  intros Hlong. destruct (pushed_contents l) as (Hok & Hc).
  destruct (drain_spec _ Hok) as (Hd & Hempty).
  rewrite Hd, Hc. split; [done|]. split; [|done].
  unfold lastn. rewrite length_drop. lia.
Qed.

(** C5 (amended): [M <= N - 1] values pushed with [push_overwrite] into an
    empty ring of [N] slots and then drained ([pop_batch] with room for
    them all) come out unchanged and in order, and every push returns
    [true]: no eviction is reported. *)
Theorem no_loss_under_capacity (l : list T) (max_batch : nat) :
  (length l ≤ Z.to_nat N - 1)%nat → (length l ≤ max_batch)%nat →
  (pop_batch k max_batch (push_all k l (empty k)).2).1 = l ∧
  Forall (λ ok, ok = true) (push_all k l (empty k)).1.
Proof.
  intros Hfit Hroom.
  destruct (push_all_spec l (empty k) empty_ok) as (Hok & Hc & Hret).
  rewrite empty_contents in Hc. simpl in Hc.
  assert (Hl : lastn (Z.to_nat N - 1) l = l).
  { unfold lastn. replace (length l - (Z.to_nat N - 1))%nat with 0%nat by lia.
    apply drop_0. }
  split.
  - destruct (pop_batch_spec max_batch _ Hok) as (Hb & _).
    rewrite Hb, Hc, Hl. apply take_ge. lia.
  - rewrite Hret. apply Forall_map, Forall_forall. intros i Hi.
    apply elem_of_seq in Hi. apply bool_decide_eq_true_2.
    unfold occupancy, empty; simpl. lia.
Qed.

End Ring.

(** The hypotheses of [drain_after_overwrite] hold for a ring of four slots
    and five pushes. *)
Lemma drain_after_overwrite_witness :
  (2 < 64)%nat ∧ (Z.to_nat (N 2) < length [1; 2; 3; 4; 5]%Z)%nat ∧
  (drain 2 (push_all 2 [1; 2; 3; 4; 5] (empty (T:=Z) 2)).2).1 = [3; 4; 5].
Proof.
  split; [lia|]. split; [vm_compute; lia|].
  apply (drain_after_overwrite (T:=Z) 2 ltac:(lia) ([1; 2; 3; 4; 5] : list Z)). vm_compute. lia.
Defined.

(** C1 as stated fails: a ring of capacity 4 that received 5 values hands
    back the last 3, not the last 4. *)
Lemma overwrite_drain_loses_one_more :
  (drain 2 (push_all 2 [1; 2; 3; 4; 5] (empty (T:=Z) 2)).2).1 = [3; 4; 5] ∧
  (drain 2 (push_all 2 [1; 2; 3; 4; 5] (empty (T:=Z) 2)).2).1 ≠ lastn 4 [1; 2; 3; 4; 5].
Proof. split; [reflexivity | vm_compute; discriminate]. Qed.

Lemma no_loss_under_capacity_witness :
  (2 < 64)%nat ∧ (length [7; 8; 9]%Z ≤ Z.to_nat (N 2) - 1)%nat ∧
  (length [7; 8; 9]%Z ≤ 256)%nat ∧
  (pop_batch 2 256 (push_all 2 [7; 8; 9] (empty (T:=Z) 2)).2).1 = [7; 8; 9] ∧
  Forall (λ ok, ok = true) (push_all 2 [7; 8; 9] (empty (T:=Z) 2)).1.
Proof.
  split; [lia|]. split; [vm_compute; lia|]. split; [simpl; lia|].
  apply (no_loss_under_capacity (T:=Z) 2 ltac:(lia) ([7; 8; 9] : list Z) 256); [vm_compute|simpl]; lia.
Defined.

(** C5 as stated fails at [M = C]: the fourth push into a ring of capacity 4
    reports an eviction and the first value is lost. *)
Lemma push_at_capacity_evicts :
  (push_all 2 [1; 2; 3; 4] (empty (T:=Z) 2)).1 = [true; true; true; false] ∧
  (pop_batch 2 256 (push_all 2 [1; 2; 3; 4] (empty (T:=Z) 2)).2).1 = [2; 3; 4].
Proof. split; reflexivity. Qed.

End SpscProofs.

(** ** Proofs: Welford's update against the two-pass computation *)

Module WelfordProofs.
Import WelfordStats.

Section Exact.
(** Exact arithmetic, for any interpretation of the square root. *)
Variable sq : Q → Q.
Local Existing Instance Q_Double.
Local Instance exact : Double Q := Q_Double sq.
Local Open Scope Q_scope.

Lemma sum_snoc (xs : list Q) (x : Q) : sum (xs ++ [x]) = sum xs + x.
Proof. unfold sum. by rewrite fold_left_app. Qed.

Lemma sum_sq_dev_expand (c : Q) (xs : list Q) :
  sum_sq_dev c xs
  == sum_sq xs - 2 * c * sum xs + inject_Z (Z.of_nat (length xs)) * c * c.
Proof.
  unfold sum_sq_dev, sum_sq.
  induction xs as [|x xs IH] using rev_ind.
  - simpl. unfold sum; simpl. ring.
  - rewrite !map_app, !sum_snoc, length_app. simpl map.
    rewrite !sum_snoc. rewrite IH.
    rewrite Nat2Z.inj_add, inject_Z_plus. simpl. ring.
Qed.

(** The invariant of [push]: the count, [n * mean = Σ x] and
    [m2 = Σ x² - mean * Σ x]. *)
Lemma push_all_invariant (xs : list Q) :
  (Z.of_nat (length xs) < 2 ^ 64)%Z →
  num_samples (push_all xs) = Z.of_nat (length xs) ∧
  inject_Z (Z.of_nat (length xs)) * mean (push_all xs) == sum xs ∧
  m2 (push_all xs) == sum_sq xs - mean (push_all xs) * sum xs.
Proof.
  induction xs as [|x xs IH] using rev_ind; intros Hlen.
  - unfold push_all, sum_sq, sum; simpl. split; [done|]. split; ring.
  - rewrite length_app in Hlen |- *. simpl in Hlen |- *.
    destruct IH as (Hn & Hmean & Hm2); [lia|].
    unfold push_all in *. rewrite fold_left_app. simpl fold_left.
    set (s := fold_left push xs reset) in *.
    unfold sum_sq. rewrite map_app, !sum_snoc. simpl map. rewrite sum_snoc.
    fold (sum_sq xs).
    unfold push; simpl. rewrite Hn.
    replace (wrap64 (Z.of_nat (length xs) + 1)) with (Z.of_nat (length xs) + 1)%Z
      by (unfold wrap64; rewrite Z.mod_small; lia).
    split; [lia|].
    replace (Z.of_nat (length xs + 1)) with (Z.of_nat (length xs) + 1)%Z by lia.
    rewrite inject_Z_plus.
    assert (Hnz : ¬ inject_Z (Z.of_nat (length xs)) + inject_Z 1 == 0).
    { rewrite <- inject_Z_plus. change 0 with (inject_Z 0).
      rewrite inject_Z_injective. lia. }
    split.
    + rewrite <- Hmean. field. exact Hnz.
    + change (sum (map (λ x0 : Q, x0 * x0) xs)) with (sum_sq xs).
      rewrite Hm2, <- Hmean. field. exact Hnz.
Qed.

(** C3 (amended): in exact rational arithmetic the count, mean and sample
    variance that [WelfordStats] maintains incrementally equal the direct
    two-pass mean and sample variance, for every finite sequence. *)
Theorem welford_matches_two_pass (xs : list Q) :
  (Z.of_nat (length xs) < 2 ^ 64)%Z →
  num_samples (push_all xs) = Z.of_nat (length xs) ∧
  mean (push_all xs) == two_pass_mean xs ∧
  variance_sample (push_all xs) == two_pass_variance xs.
Proof.
  intros Hlen. destruct (push_all_invariant xs Hlen) as (Hn & Hmean & Hm2).
  split; [done|].
  unfold variance_sample, two_pass_variance, two_pass_mean. rewrite Hn.
  set (n := Z.of_nat (length xs)) in *. simpl.
  destruct (Z.eqb_spec n 0) as [H0|Hpos].
  - (* the empty sequence *)
    rewrite H0 in *. simpl.
    assert (xs = []) as -> by (destruct xs; [done | simpl in *; lia]).
    unfold push_all, sum; simpl. split; reflexivity.
  - assert (Hnz : ¬ inject_Z n == 0).
    { change 0 with (inject_Z 0). rewrite inject_Z_injective. lia. }
    assert (Hm : mean (push_all xs) == sum xs / inject_Z n).
    { rewrite <- Hmean. field. exact Hnz. }
    split; [exact Hm|].
    destruct (Z.ltb_spec 1 n) as [Hgt|Hle]; [|reflexivity].
    replace (wrap64 (n - 1)) with (n - 1)%Z
      by (unfold wrap64; rewrite Z.mod_small; lia).
    rewrite sum_sq_dev_expand. fold n.
    rewrite Hm2, Hm.
    assert (Hn1 : ¬ inject_Z (n - 1) == 0).
    { change 0 with (inject_Z 0). rewrite inject_Z_injective. lia. }
    field. split; assumption.
Qed.

End Exact.

Lemma welford_matches_two_pass_witness :
  (Z.of_nat (length [2 # 1; 4 # 1; 9 # 1]) < 2 ^ 64)%Z ∧
  (mean (push_all (H:=Q_Double id) [2 # 1; 4 # 1; 9 # 1]) == 5 # 1)%Q ∧
  (variance_sample (H:=Q_Double id) (push_all (H:=Q_Double id) [2 # 1; 4 # 1; 9 # 1]) == 13 # 1)%Q.
Proof.
  split; [simpl; lia|].
  destruct (welford_matches_two_pass id [2 # 1; 4 # 1; 9 # 1])%Q as (_ & Hm & Hv);
    [simpl; lia|].
  split; [rewrite Hm | rewrite Hv]; reflexivity.
Defined.

(** C3 as stated fails in binary64.  For the two readings [1e16 + 2] and
    [1e16] (both exactly representable) the running mean [1e16 + 1] rounds
    to [1e16]: the incremental sample variance is [0], the two-pass one is
    [4] (the exact value is [2]).  They are not within a relative tolerance
    of [2 ^ -29] (about [1.9e-9]) of each other, let alone [1e-9]. *)
Lemma welford_binary64_disagrees :
  variance_sample (push_all [10000000000000002; 10000000000000000]%float)
    = 0%float ∧
  two_pass_variance [10000000000000002; 10000000000000000]%float = 4%float ∧
  rel_close 0x1p-29%float
    (variance_sample (push_all [10000000000000002; 10000000000000000]%float))
    (two_pass_variance [10000000000000002; 10000000000000000]%float) = false.
Proof. repeat split; vm_compute; reflexivity. Qed.

(** The same at the scale of the sensor: for six readings at 4 V and one
    single-precision step above it, the two variances are not within
    [1.25 * 2 ^ -30] (about [1.16e-9]) of each other. *)
Lemma welford_binary64_disagrees_at_4V :
  rel_close 0x1.4p-30%float
    (variance_sample (push_all [4; 4; 4; 4; 0x1.000002p+2; 0x1.000002p+2]%float))
    (two_pass_variance [4; 4; 4; 4; 0x1.000002p+2; 0x1.000002p+2]%float)
  = false.
Proof. vm_compute. reflexivity. Qed.

End WelfordProofs.

(** ** Proofs: the window analyzer *)

Module WelfordAnalyzerProofs.
Import WelfordAnalyzer.

Section Windows.
Context `{Double D}.

Lemma wrap64_small (z : Z) : 0 <= z < 2 ^ 64 → wrap64 z = z.
Proof. intros Hz. unfold wrap64. by apply Z.mod_small. Qed.

(** [FinalizeWindow] reports the open window, one [window_micro] long, and
    touches neither the configuration nor the window start. *)
Lemma FinalizeWindow_frame (a : t D) :
  bounds (result (FinalizeWindow a).1)
    = (window_start_micro_sec a,
       wrap64 (window_start_micro_sec a + window_micro (cfg a))) ∧
  cfg (FinalizeWindow a).2 = cfg a ∧
  window_start_micro_sec (FinalizeWindow a).2 = window_start_micro_sec a.
Proof.
  unfold FinalizeWindow, bounds.
  destruct (WelfordStats.num_samples (WfS a) <? min_window_sample_size (cfg a));
    simpl; done.
Qed.

(** The loop of [AnalyzeSample] closes the [n] windows that lie between
    the window start [s] and the timestamp: those of the grid
    [s, s + W, s + 2 W, ...]. *)
Lemma finalize_loop_grid (n : nat) :
  ∀ (fuel : nat) (t_micro : Z) (a : t D) out log,
    let W := window_micro (cfg a) in
    let s := window_start_micro_sec a in
    0 < W → 0 <= s →
    s + Z.of_nat n * W <= t_micro < s + (Z.of_nat n + 1) * W →
    t_micro < 2 ^ 64 → (n ≤ fuel)%nat →
    ∃ out' a' ws,
      finalize_loop fuel t_micro a out log = Some (out', a', log ++ ws) ∧
      map bounds ws = grid s W n ∧
      window_start_micro_sec a' = s + Z.of_nat n * W ∧
      cfg a' = cfg a ∧
      (n = 0%nat → a' = a ∧ out' = out) ∧
      (n ≠ 0%nat → WfS a' = WelfordStats.reset ∧ last ws = Some (result out')).
Proof.
  induction n as [|n IH]; intros fuel t_micro a out log W s HW Hs Ht Hlt Hfuel.
  - exists out, a, []. rewrite app_nil_r.
    assert (Hexit : (W <=? wrap64 (t_micro - s)) = false).
    { rewrite wrap64_small by lia. apply Z.leb_gt. lia. }
    destruct fuel; simpl; fold W s; rewrite Hexit;
      (split; [done|]); (split; [done|]); (split; [lia|]); done.
  - destruct fuel as [|fuel]; [lia|].
    assert (Hgo : (W <=? wrap64 (t_micro - s)) = true).
    { rewrite wrap64_small by lia. apply Z.leb_le. nia. }
    cbn [finalize_loop]. fold W s. rewrite Hgo.
    destruct (FinalizeWindow_frame a) as (Hb & Hcfg & Hstart).
    destruct (FinalizeWindow a) as [out1 a1]. simpl in Hb, Hcfg, Hstart.
    set (a2 := {| cfg := cfg a1; WfS := WelfordStats.reset;
                  stable_window_count := stable_window_count a1;
                  window_start_micro_sec :=
                    wrap64 (window_start_micro_sec a1 + window_micro (cfg a1));
                  window_end_micro_sec := window_end_micro_sec a1;
                  prev_window_mean := prev_window_mean a1 |}).
    assert (Hs2 : window_start_micro_sec a2 = s + W).
    { simpl. rewrite Hstart, Hcfg. fold W s. apply wrap64_small. nia. }
    assert (Hc2 : cfg a2 = cfg a) by (simpl; done).
    destruct (IH fuel t_micro a2 out1 (log ++ [result out1]))
      as (out' & a' & ws & Hrun & Hgrid & Hst & Hcf & Hz & Hnz).
    { rewrite Hc2. fold W. lia. }
    { rewrite Hs2. lia. }
    { rewrite Hc2, Hs2. fold W. lia. }
    { lia. }
    { lia. }
    rewrite Hc2, Hs2 in *. fold W in Hgrid, Hst.
    exists out', a', (result out1 :: ws).
    split; [by rewrite Hrun, <- app_assoc|].
    split.
    { cbn [map grid]. rewrite Hgrid. f_equal. rewrite Hb.
      fold W s. f_equal. apply wrap64_small. nia. }
    split; [lia|]. split; [congruence|]. split; [done|].
    intros _. destruct n as [|n'].
    + destruct Hz as [-> ->]; [done|]. assert (ws = []) as ->
        by (destruct ws; [done | discriminate Hgrid]).
      done.
    + destruct Hnz as [Hr Hl]; [done|]. split; [done|].
      destruct ws as [|w0 ws']; [discriminate Hgrid|].
      rewrite <- Hl. done.
Qed.

(** *** Termination of the loop

    Each pass moves the window start one [window_micro] closer to the
    timestamp (as [uint64_t] differences), so the loop ends whenever
    [window_micro] is positive, and more fuel changes nothing. *)

Lemma finalize_loop_mono (fuel : nat) :
  ∀ (fuel' : nat) (t_micro : Z) (a : t D) out log res,
    finalize_loop fuel t_micro a out log = Some res → (fuel ≤ fuel')%nat →
    finalize_loop fuel' t_micro a out log = Some res.
Proof.
  induction fuel as [|fuel IH]; intros fuel' t_micro a out log res Hrun Hle.
  - destruct fuel'; simpl in *;
      destruct (window_micro (cfg a) <=? wrap64 (t_micro - window_start_micro_sec a));
      done.
  - destruct fuel' as [|fuel']; [lia|]. simpl in *.
    destruct (window_micro (cfg a) <=? wrap64 (t_micro - window_start_micro_sec a));
      [|done].
    destruct (FinalizeWindow a) as [out1 a1]. eapply IH; [exact Hrun | lia].
Qed.

Lemma wrap64_step (t_micro s W : Z) :
  W <= wrap64 (t_micro - s) →  0 < W →
  wrap64 (t_micro - wrap64 (s + W)) = wrap64 (t_micro - s) - W.
Proof.
  unfold wrap64. intros Hge HW.
  pose proof (Z.mod_pos_bound (t_micro - s) (2 ^ 64) ltac:(lia)) as Hb.
  rewrite Zminus_mod_idemp_r.
  replace (t_micro - (s + W)) with (t_micro - s - W) by lia.
  rewrite <- Zminus_mod_idemp_l. apply Z.mod_small. lia.
Qed.

Lemma finalize_loop_total (n : nat) :
  ∀ (fuel : nat) (t_micro : Z) (a : t D) out log,
    0 < window_micro (cfg a) →
    wrap64 (t_micro - window_start_micro_sec a)
      < (Z.of_nat n + 1) * window_micro (cfg a) →
    (n ≤ fuel)%nat →
    ∃ out' a' log',
      finalize_loop fuel t_micro a out log = Some (out', a', log') ∧
      cfg a' = cfg a.
Proof.
  induction n as [|n IH]; intros fuel t_micro a out log HW Hd Hfuel.
  - exists out, a, log.
    destruct fuel; simpl;
      (destruct (Z.leb_spec (window_micro (cfg a))
                   (wrap64 (t_micro - window_start_micro_sec a))); [lia|done]).
  - destruct (Z.leb_spec (window_micro (cfg a))
                (wrap64 (t_micro - window_start_micro_sec a))) as [Hgo|Hexit].
    + destruct fuel as [|fuel]; [lia|]. cbn [finalize_loop].
      apply Z.leb_le in Hgo as Hgo'. rewrite Hgo'.
      destruct (FinalizeWindow_frame a) as (_ & Hcfg & Hstart).
      destruct (FinalizeWindow a) as [out1 a1]. simpl in Hcfg, Hstart.
      set (a2 := {| cfg := cfg a1; WfS := WelfordStats.reset;
                    stable_window_count := stable_window_count a1;
                    window_start_micro_sec :=
                      wrap64 (window_start_micro_sec a1 + window_micro (cfg a1));
                    window_end_micro_sec := window_end_micro_sec a1;
                    prev_window_mean := prev_window_mean a1 |}).
      destruct (IH fuel t_micro a2 out1 (log ++ [result out1]))
        as (out' & a' & log' & Hrun & Hc).
      { simpl. rewrite Hcfg. done. }
      { simpl. rewrite Hcfg, Hstart, wrap64_step by lia. lia. }
      { lia. }
      exists out', a', log'. split; [done|]. simpl in Hc. congruence.
    + exists out, a, log.
      destruct fuel; simpl; apply Z.leb_gt in Hexit; rewrite Hexit; done.
Qed.

(** [AnalyzeSample] returns, for every analyzer with a positive window
    duration and every sample, once the fuel covers the windows to close. *)
Lemma AnalyzeSample_total (a : t D) (t_micro : Z) (v : D) :
  0 < window_micro (cfg a) →
  ∃ fuel0 out a' log,
    cfg a' = cfg a ∧
    ∀ fuel, (fuel0 ≤ fuel)%nat →
            AnalyzeSample fuel a t_micro v = Some (out, a', log).
Proof.
  intros HW. unfold AnalyzeSample.
  set (a1 := if window_start_micro_sec a =? 0 then _ else a).
  assert (Hc1 : cfg a1 = cfg a) by (subst a1; destruct (_ =? _); done).
  set (d := wrap64 (t_micro - window_start_micro_sec a1)).
  assert (Hd : 0 <= d) by (apply Z.mod_pos_bound; lia).
  set (n := Z.to_nat (d / window_micro (cfg a))).
  destruct (finalize_loop_total n n t_micro a1 default_step [])
    as (out & a2 & log & Hrun & Hc2); rewrite ?Hc1; try lia.
  { fold d. subst n. rewrite Z2Nat.id by (apply Z.div_pos; lia).
    pose proof (Z.mul_succ_div_gt d (window_micro (cfg a)) HW). lia. }
  eexists n, out, _, log. split; [|intros fuel Hfuel].
  2:{ rewrite (finalize_loop_mono n fuel _ _ _ _ _ Hrun Hfuel). reflexivity. }
  simpl. congruence.
Qed.

Lemma AnalyzeBatch_loop_total (Samples : list (Sample D)) (get_value : Sample D → D) :
  ∀ (a : t D) (last_finalized : StepResult (WindowResult.t D)),
    0 < window_micro (cfg a) →
    ∃ fuel0 step a',
      ∀ fuel, (fuel0 ≤ fuel)%nat →
              AnalyzeBatch_loop fuel a Samples get_value last_finalized
              = Some (step, a').
Proof.
  induction Samples as [|s rest IH]; intros a last_finalized HW.
  - exists 0%nat, last_finalized, a. done.
  - destruct (AnalyzeSample_total a (t_us s) (get_value s) HW)
      as (fuel1 & step & a1 & log & Hc & Hsample).
    destruct (IH a1 last_finalized) as (fuel2 & step2 & a2 & Hrest2);
      [rewrite Hc; done|].
    destruct (IH a1 step) as (fuel3 & step3 & a3 & Hrest3); [rewrite Hc; done|].
    exists (fuel1 `max` (fuel2 `max` fuel3))%nat.
    destruct (WindowResult.window_end_us (result step) =? 0) eqn:E0;
      [|destruct (WindowResult.stable (result step)) eqn:Es].
    + exists step2, a2. intros fuel Hfuel. cbn [AnalyzeBatch_loop].
      rewrite Hsample by lia. rewrite E0. apply Hrest2. lia.
    + exists step, a1. intros fuel Hfuel. cbn [AnalyzeBatch_loop].
      rewrite Hsample by lia. rewrite E0, Es. done.
    + exists step3, a3. intros fuel Hfuel. cbn [AnalyzeBatch_loop].
      rewrite Hsample by lia. rewrite E0, Es. apply Hrest3. lia.
Qed.

(** A sample at [t_micro], [n] windows after the open one. *)
Lemma AnalyzeSample_open (n fuel : nat) (a : t D) (t_micro : Z) (v : D) :
  let W := window_micro (cfg a) in
  let s := window_start_micro_sec a in
  0 < W → 0 < s →
  s + Z.of_nat n * W <= t_micro < s + (Z.of_nat n + 1) * W →
  t_micro < 2 ^ 64 → (n ≤ fuel)%nat →
  ∃ out a' ws,
    AnalyzeSample fuel a t_micro v = Some (out, a', ws) ∧
    map bounds ws = grid s W n ∧
    window_start_micro_sec a' = s + Z.of_nat n * W ∧
    cfg a' = cfg a ∧
    (n ≠ 0%nat → WelfordStats.num_samples (WfS a') = 1).
Proof.
  intros W s HW Hs Ht Hlt Hfuel. unfold AnalyzeSample.
  destruct (Z.eqb_spec (window_start_micro_sec a) 0) as [H0|_]; [fold s in H0; lia|].
  destruct (finalize_loop_grid n fuel t_micro a default_step [])
    as (out & a' & ws & Hrun & Hgrid & Hst & Hcf & _ & Hnz); try done; [lia|].
  rewrite Hrun. simpl. eexists _, _, _. split; [reflexivity|]. simpl.
  split; [done|]. split; [done|]. split; [done|].
  intros Hn. destruct (Hnz Hn) as [-> _]. done.
Qed.

(** The first sample of a fresh analyzer opens the window at its own
    timestamp, unless that timestamp is [0]. *)
Lemma AnalyzeSample_fresh (fuel : nat) (a : t D) (t_micro : Z) (v : D) :
  window_start_micro_sec a = 0 → 0 < window_micro (cfg a) →
  0 < t_micro < 2 ^ 64 →
  ∃ out a',
    AnalyzeSample fuel a t_micro v = Some (out, a', []) ∧
    window_start_micro_sec a' = t_micro ∧ cfg a' = cfg a.
Proof.
  intros H0 HW Ht. unfold AnalyzeSample. rewrite H0. simpl.
  set (a1 := mk _ _ _ _ _ _).
  destruct (finalize_loop_grid 0 fuel t_micro a1 default_step [])
    as (out & a' & ws & Hrun & Hgrid & Hst & Hcf & Hz & _);
    try (simpl; lia).
  destruct ws; [|discriminate Hgrid].
  rewrite Hrun. simpl. eexists _, _. split; [reflexivity|]. simpl.
  destruct Hz as [-> _]; done.
Qed.

(** Samples inside the open window close nothing. *)
Lemma feed_in_window (fuel : nat) (samples : list (Z * D)) :
  ∀ a : t D,
    let W := window_micro (cfg a) in
    let s := window_start_micro_sec a in
    0 < W → 0 < s → s + W <= 2 ^ 64 →
    Forall (λ x, s <= x.1 < s + W) samples →
    ∃ a', feed fuel a samples = Some (a', []) ∧
          window_start_micro_sec a' = s ∧ cfg a' = cfg a.
Proof.
  induction samples as [|[t_micro v] rest IH]; intros a W s HW Hs Hmax Hall.
  - exists a. done.
  - apply Forall_cons in Hall as [Ht Hall]. simpl in Ht.
    destruct (AnalyzeSample_open 0 fuel a t_micro v)
      as (out & a1 & ws & Hrun & Hgrid & Hst & Hcf & _);
      fold W s; try lia.
    destruct ws; [|discriminate Hgrid].
    fold W s in Hst. rewrite Z.mul_0_l, Z.add_0_r in Hst.
    destruct (IH a1) as (a' & Hfeed & Hst' & Hcf');
      rewrite ?Hst, ?Hcf; fold W s; try done.
    cbn [feed]. rewrite Hrun, Hfeed. exists a'. simpl.
    split; [done|]. split; congruence.
Qed.

(** C2 (amended): at a window duration of one second, with the first
    sample at a timestamp [t0] other than [0] (which the analyzer reads as
    "no window open"): samples with timestamps in [t0, t0 + 999_999]
    finalize no window; a sample at [t0 + 1_000_000] then finalizes exactly
    one window, from [t0] to [t0 + 1_000_000]; and a gap up to
    [t0 + 3_500_000] finalizes exactly three windows, starting at [t0],
    [t0 + 1_000_000] and [t0 + 2_000_000], before the new sample is
    accepted as the first one of the fourth window. *)
Theorem window_grid_alignment (cfg0 : Analyzer_Config D) (t0 : Z) (v0 v : D)
    (rest : list (Z * D)) (fuel : nat) :
  window_micro cfg0 = 1000000 → 0 < t0 → t0 + 3500000 < 2 ^ 64 →
  Forall (λ x, t0 <= x.1 <= t0 + 999999) rest → (3 ≤ fuel)%nat →
  ∃ a,
    feed fuel (init cfg0) ((t0, v0) :: rest) = Some (a, []) ∧
    (∃ out a' w1,
       AnalyzeSample fuel a (t0 + 1000000) v = Some (out, a', [w1]) ∧
       bounds w1 = (t0, t0 + 1000000)) ∧
    (∃ out a' w1 w2 w3,
       AnalyzeSample fuel a (t0 + 3500000) v = Some (out, a', [w1; w2; w3]) ∧
       bounds w1 = (t0, t0 + 1000000) ∧
       bounds w2 = (t0 + 1000000, t0 + 2000000) ∧
       bounds w3 = (t0 + 2000000, t0 + 3000000) ∧
       window_start_micro_sec a' = t0 + 3000000 ∧
       WelfordStats.num_samples (WfS a') = 1).
Proof.
  intros HW Ht0 Hmax Hrest Hfuel.
  destruct (AnalyzeSample_fresh fuel (init cfg0) t0 v0)
    as (out0 & a0 & Hfirst & Hs0 & Hc0); simpl; try lia.
  simpl in Hc0.
  destruct (feed_in_window fuel rest a0) as (a & Hfeed & Hs & Hc);
    rewrite ?Hs0, ?Hc0, ?HW; try lia.
  { eapply Forall_impl; [exact Hrest|]. simpl. intros; lia. }
  rewrite Hs0 in Hs. rewrite Hc0 in Hc.
  exists a. split.
  { cbn [feed]. rewrite Hfirst, Hfeed. done. }
  split.
  - destruct (AnalyzeSample_open 1 fuel a (t0 + 1000000) v)
      as (out & a' & ws & Hrun & Hgrid & _);
      rewrite ?Hs, ?Hc, ?HW; try lia.
    rewrite Hs, Hc, HW in Hgrid. simpl in Hgrid.
    destruct ws as [|w1 [|? ?]]; try discriminate Hgrid.
    cbn [map] in Hgrid.
    exists out, a', w1. split; [done | congruence].
  - destruct (AnalyzeSample_open 3 fuel a (t0 + 3500000) v)
      as (out & a' & ws & Hrun & Hgrid & Hst & _ & Hn);
      rewrite ?Hs, ?Hc, ?HW; try lia.
    rewrite Hs, Hc, HW in Hgrid, Hst. simpl in Hgrid.
    destruct ws as [|w1 [|w2 [|w3 [|? ?]]]]; try discriminate Hgrid.
    cbn [map] in Hgrid.
    replace (t0 + 1000000 + 1000000) with (t0 + 2000000) in Hgrid by lia.
    replace (t0 + 2000000 + 1000000) with (t0 + 3000000) in Hgrid by lia.
    exists out, a', w1, w2, w3. split; [done|].
    repeat (split; [congruence|]).
    split; [lia|]. by apply Hn.
Qed.

(** C6 (amended): [FinalizeWindow] stores the mean of the window it
    finalizes in [prev_window_mean] when the window holds at least
    [min_window_sample_size] samples; a window with fewer samples is
    reported through the early return, which leaves [prev_window_mean] as
    it was. *)
Theorem FinalizeWindow_prev_window_mean (a : t D) :
  prev_window_mean (FinalizeWindow a).2
  = if WelfordStats.num_samples (WfS a) <? min_window_sample_size (cfg a)
    then prev_window_mean a
    else Some (WindowResult.mean (result (FinalizeWindow a).1)).
Proof.
  unfold FinalizeWindow.
  destruct (WelfordStats.num_samples (WfS a) <? min_window_sample_size (cfg a));
    reflexivity.
Qed.

End Windows.

Lemma window_grid_alignment_witness :
  window_micro (Config.analyzer_cfg (D:=float)) = 1000000 ∧ 0 < 1 ∧
  1 + 3500000 < 2 ^ 64 ∧
  Forall (λ x : Z * float, 1 <= x.1 <= 1 + 999999)
    [(500000, 1%float); (1000000, 1%float)] ∧
  (3 ≤ 3)%nat ∧
  ∃ a,
    feed 3 (init Config.analyzer_cfg)
      ((1, 1%float) :: [(500000, 1%float); (1000000, 1%float)]) = Some (a, []) ∧
    (∃ out a' w1,
       AnalyzeSample 3 a (1 + 1000000) 1%float = Some (out, a', [w1]) ∧
       bounds w1 = (1, 1 + 1000000)) ∧
    (∃ out a' w1 w2 w3,
       AnalyzeSample 3 a (1 + 3500000) 1%float = Some (out, a', [w1; w2; w3]) ∧
       bounds w1 = (1, 1 + 1000000) ∧
       bounds w2 = (1 + 1000000, 1 + 2000000) ∧
       bounds w3 = (1 + 2000000, 1 + 3000000) ∧
       window_start_micro_sec a' = 1 + 3000000 ∧
       WelfordStats.num_samples (WfS a') = 1).
Proof.
  split; [reflexivity|]. split; [lia|]. split; [lia|].
  split; [repeat constructor; simpl; lia|]. split; [lia|].
  apply (window_grid_alignment Config.analyzer_cfg 1 1%float 1%float
           [(500000, 1%float); (1000000, 1%float)] 3);
    [reflexivity | lia | lia | repeat constructor; simpl; lia | lia].
Defined.

(** C2 as stated fails: timestamp [0] does not open a window.  After a
    sample at [t = 0], neither a sample at [t = 1_000_000] (with or without
    others up to [999_999] in between) nor one at [t = 3_500_000] finalizes
    any window: the first sample with a timestamp other than [0] becomes the
    window start. *)
Lemma window_grid_origin_zero :
  snd <$> feed 4 (init (D:=float) Config.analyzer_cfg)
            [(0, 1%float); (1000000, 1%float)] = Some [] ∧
  snd <$> feed 4 (init (D:=float) Config.analyzer_cfg)
            [(0, 1%float); (500000, 1%float); (999999, 1%float);
             (1000000, 1%float)] = Some [] ∧
  snd <$> feed 4 (init (D:=float) Config.analyzer_cfg)
            [(0, 1%float); (3500000, 1%float)] = Some [].
Proof. repeat split; vm_compute; reflexivity. Qed.

(** C6 as stated fails: a window closed with one sample (fewer than the 80
    required) has mean [2], and [prev_window_mean] stays unset. *)
Lemma undersampled_window_keeps_prev_mean :
  ∃ out a w,
    AnalyzeSample 1 (init (D:=float) Config.analyzer_cfg) 1 2%float
      ≫= (λ r, AnalyzeSample 1 r.1.2 1000001 1%float) = Some (out, a, [w]) ∧
    WindowResult.mean w = 2%float ∧
    prev_window_mean a = None ∧
    prev_window_mean a ≠ Some (WindowResult.mean w).
Proof.
  eexists _, _, _. split; [vm_compute; reflexivity|].
  split; [reflexivity|]. split; [reflexivity | discriminate].
Qed.

End WelfordAnalyzerProofs.

(** ** Proofs: the order of [double] *)

Module DoubleOrderProofs.

(** The comparisons of binary64, as the kernel specifies them
    ([SFcompare]): every value but the NaN is [<=] itself, and on these
    values [<=] is a total preorder with [<] as its strict part. *)
Lemma SFleb_refl_number (x : SpecFloat.spec_float) :
  SpecFloat.SFleb x x = true ↔ x ≠ SpecFloat.S754_nan.
Proof.
  destruct x as [s|s| |s m e]; unfold SpecFloat.SFleb; simpl.
  - done.
  - destruct s; done.
  - split; [discriminate|congruence].
  - rewrite Z.compare_refl.
    change (Pos.compare_cont Eq m m) with (Pos.compare m m).
    rewrite Pos.compare_refl. destruct s; done.
Qed.

Ltac sf_compare :=
  change (Pos.compare_cont Eq ?a ?b) with (Pos.compare a b) in *;
  repeat match goal with
  | |- context [Z.compare ?a ?b] => destruct (Z.compare_spec a b)
  | H : context [Z.compare ?a ?b] |- _ => destruct (Z.compare_spec a b)
  | |- context [Pos.compare ?a ?b] => destruct (Pos.compare_spec a b)
  | H : context [Pos.compare ?a ?b] |- _ => destruct (Pos.compare_spec a b)
  end.

Lemma SFleb_total (x y : SpecFloat.spec_float) :
  x ≠ SpecFloat.S754_nan → y ≠ SpecFloat.S754_nan →
  SpecFloat.SFleb x y = true ∨ SpecFloat.SFleb y x = true.
Proof.
  intros Hx Hy. unfold SpecFloat.SFleb.
  destruct x as [sx|sx| |sx mx ex], y as [sy|sy| |sy my ey]; try done;
    simpl; try (destruct sx); try (destruct sy); auto;
    sf_compare; simpl; auto; subst; lia.
Qed.

Lemma SFltb_leb (x y : SpecFloat.spec_float) :
  x ≠ SpecFloat.S754_nan → y ≠ SpecFloat.S754_nan →
  SpecFloat.SFltb x y = negb (SpecFloat.SFleb y x).
Proof.
  intros Hx Hy. unfold SpecFloat.SFleb, SpecFloat.SFltb.
  destruct x as [sx|sx| |sx mx ex], y as [sy|sy| |sy my ey]; try done;
    simpl; try (destruct sx); try (destruct sy); auto;
    sf_compare; simpl; auto; subst; lia.
Qed.

Lemma SFleb_trans (x y z : SpecFloat.spec_float) :
  SpecFloat.SFleb x y = true → SpecFloat.SFleb y z = true →
  SpecFloat.SFleb x z = true.
Proof.
  unfold SpecFloat.SFleb.
  destruct x as [sx|sx| |sx mx ex], y as [sy|sy| |sy my ey],
           z as [sz|sz| |sz mz ez];
    simpl; try discriminate; try done;
    try (destruct sx); try (destruct sy); try (destruct sz); simpl;
    try discriminate; try done;
    intros H1 H2; sf_compare; simpl in *; try done; subst; lia.
Qed.

Lemma float_number_spec (x : float) :
  d_number x = true ↔ FloatOps.Prim2SF x ≠ SpecFloat.S754_nan.
Proof.
  unfold d_number. simpl. rewrite FloatAxioms.leb_spec.
  apply SFleb_refl_number.
Qed.

(** In binary64 the numbers are the values that are not NaN
    ([std::isnan]). *)
Lemma float_number_not_nan (x : float) :
  d_number x = negb (PrimFloat.is_nan x).
Proof.
  unfold d_number, PrimFloat.is_nan. simpl.
  rewrite FloatAxioms.leb_spec, FloatAxioms.eqb_spec, negb_involutive.
  unfold SpecFloat.SFleb, SpecFloat.SFeqb.
  destruct (FloatOps.Prim2SF x) as [s|s| |s m e]; simpl; try done.
  - destruct s; done.
  - rewrite Z.compare_refl.
    change (Pos.compare_cont Eq m m) with (Pos.compare m m).
    rewrite Pos.compare_refl. destruct s; done.
Qed.

#[global] Instance float_DoubleOrder : DoubleOrder float.
Proof.
  split.
  - intros x y Hx%float_number_spec Hy%float_number_spec. simpl.
    rewrite !FloatAxioms.leb_spec. by apply SFleb_total.
  - intros x y Hx%float_number_spec Hy%float_number_spec. simpl.
    rewrite FloatAxioms.leb_spec, FloatAxioms.ltb_spec. by apply SFltb_leb.
  - intros x y z. simpl. rewrite !FloatAxioms.leb_spec. apply SFleb_trans.
Qed.

(** In exact arithmetic every value is a number. *)
Lemma Q_number (sq : Q → Q) (x : Q) : d_number (H:=Q_Double sq) x = true.
Proof. unfold d_number. simpl. apply Qle_bool_iff, Qle_refl. Qed.

#[global] Instance Q_DoubleOrder (sq : Q → Q) : DoubleOrder Q (H:=Q_Double sq).
Proof.
  split; simpl.
  - intros x y _ _. destruct (Qlt_le_dec x y) as [Hlt|Hle].
    + left. by apply Qle_bool_iff, Qlt_le_weak.
    + right. by apply Qle_bool_iff.
  - done.
  - intros x y z Hxy%Qle_bool_iff Hyz%Qle_bool_iff.
    apply Qle_bool_iff. by eapply Qle_trans.
Qed.

(** [std::max] with a NaN on the left keeps the NaN: a NaN is less than
    nothing. *)
Lemma d_max_nan_l (x : float) : d_max PrimFloat.nan x = PrimFloat.nan.
Proof.
  unfold d_max. simpl. rewrite FloatAxioms.ltb_spec.
  replace (FloatOps.Prim2SF nan) with SpecFloat.S754_nan by (vm_compute; reflexivity).
  reflexivity.
Qed.

Section Max.
Context `{Double D} `{!DoubleOrder D}.

Lemma d_max_cases (a b : D) : d_max a b = a ∨ d_max a b = b.
Proof. unfold d_max. destruct (_ <? _)%D; auto. Qed.

Lemma d_max_number (a b : D) :
  d_number a = true → d_number b = true → d_number (d_max a b) = true.
Proof. intros Ha Hb. by destruct (d_max_cases a b) as [-> | ->]. Qed.

Lemma d_max_ge_l (a b : D) :
  d_number a = true → d_number b = true → (a <=? d_max a b)%D = true.
Proof.
  intros Ha Hb. unfold d_max. rewrite (d_ltb_leb a b Ha Hb).
  destruct (b <=? a)%D eqn:E; simpl; [exact Ha|].
  destruct (d_leb_total a b Ha Hb) as [Hab|Hba]; [done|congruence].
Qed.

Lemma d_max_ge_r (a b : D) :
  d_number a = true → d_number b = true → (b <=? d_max a b)%D = true.
Proof.
  intros Ha Hb. unfold d_max. rewrite (d_ltb_leb a b Ha Hb).
  destruct (b <=? a)%D eqn:E; simpl; [done | exact Hb].
Qed.

(** Folding [std::max] over numbers yields their maximum: one of them, and
    every one of them is [<=] it. *)
Lemma fold_max_spec (l : list D) :
  ∀ x : D,
    Forall (λ y, d_number y = true) (x :: l) →
    fold_left d_max l x ∈ x :: l ∧
    Forall (λ y, (y <=? fold_left d_max l x)%D = true) (x :: l).
Proof.
  induction l as [|y l IH]; intros x Hnum; simpl.
  - apply Forall_inv in Hnum.
    split; [apply list_elem_of_here|]. by repeat constructor.
  - apply Forall_cons in Hnum as [Hx Hnum].
    apply Forall_cons in Hnum as [Hy Hnum].
    destruct (IH (d_max x y)) as [Hin Hall].
    { constructor; [by apply d_max_number | done]. }
    split.
    + apply elem_of_cons in Hin as [Hin|Hin].
      * rewrite Hin. destruct (d_max_cases x y) as [->| ->].
        -- apply list_elem_of_here.
        -- apply list_elem_of_further, list_elem_of_here.
      * by do 2 apply list_elem_of_further.
    + apply Forall_cons in Hall as [Hm Hall].
      constructor; [|constructor; [|done]].
      * apply (d_leb_trans _ (d_max x y)); [by apply d_max_ge_l | exact Hm].
      * apply (d_leb_trans _ (d_max x y)); [by apply d_max_ge_r | exact Hm].
Qed.

End Max.

End DoubleOrderProofs.

(** ** Proofs: the breath state machine *)

Module BreathAnalyzerProofs.
Import BreathAnalyzer.

Section Machine.
Context `{Double D}.

Local Abbreviation state_after b w r := (AnalyzeBreath b w r).1.1.2.
Local Abbreviation returns b w r := (AnalyzeBreath b w r).1.1.1.
Local Abbreviation event_of b w r := (AnalyzeBreath b w r).2.

Lemma UpdateBaseline_frame (b : t D) (w : WindowResult.t D) (r : BreathResult D) :
  breath_state (UpdateBaseline b w r).1 = breath_state b ∧
  bWarmedup (UpdateBaseline b w r).1 = bWarmedup b ∧
  bcfg (UpdateBaseline b w r).1 = bcfg b ∧
  breath_start_us (UpdateBaseline b w r).1 = breath_start_us b ∧
  cur_peak_voltage (UpdateBaseline b w r).1 = cur_peak_voltage b.
Proof.
  unfold UpdateBaseline. destruct b as [c st n1 n2 u1 u2 u3 pk warm found frz].
  simpl. destruct frz; [done|].
  destruct (WindowResult.stable w); simpl; [|done].
  destruct found, warm; simpl; done.
Qed.

Lemma AnalyzeBreath_warm_inv (b : t D) (w : WindowResult.t D) (r : BreathResult D) :
  warm_inv b → warm_inv (state_after b w r).
Proof.
  unfold warm_inv, AnalyzeBreath. intros Hinv.
  destruct (WindowResult.window_end_us w =? 0); [exact Hinv|].
  destruct (bWarmedup b) eqn:Ew; simpl.
  - (* warmed up: the flag is never cleared *)
    destruct (breath_state b) eqn:Es; simpl.
    + intros Hf. congruence.
    + intros Hf. congruence.
    + destruct (UpdateBaseline_frame (set_bFreezebaseline false b) w
                  (set_last_window w r)) as (_ & Hw & _).
      destruct (UpdateBaseline _ w _) as [b1 r1]. simpl in Hw.
      unfold Ready. destruct (_ <? _)%D; simpl; congruence.
    + unfold Processing. simpl.
      destruct (negb _ && negb _); simpl; [congruence|].
      destruct (_ <? _); simpl; congruence.
    + destruct (UpdateBaseline_frame (set_bFreezebaseline false b) w
                  (set_last_window w r)) as (_ & Hw & _).
      destruct (UpdateBaseline _ w _) as [b1 r1]. simpl in Hw.
      unfold Cooldown. destruct (_ && _); simpl; [|congruence].
      destruct (_ <=? _); simpl; congruence.
    + intros Hf. congruence.
  - destruct (UpdateBaseline _ w _) as [b1 r1].
    unfold Warmup. destruct (_ && _); simpl; [discriminate|done].
Qed.

Lemma reachable_warm_inv (b_cfg : BreathAnalyzer_Config D) (b : t D) :
  reachable b_cfg b → warm_inv b.
Proof.
  induction 1 as [|b w r _ IH].
  - intros _. reflexivity.
  - by apply AnalyzeBreath_warm_inv.
Qed.

Lemma run_app (b : t D) (r : BreathResult D) (ws ws' : list (WindowResult.t D)) :
  run b r (ws ++ ws') = run (run b r ws).1 (run b r ws).2 ws'.
Proof.
  revert b r. induction ws as [|w ws IH]; intros b r; simpl; [done|].
  destruct (AnalyzeBreath b w r) as [[[ret b'] r'] ev]. apply IH.
Qed.

Lemma run_reachable (b_cfg : BreathAnalyzer_Config D) (b : t D)
    (r : BreathResult D) (ws : list (WindowResult.t D)) :
  reachable b_cfg b → reachable b_cfg (run b r ws).1.
Proof.
  revert b r. induction ws as [|w ws IH]; intros b r Hb; simpl; [done|].
  pose proof (reachable_step b_cfg b w r Hb) as Hstep.
  destruct (AnalyzeBreath b w r) as [[[ret b'] r'] ev]. by apply IH.
Qed.

(** What [Processing] decides, case by case. *)
Lemma Processing_cases (b : t D) (w : WindowResult.t D) (r : BreathResult D)
    (end_threshold : D) (ev : BreathEvent D) :
  let peak := d_max (cur_peak_voltage b) (WindowResult.mean w) in
  let elapsed := wrap64 (WindowResult.window_end_us w - breath_start_us b) in
  let exit := (WindowResult.mean w <=? end_threshold)%D
              || (max_blow_time_us (bcfg b) <=? elapsed) in
  let res := Processing b w r end_threshold ev in
  cur_peak_voltage res.1.1.2 = peak ∧
  breath_start_us res.1.1.2 = breath_start_us b ∧
  bWarmedup res.1.1.2 = bWarmedup b ∧
  bcfg res.1.1.2 = bcfg b ∧
  (exit = false →
     res.1.1.1 = false ∧ breath_state res.1.1.2 = breath_state b) ∧
  (exit = true → elapsed < min_blow_time_us (bcfg b) →
     res.1.1.1 = false ∧
     breath_state res.1.1.2 = BreathAnalyzerState.Cooldown) ∧
  (exit = true → min_blow_time_us (bcfg b) <= elapsed →
     res.1.1.1 = true ∧
     breath_state res.1.1.2 = BreathAnalyzerState.Analyzed ∧
     res.2 = {| start_us := breath_start_us b;
                end_us := WindowResult.window_end_us w;
                peak_voltage := peak;
                State := State ev |}).
Proof.
  destruct b as [c st n1 n2 u1 u2 u3 pk warm found frz].
  unfold Processing. simpl.
  destruct (WindowResult.mean w <=? end_threshold)%D; simpl;
    destruct (Z.leb_spec (max_blow_time_us c)
                (wrap64 (WindowResult.window_end_us w - u1))); simpl;
    destruct (Z.ltb_spec (wrap64 (WindowResult.window_end_us w - u1))
                (min_blow_time_us c)); simpl;
    repeat split; intros; try done; try lia.
Qed.

(** C7: in the [Processing] phase, a window that meets an exit condition
    (mean at or below the end threshold, or [max_blow_time_us] reached)
    while the time since the breath start is below [min_blow_time_us]
    makes [AnalyzeBreath] return [false] (no completed breath event) and
    takes the machine straight to [Cooldown]. *)
Theorem short_blow_rejected (b_cfg : BreathAnalyzer_Config D) (b : t D)
    (w : WindowResult.t D) (r : BreathResult D) :
  reachable b_cfg b →
  breath_state b = BreathAnalyzerState.Processing →
  finalized w →
  (WindowResult.mean w
     <=? threshold r (end_delta_v (bcfg b)) (end_k_sigma (bcfg b)))%D = true
  ∨ max_blow_time_us (bcfg b)
      <= wrap64 (WindowResult.window_end_us w - breath_start_us b) →
  wrap64 (WindowResult.window_end_us w - breath_start_us b)
    < min_blow_time_us (bcfg b) →
  returns b w r = false ∧
  breath_state (state_after b w r) = BreathAnalyzerState.Cooldown.
Proof.
  intros Hreach Hst Hfin Hexit Hshort.
  pose proof (reachable_warm_inv _ _ Hreach) as Hinv.
  assert (Hwarm : bWarmedup b = true).
  { destruct (bWarmedup b) eqn:E; [done|]. rewrite Hinv in Hst; done. }
  unfold AnalyzeBreath.
  destruct (Z.eqb_spec (WindowResult.window_end_us w) 0) as [H0|_]; [done|].
  rewrite Hwarm, Hst. simpl.
  match goal with |- context [Processing ?b1 w ?r1 ?th ?ev] =>
    destruct (Processing_cases b1 w r1 th ev) as (_ & _ & _ & _ & _ & Hrej & _)
  end.
  apply Hrej; [|exact Hshort].
  change (bcfg (set_bFreezebaseline true b)) with (bcfg b).
  change (breath_start_us (set_bFreezebaseline true b)) with (breath_start_us b).
  destruct Hexit as [Hfall|Hmax].
  - unfold threshold in *. simpl. rewrite Hfall. done.
  - apply Z.leb_le in Hmax. rewrite Hmax. apply orb_true_r.
Qed.

(** One window during the warm-up. *)
Lemma warmup_step (b : t D) (w : WindowResult.t D) (r : BreathResult D) :
  bWarmedup b = false → finalized w →
  let W := warmup_stable_windows (bcfg b) in
  let b' := state_after b w r in
  let entered := bWarmedup b' = true ∧
                 breath_state b' = BreathAnalyzerState.Ready in
  let waiting found count :=
    bWarmedup b' = false ∧ breath_state b' = BreathAnalyzerState.Warmup ∧
    bFoundbaseline b' = found ∧ baseline_stable_count b' = count in
  bcfg b' = bcfg b ∧
  if WindowResult.stable w then
    let count :=
      wrap32 ((if bFoundbaseline b then baseline_stable_count b else 1) + 1) in
    if W <=? count then entered else waiting true count
  else
    if bFoundbaseline b && (W <=? baseline_stable_count b) then entered
    else waiting (bFoundbaseline b) (baseline_stable_count b).
Proof.
  intros Hw Hfin. unfold finalized in Hfin.
  destruct b as [c st n1 n2 u1 u2 u3 pk warm found frz]. simpl in Hw. subst warm.
  unfold AnalyzeBreath, UpdateBaseline, Warmup. simpl.
  destruct (Z.eqb_spec (WindowResult.window_end_us w) 0) as [H0|_]; [done|].
  simpl. destruct (WindowResult.stable w); simpl.
  - destruct found; simpl;
      destruct (warmup_stable_windows c <=? wrap32 _); simpl; done.
  - destruct found; simpl; [|done].
    destruct (warmup_stable_windows c <=? n1); simpl; done.
Qed.

Lemma count_stable_cons (w : WindowResult.t D) (ws : list (WindowResult.t D)) :
  count_stable (w :: ws)
  = ((if WindowResult.stable w then 1 else 0) + count_stable ws)%nat.
Proof.
  unfold count_stable. destruct (WindowResult.stable w) eqn:E.
  - rewrite filter_cons_True by done. done.
  - rewrite filter_cons_False by (rewrite E; done). done.
Qed.

Lemma count_stable_app (ws ws' : list (WindowResult.t D)) :
  count_stable (ws ++ ws') = (count_stable ws + count_stable ws')%nat.
Proof. unfold count_stable. by rewrite filter_app, length_app. Qed.

Lemma wrap32_small (z : Z) : 0 <= z < 2 ^ 32 → wrap32 z = z.
Proof. intros Hz. unfold wrap32. by apply Z.mod_small. Qed.

(** While fewer stable windows have been seen than the transition needs,
    the machine stays in [Warmup] and counts one more than it has seen. *)
Lemma warmup_run (ws : list (WindowResult.t D)) :
  ∀ (b : t D) (r : BreathResult D) (k0 : nat),
    let W := warmup_stable_windows (bcfg b) in
    let k := (k0 + count_stable ws)%nat in
    W < 2 ^ 16 → Forall finalized ws → warming k0 b →
    k = 0%nat ∨ Z.of_nat k + 1 < W →
    warming k (run b r ws).1 ∧ bcfg (run b r ws).1 = bcfg b.
Proof.
  induction ws as [|w ws IH]; intros b r k0 W k HW Hfin Hinv Hk.
  - subst k. unfold count_stable. simpl. rewrite Nat.add_0_r. done.
  - apply Forall_cons in Hfin as [Hw Hfin]. subst k.
    rewrite count_stable_cons in Hk |- *.
    destruct Hinv as (Hwarm & Hst & Hcount).
    pose proof (warmup_step b w r Hwarm Hw) as Hstep. fold W in Hstep.
    cbn [run]. destruct (AnalyzeBreath b w r) as [[[ret b'] r'] ev].
    simpl in Hstep. destruct Hstep as [Hcfg Hstep].
    destruct (WindowResult.stable w).
    + (* a stable window: the count goes up *)
      assert (Hnew : wrap32 ((if bFoundbaseline b then baseline_stable_count b
                              else 1) + 1) = Z.of_nat (k0 + 1) + 1).
      { destruct k0 as [|k0']; [rewrite Hcount | destruct Hcount as [-> ->]];
          rewrite wrap32_small; lia. }
      rewrite Hnew in Hstep.
      destruct (Z.leb_spec W (Z.of_nat (k0 + 1) + 1)) as [Hle|Hgt]; [lia|].
      destruct Hstep as (Hw' & Hs' & Hf' & Hc').
      destruct (IH b' r' (k0 + 1)%nat) as [Hi Hc]; rewrite ?Hcfg; fold W;
        try done.
      * split; [done|]. split; [done|].
        replace (k0 + 1)%nat with (S k0) by lia. split; [done|].
        rewrite Hc'. f_equal. lia.
      * right. lia.
      * replace (k0 + (1 + count_stable ws))%nat
          with (k0 + 1 + count_stable ws)%nat by lia.
        split; [done | congruence].
    + (* an unstable window changes nothing *)
      assert (Hno : bFoundbaseline b && (W <=? baseline_stable_count b) = false).
      { destruct k0 as [|k0']; [by rewrite Hcount|].
        destruct Hcount as [-> ->]. simpl. apply Z.leb_gt. lia. }
      rewrite Hno in Hstep. destruct Hstep as (Hw' & Hs' & Hf' & Hc').
      destruct (IH b' r' k0) as [Hi Hc]; rewrite ?Hcfg; fold W; try done.
      * split; [done|]. split; [done|].
        destruct k0; [congruence|]. destruct Hcount. split; congruence.
      * split; [done | congruence].
Qed.

Lemma init_warming (b_cfg : BreathAnalyzer_Config D) : warming 0 (init b_cfg).
Proof. done. Qed.

(** C4: what the code does.  The baseline moves only on stable windows, but
    [UpdateBaseline] counts the first stable window twice (it sets the
    count to [1] and then increments it like any other), so the machine
    leaves [Warmup] for [Ready] on stable window number
    [max 1 (warmup_stable_windows - 1)]: one window earlier than the
    configured count whenever that count is at least [2]. *)
Theorem warmup_ready_transition (b_cfg : BreathAnalyzer_Config D)
    (r : BreathResult D) (ws : list (WindowResult.t D)) (w : WindowResult.t D) :
  0 <= warmup_stable_windows b_cfg < 2 ^ 16 →
  Forall finalized (ws ++ [w]) → WindowResult.stable w = true →
  Z.of_nat (count_stable ws) + 1 = Z.max 1 (warmup_stable_windows b_cfg - 1) →
  warming (count_stable ws) (run (init b_cfg) r ws).1 ∧
  breath_state (run (init b_cfg) r (ws ++ [w])).1 = BreathAnalyzerState.Ready ∧
  bWarmedup (run (init b_cfg) r (ws ++ [w])).1 = true.
Proof.
  intros HW Hfin Hstable Hk.
  apply Forall_app in Hfin as [Hfin Hw]. apply Forall_inv in Hw.
  destruct (warmup_run ws (init b_cfg) r 0) as [Hinv Hcfg]; simpl; try done;
    try lia.
  split; [exact Hinv|].
  rewrite run_app. cbn [run].
  destruct (run (init b_cfg) r ws) as [b1 r1]. simpl in Hinv, Hcfg |- *.
  destruct Hinv as (Hwarm & Hst & Hcount).
  pose proof (warmup_step b1 w r1 Hwarm Hw) as Hstep.
  destruct (AnalyzeBreath b1 w r1) as [[[ret b'] r'] ev]. simpl in Hstep |- *.
  destruct Hstep as [_ Hstep]. rewrite Hstable, Hcfg in Hstep.
  assert (Hnew : wrap32 ((if bFoundbaseline b1 then baseline_stable_count b1
                          else 1) + 1) = Z.of_nat (count_stable ws) + 2).
  { destruct (count_stable ws) as [|k']; [rewrite Hcount | destruct Hcount as [-> ->]];
      rewrite wrap32_small; lia. }
  rewrite Hnew in Hstep.
  destruct (Z.leb_spec (warmup_stable_windows b_cfg)
              (Z.of_nat (count_stable ws) + 2)) as [_|Hgt]; [|lia].
  destruct Hstep. done.
Qed.

(** During the warm-up the baseline follows the exponentially weighted
    moving average on stable windows (from the window's own values on the
    first one) and nothing else moves it. *)
Lemma warmup_baseline_update (b : t D) (w : WindowResult.t D) (r : BreathResult D) :
  bWarmedup b = false → finalized w →
  let alpha := baseline_alpha (bcfg b) in
  let r' := (AnalyzeBreath b w r).1.2 in
  if WindowResult.stable w then
    baseline_mean r'
      = ewma alpha (if bFoundbaseline b then baseline_mean r
                    else WindowResult.mean w) (WindowResult.mean w) ∧
    baseline_std r'
      = ewma alpha (if bFoundbaseline b then baseline_std r
                    else WindowResult.stddev w) (WindowResult.stddev w)
  else baseline_mean r' = baseline_mean r ∧ baseline_std r' = baseline_std r.
Proof.
  intros Hw Hfin. unfold finalized in Hfin.
  destruct b as [c st n1 n2 u1 u2 u3 pk warm found frz]. simpl in Hw. subst warm.
  unfold AnalyzeBreath, UpdateBaseline, Warmup. simpl.
  destruct (Z.eqb_spec (WindowResult.window_end_us w) 0) as [H0|_]; [done|].
  simpl. destruct (WindowResult.stable w); simpl.
  - destruct found; simpl; destruct (_ <=? _); simpl; done.
  - destruct found; simpl; [|done]. destruct (_ <=? _); simpl; done.
Qed.

(** [AnalyzeBreath] returns [true] in one place only: [Processing], on an
    exit condition after at least [min_blow_time_us]. *)
Lemma emitted_event (b : t D) (w : WindowResult.t D) (r : BreathResult D) :
  returns b w r = true →
  bWarmedup b = true ∧ breath_state b = BreathAnalyzerState.Processing ∧
  finalized w ∧
  breath_state (state_after b w r) = BreathAnalyzerState.Analyzed ∧
  min_blow_time_us (bcfg b)
    <= wrap64 (WindowResult.window_end_us w - breath_start_us b) ∧
  event_of b w r
  = {| start_us := breath_start_us b;
       end_us := WindowResult.window_end_us w;
       peak_voltage := d_max (cur_peak_voltage b) (WindowResult.mean w);
       State := BreathAnalyzerState.Processing |}.
Proof.
  unfold AnalyzeBreath, finalized.
  destruct (Z.eqb_spec (WindowResult.window_end_us w) 0) as [H0|Hfin];
    [discriminate|].
  destruct (bWarmedup b) eqn:Ewarm; simpl.
  2:{ destruct (UpdateBaseline _ w _) as [b1 r1]. unfold Warmup.
      destruct (_ && _); discriminate. }
  destruct (breath_state b) eqn:Est; simpl; try discriminate.
  - destruct (UpdateBaseline _ w _) as [b1 r1]. unfold Ready.
    destruct (_ <? _)%D; discriminate.
  - match goal with |- context [Processing ?b1 w ?r1 ?th ?ev] =>
      pose proof (Processing_cases b1 w r1 th ev) as Hcases;
      destruct (Processing b1 w r1 th ev) as [[[ret b'] r'] ev']
    end.
    simpl in Hcases |- *. intros ->.
    destruct Hcases as (_ & _ & _ & _ & Hstay & Hrej & Hemit).
    match type of Hstay with (?e = false → _) => destruct e eqn:Eexit end.
    2:{ destruct Hstay; done. }
    destruct (Z.lt_ge_cases
                (wrap64 (WindowResult.window_end_us w - breath_start_us b))
                (min_blow_time_us (bcfg b))) as [Hlt|Hge].
    { destruct Hrej; done. }
    destruct Hemit as (_ & Hst' & Hev); [done..|]. done.
  - destruct (UpdateBaseline _ w _) as [b1 r1]. unfold Cooldown.
    destruct (_ && _); [destruct (_ <=? _)|]; discriminate.
Qed.

(** A window taken in [Processing] raises the running peak to its mean and
    keeps the breath start. *)
Lemma processing_step (b : t D) (w : WindowResult.t D) (r : BreathResult D) :
  bWarmedup b = true → breath_state b = BreathAnalyzerState.Processing →
  finalized w →
  cur_peak_voltage (state_after b w r)
    = d_max (cur_peak_voltage b) (WindowResult.mean w) ∧
  breath_start_us (state_after b w r) = breath_start_us b ∧
  bWarmedup (state_after b w r) = true ∧
  bcfg (state_after b w r) = bcfg b.
Proof.
  intros Hwarm Hst Hfin. unfold AnalyzeBreath, finalized in *.
  destruct (Z.eqb_spec (WindowResult.window_end_us w) 0) as [H0|_]; [done|].
  rewrite Hwarm, Hst. simpl.
  match goal with |- context [Processing ?b1 w ?r1 ?th ?ev] =>
    destruct (Processing_cases b1 w r1 th ev) as (Hp & Hs & Hw & Hc & _)
  end.
  rewrite Hp, Hs, Hw, Hc. done.
Qed.

Lemma processing_run (ws : list (WindowResult.t D)) :
  ∀ (b : t D) (r : BreathResult D),
    bWarmedup b = true → breath_state b = BreathAnalyzerState.Processing →
    Forall finalized ws → stays_in BreathAnalyzerState.Processing b r ws →
    cur_peak_voltage (run b r ws).1
      = fold_left d_max (map WindowResult.mean ws) (cur_peak_voltage b) ∧
    breath_start_us (run b r ws).1 = breath_start_us b ∧
    bWarmedup (run b r ws).1 = true ∧
    breath_state (run b r ws).1 = BreathAnalyzerState.Processing ∧
    bcfg (run b r ws).1 = bcfg b.
Proof.
  induction ws as [|w ws IH]; intros b r Hwarm Hst Hfin Hstay; [done|].
  apply Forall_cons in Hfin as [Hw Hfin]. destruct Hstay as [Hst' Hstay].
  destruct (processing_step b w r Hwarm Hst Hw) as (Hp & Hs & Hw' & Hc).
  cbn [run map fold_left].
  destruct (AnalyzeBreath b w r) as [[[ret b'] r'] ev]. simpl in *.
  destruct (IH b' r' Hw' Hst' Hfin Hstay) as (Hp2 & Hs2 & Hw2 & Hst2 & Hc2).
  rewrite Hp2, Hs2, Hp, Hs, Hc2, Hc. done.
Qed.

(** The window that takes the machine from [Ready] to [Processing] starts
    the peak at its own mean. *)
Lemma ready_trigger (b : t D) (w0 : WindowResult.t D) (r : BreathResult D) :
  bWarmedup b = true → breath_state b = BreathAnalyzerState.Ready →
  finalized w0 →
  breath_state (state_after b w0 r) = BreathAnalyzerState.Processing →
  cur_peak_voltage (state_after b w0 r) = WindowResult.mean w0 ∧
  breath_start_us (state_after b w0 r)
    = (if negb (WindowResult.window_start_us w0 =? 0)
       then WindowResult.window_start_us w0
       else WindowResult.window_end_us w0) ∧
  bWarmedup (state_after b w0 r) = true ∧
  bcfg (state_after b w0 r) = bcfg b.
Proof.
  intros Hwarm Hst Hfin. unfold AnalyzeBreath, finalized in *.
  destruct (Z.eqb_spec (WindowResult.window_end_us w0) 0) as [H0|_]; [done|].
  rewrite Hwarm, Hst. simpl.
  destruct (UpdateBaseline_frame (set_bFreezebaseline false b) w0
              (set_last_window w0 r)) as (Hs1 & Hw1 & Hc1 & _).
  destruct (UpdateBaseline _ w0 _) as [b1 r1]. simpl in Hs1, Hw1, Hc1.
  unfold Ready. destruct (_ <? _)%D; simpl.
  - rewrite Hs1, Hst. discriminate.
  - intros _. rewrite Hw1, Hc1. done.
Qed.

(** From the trigger to the completed event: the event spans the breath,
    at least [min_blow_time_us] long, and carries the running maximum
    ([std::max] folded over the window means) as its peak. *)
Lemma breath_event_of_run (b : t D) (r : BreathResult D)
    (w0 : WindowResult.t D) (ws : list (WindowResult.t D)) (w : WindowResult.t D) :
  bWarmedup b = true → breath_state b = BreathAnalyzerState.Ready →
  Forall finalized (w0 :: ws ++ [w]) →
  breath_state (state_after b w0 r) = BreathAnalyzerState.Processing →
  stays_in BreathAnalyzerState.Processing
    (state_after b w0 r) (AnalyzeBreath b w0 r).1.2 ws →
  returns (run b r (w0 :: ws)).1 w (run b r (w0 :: ws)).2 = true →
  let ev := event_of (run b r (w0 :: ws)).1 w (run b r (w0 :: ws)).2 in
  peak_voltage ev
    = fold_left d_max (map WindowResult.mean (ws ++ [w])) (WindowResult.mean w0) ∧
  min_blow_time_us (bcfg b) <= wrap64 (end_us ev - start_us ev) ∧
  end_us ev = WindowResult.window_end_us w.
Proof.
  intros Hwarm Hst Hfin Htrig Hstay Hret.
  apply Forall_cons in Hfin as [Hw0 Hfin].
  apply Forall_app in Hfin as [Hfin Hw]. apply Forall_inv in Hw.
  destruct (ready_trigger b w0 r Hwarm Hst Hw0 Htrig) as (Hp0 & _ & Hw1 & Hc1).
  cbn [run] in Hret |- *.
  destruct (AnalyzeBreath b w0 r) as [[[ret0 b1] r1] ev0]. simpl in *.
  destruct (processing_run ws b1 r1 Hw1 Htrig Hfin Hstay)
    as (Hp & _ & _ & _ & Hc).
  destruct (emitted_event _ _ _ Hret) as (_ & _ & _ & _ & Hmin & Hev).
  rewrite Hev. simpl. rewrite Hc, Hc1 in Hmin.
  split; [|done].
  rewrite map_app, fold_left_app, Hp, Hp0. done.
Qed.

End Machine.

(** With the default configuration ([warmup_stable_windows = 25]) the
    machine is [Ready] after 24 stable windows. *)
Lemma warmup_ready_transition_witness :
  0 <= warmup_stable_windows (Config.breath_cfg (D:=float)) < 2 ^ 16 ∧
  Forall finalized (replicate 23 (Scenario.quiet (D:=float) 1) ++ [Scenario.quiet 1]) ∧
  WindowResult.stable (Scenario.quiet (D:=float) 1) = true ∧
  Z.of_nat (count_stable (replicate 23 (Scenario.quiet (D:=float) 1))) + 1
    = Z.max 1 (warmup_stable_windows (Config.breath_cfg (D:=float)) - 1) ∧
  breath_state
    (run (init Config.breath_cfg) default_result
       (replicate 23 (Scenario.quiet (D:=float) 1) ++ [Scenario.quiet 1])).1
    = BreathAnalyzerState.Ready.
Proof.
  split; [simpl; lia|].
  split; [apply Forall_forall; intros x Hx; vm_compute in Hx;
          apply list_elem_of_In in Hx; repeat destruct Hx as [<-|Hx];
          try discriminate; done|].
  split; [reflexivity|]. split; [reflexivity|].
  apply (warmup_ready_transition Config.breath_cfg default_result
           (replicate 23 (Scenario.quiet 1)) (Scenario.quiet 1)).
  - simpl; lia.
  - apply Forall_forall; intros x Hx; vm_compute in Hx;
      apply list_elem_of_In in Hx; repeat destruct Hx as [<-|Hx];
      try discriminate; done.
  - reflexivity.
  - reflexivity.
Defined.

(** The hypotheses of [short_blow_rejected], with a minimal blow time of
    three seconds: the window after the trigger falls back to the baseline
    two seconds after the breath start. *)
Lemma short_blow_rejected_witness :
  reachable (Scenario.breath_cfg (D:=float) 2 3000000)
    (run (init (Scenario.breath_cfg 2 3000000)) default_result
       [Scenario.quiet 1; Scenario.window false (Config.ratio 12 10) 1000001]).1 ∧
  (AnalyzeBreath
     (run (init (Scenario.breath_cfg (D:=float) 2 3000000)) default_result
        [Scenario.quiet 1; Scenario.window false (Config.ratio 12 10) 1000001]).1
     (Scenario.quiet 2000001)
     (run (init (Scenario.breath_cfg (D:=float) 2 3000000)) default_result
        [Scenario.quiet 1; Scenario.window false (Config.ratio 12 10) 1000001]).2
  ).1.1.1 = false.
Proof.
  split; [apply run_reachable, reachable_init|].
  apply (short_blow_rejected (Scenario.breath_cfg 2 3000000)).
  - apply run_reachable, reachable_init.
  - reflexivity.
  - unfold finalized. simpl. lia.
  - left. reflexivity.
  - vm_compute. reflexivity.
Defined.

Section OrderedMachine.
Context `{Double D} `{!DoubleOrder D}.

(** C10: when [AnalyzeBreath] returns [true], the event it hands out spans
    at least [min_blow_time_us] (end minus start, as [uint64_t]), and its
    peak is the maximum of the window means seen from the window that took
    the machine from [Ready] to [Processing] up to the emitting window: one
    of these means, with every one of them [<=] it, the trigger's included.
    The means are numbers (none is a NaN, with which nothing compares); the
    arithmetic is any with the order of [double], binary64 itself and the
    rationals among them. *)
Theorem breath_event_bounds (b : t D) (r : BreathResult D)
    (w0 : WindowResult.t D) (ws : list (WindowResult.t D)) (w : WindowResult.t D) :
  bWarmedup b = true → breath_state b = BreathAnalyzerState.Ready →
  Forall finalized (w0 :: ws ++ [w]) →
  breath_state (AnalyzeBreath b w0 r).1.1.2 = BreathAnalyzerState.Processing →
  stays_in BreathAnalyzerState.Processing
    (AnalyzeBreath b w0 r).1.1.2 (AnalyzeBreath b w0 r).1.2 ws →
  (AnalyzeBreath (run b r (w0 :: ws)).1 w (run b r (w0 :: ws)).2).1.1.1 = true →
  let ev := (AnalyzeBreath (run b r (w0 :: ws)).1 w (run b r (w0 :: ws)).2).2 in
  let means := map WindowResult.mean (w0 :: ws ++ [w]) in
  Forall (λ m, d_number m = true) means →
  min_blow_time_us (bcfg b) <= wrap64 (end_us ev - start_us ev) ∧
  peak_voltage ev ∈ means ∧
  Forall (λ m, (m <=? peak_voltage ev)%D = true) means ∧
  (WindowResult.mean w0 <=? peak_voltage ev)%D = true.
Proof.
  intros Hwarm Hst Hfin Htrig Hstay Hret ev means Hnum.
  destruct (breath_event_of_run b r w0 ws w Hwarm Hst Hfin Htrig Hstay Hret)
    as (Hpeak & Hmin & _).
  fold ev in Hpeak, Hmin. subst means. cbn [map] in Hnum |- *.
  destruct (DoubleOrderProofs.fold_max_spec
              (map WindowResult.mean (ws ++ [w])) (WindowResult.mean w0) Hnum)
    as [Hin Hall].
  rewrite <- Hpeak in Hin, Hall.
  split; [done|]. split; [done|]. split; [done|].
  by apply Forall_inv in Hall.
Qed.

End OrderedMachine.

(** The breath of [BreathScenario], in binary64: the trigger at 1.2 V, a
    window at 1.5 V and the fall back to 1 V, which hands out the event. *)
Lemma breath_event_bounds_witness :
  bWarmedup BreathScenario.ready = true ∧
  breath_state BreathScenario.ready = BreathAnalyzerState.Ready ∧
  (AnalyzeBreath
     (run BreathScenario.ready BreathScenario.ready_result
        (BreathScenario.trigger :: [BreathScenario.rising])).1
     BreathScenario.falling
     (run BreathScenario.ready BreathScenario.ready_result
        (BreathScenario.trigger :: [BreathScenario.rising])).2).1.1.1 = true ∧
  Forall (λ m, d_number m = true)
    (map WindowResult.mean
       (BreathScenario.trigger :: [BreathScenario.rising] ++ [BreathScenario.falling])) ∧
  Forall (λ m,
      (m <=? peak_voltage
               (AnalyzeBreath
                  (run BreathScenario.ready BreathScenario.ready_result
                     (BreathScenario.trigger :: [BreathScenario.rising])).1
                  BreathScenario.falling
                  (run BreathScenario.ready BreathScenario.ready_result
                     (BreathScenario.trigger :: [BreathScenario.rising])).2).2)%D
      = true)
    (map WindowResult.mean
       (BreathScenario.trigger :: [BreathScenario.rising] ++ [BreathScenario.falling])).
Proof.
  assert (Hnum : Forall (λ m : float, d_number m = true)
            (map WindowResult.mean
               (BreathScenario.trigger
                  :: [BreathScenario.rising] ++ [BreathScenario.falling])))
    by (repeat constructor; vm_compute; reflexivity).
  split; [vm_compute; reflexivity|]. split; [vm_compute; reflexivity|].
  split; [vm_compute; reflexivity|]. split; [exact Hnum|].
  apply (breath_event_bounds BreathScenario.ready BreathScenario.ready_result
           BreathScenario.trigger [BreathScenario.rising] BreathScenario.falling).
  - vm_compute; reflexivity.
  - vm_compute; reflexivity.
  - repeat constructor; unfold finalized; vm_compute; discriminate.
  - vm_compute; reflexivity.
  - vm_compute. split; [reflexivity | exact I].
  - vm_compute; reflexivity.
  - exact Hnum.
Defined.

End BreathAnalyzerProofs.

(** ** Proofs: the batch runner *)

Module ProcessRunnerProofs.
Import ProcessRunner.

Section Idle.
Context `{Double D} {P R : Type} `{!Proc.Processor D P R}.
Variable k : nat.
Variable w : World (D:=D).
Variable consumer_config : Consumer_Config.
Variable on_process_event : P → P.
Variable analyzer_fuel : nat.

(** Nothing comes out of the empty ring. *)
Lemma pop_batch_empty (max_batch : nat) :
  Spsc.pop_batch k max_batch (Spsc.empty k (T:=Sample D)) = ([], Spsc.empty k).
Proof. destruct max_batch; reflexivity. Qed.

(** With a processor that opts into the timeout and a sampler that never
    delivers, the loop idles until the first reading of the clock at which
    the timeout has elapsed, and returns the untouched processor's
    result. *)
Lemma idle_until_timeout (n : nat) :
  ∀ (fuel i calls : nat) (p : P),
    Proc.bEnableTimeout = true →
    (∀ j, produced w j = []) →
    (∀ j, (i ≤ j ≤ i + n)%nat → g_running w j = true) →
    (∀ j, (i ≤ j < i + n)%nat →
          clock w (S j) - clock w 0 < Timeout consumer_config) →
    Timeout consumer_config <= clock w (S (i + n)) - clock w 0 →
    (n < fuel)%nat →
    run_loop k w consumer_config on_process_event analyzer_fuel
      fuel (clock w 0) i (S i) calls (Spsc.empty k) p
    = Some (mkOutcome (Proc.result p) p calls (i + n)).
Proof.
  induction n as [|n IH]; intros fuel i calls p Hopt Hnone Hrun Hearly Hlate Hfuel;
    (destruct fuel as [|fuel]; [lia|]); cbn [run_loop];
    rewrite Hrun by lia; rewrite Hnone; cbn [negb Spsc.push_all snd];
    rewrite pop_batch_empty, Hopt; unfold timed_out.
  - rewrite Nat.add_0_r in *.
    destruct (Z.leb_spec (Timeout consumer_config) (clock w (S i) - clock w 0));
      [done | lia].
  - destruct (Z.leb_spec (Timeout consumer_config) (clock w (S i) - clock w 0))
      as [Hle|_].
    { specialize (Hearly i). lia. }
    rewrite (IH fuel (S i) calls p); try done; try lia.
    + do 2 f_equal. lia.
    + intros j Hj. apply Hrun. lia.
    + intros j Hj. apply Hearly. lia.
    + replace (S i + n)%nat with (i + S n)%nat by lia. done.
Qed.

End Idle.

Section Calibration.
Context `{Double D}.

(** C8: the batch runner with the calibration processor (which opts into
    the timeout) and a sampler that never delivers a sample returns the
    processor's initial snapshot, the all-zero [WindowResult], at the first
    reading of the clock at which the configured timeout has elapsed; the
    processor is untouched and the event callback is never invoked. *)
Theorem timeout_returns_initial_snapshot (k : nat) (w : World (D:=D))
    (consumer_config : Consumer_Config)
    (on_process_event : CalibrationProcess.t D → CalibrationProcess.t D)
    (cfg : Analyzer_Config D) (analyzer_fuel fuel n : nat) :
  (∀ j, produced w j = []) →
  (∀ j, (j ≤ n)%nat → g_running w j = true) →
  (∀ j, (j < n)%nat → clock w (S j) - clock w 0 < Timeout consumer_config) →
  Timeout consumer_config <= clock w (S n) - clock w 0 →
  (n < fuel)%nat →
  run (R:=WindowResult.t D) k w consumer_config on_process_event analyzer_fuel
    fuel (CalibrationProcess.init cfg)
  = Some {| returned := WindowResult.default;
            processor := CalibrationProcess.init cfg;
            callbacks := 0;
            iterations := n |}.
Proof.
  intros Hnone Hrun Hearly Hlate Hfuel. unfold run.
  rewrite (idle_until_timeout k w consumer_config on_process_event analyzer_fuel n);
    try done.
  - intros j Hj. apply Hrun. lia.
  - intros j Hj. apply Hearly. lia.
Qed.

End Calibration.

(** A timeout of 20 ms, a clock that advances by the idle sleep of 5 ms per
    reading, and a sampler that never delivers: the run ends at the fourth
    reading after the start. *)
Lemma timeout_returns_initial_snapshot_witness :
  (∀ j, (j < 3)%nat →
        Z.of_nat (S j) * 5000 - Z.of_nat 0 * 5000
          < Timeout (Config.consumer_cfg_timeout 20000)) ∧
  Timeout (Config.consumer_cfg_timeout 20000)
    <= Z.of_nat 4 * 5000 - Z.of_nat 0 * 5000 ∧
  run (D:=float) (R:=WindowResult.t float) Config.RingSize_log2
    (mkWorld (λ _, []) (λ c, Z.of_nat c * 5000) (λ _, true))
    (Config.consumer_cfg_timeout 20000) id 4 4
    (CalibrationProcess.init Config.analyzer_cfg)
  = Some {| returned := WindowResult.default;
            processor := CalibrationProcess.init Config.analyzer_cfg;
            callbacks := 0;
            iterations := 3 |}.
Proof.
  split; [intros j Hj; simpl; lia|]. split; [simpl; lia|].
  apply (timeout_returns_initial_snapshot (D:=float) Config.RingSize_log2
           (mkWorld (λ _, []) (λ c, Z.of_nat c * 5000) (λ _, true))
           (Config.consumer_cfg_timeout 20000) id Config.analyzer_cfg 4 4 3).
  - intros j. reflexivity.
  - intros j Hj. reflexivity.
  - intros j Hj. simpl. lia.
  - simpl. lia.
  - lia.
Defined.

End ProcessRunnerProofs.

(** ** Proofs: the runtime processor and its events *)

Module RuntimeProcessProofs.

Section Events.
Context `{Double D}.

(** The phase an event reports: the one the machine was in when it took
    the window ([Warmup], the default of [BreathEvent], during the
    warm-up), whatever the window did to the machine. *)
Lemma AnalyzeBreath_State (b : BreathAnalyzer.t D) (w : WindowResult.t D)
    (r : BreathResult D) :
  State (BreathAnalyzer.AnalyzeBreath b w r).2
  = if (WindowResult.window_end_us w =? 0) || negb (BreathAnalyzer.bWarmedup b)
    then BreathAnalyzerState.Warmup
    else match BreathAnalyzer.breath_state b with
         | BreathAnalyzerState.Ready => BreathAnalyzerState.Ready
         | BreathAnalyzerState.Processing => BreathAnalyzerState.Processing
         | BreathAnalyzerState.Analyzed => BreathAnalyzerState.Analyzed
         | _ => BreathAnalyzerState.Cooldown
         end.
Proof.
  unfold BreathAnalyzer.AnalyzeBreath.
  destruct (WindowResult.window_end_us w =? 0); [done|].
  destruct (BreathAnalyzer.bWarmedup b); simpl.
  2:{ destruct (BreathAnalyzer.UpdateBaseline _ w _) as [b1 r1].
      destruct (BreathAnalyzer.Warmup b1). done. }
  destruct (BreathAnalyzer.breath_state b); simpl; try done.
  - destruct (BreathAnalyzer.UpdateBaseline _ w _) as [b1 r1].
    destruct (BreathAnalyzer.Ready b1 w r1 _) as [[ret b2] r2]. done.
  - unfold BreathAnalyzer.Processing. simpl.
    destruct (negb _ && negb _); [done|]. destruct (_ <? _); done.
  - destruct (BreathAnalyzer.UpdateBaseline _ w _) as [b1 r1].
    destruct (BreathAnalyzer.Cooldown b1 w r1 _) as [[ret b2] r2]. done.
Qed.

Lemma AnalyzeBreath_State_not_None (b : BreathAnalyzer.t D) (w : WindowResult.t D)
    (r : BreathResult D) :
  Event.is_None (Event.of_state (State (BreathAnalyzer.AnalyzeBreath b w r).2))
  = false.
Proof.
  rewrite AnalyzeBreath_State.
  destruct (_ || _); [done|]. destruct (BreathAnalyzer.breath_state b); done.
Qed.

(** What a returning [on_batch] has done. *)
Lemma on_batch_event (fuel : nat) (p p' : RuntimeProcess.t D)
    (sample : list (Sample D)) (step : StepResult (BreathResult D))
    (wstep : StepResult (WindowResult.t D)) (wa : WelfordAnalyzer.t D) :
  WelfordAnalyzer.AnalyzeBatch fuel (RuntimeProcess.W_analyzer_ p) sample get_volts
    = Some (wstep, wa) →
  RuntimeProcess.on_batch fuel p sample = Some (step, p') →
  if WindowResult.window_end_us (result wstep) =? 0 then
    event step = Event.None ∧
    RuntimeProcess.bHasEvent p' = RuntimeProcess.bHasEvent p ∧
    RuntimeProcess.last_event p' = RuntimeProcess.last_event p
  else
    Event.is_None (event step) = false ∧
    event step = Event.of_state (State (RuntimeProcess.last_event p')) ∧
    State (RuntimeProcess.last_event p')
      = State (BreathAnalyzer.AnalyzeBreath (RuntimeProcess.B_analyzer_ p)
                 (result wstep)
                 (BreathAnalyzer.set_last_window (result wstep)
                    (RuntimeProcess.snapshot_ p))).2 ∧
    (RuntimeProcess.pop_breath_event p').1 = Some (RuntimeProcess.last_event p') ∧
    (RuntimeProcess.pop_breath_event (RuntimeProcess.pop_breath_event p').2).1
      = None ∧
    ∀ n, (RuntimeProcess.drain_events (S n) p').1 = [RuntimeProcess.last_event p'].
Proof.
  unfold RuntimeProcess.on_batch. intros Ebatch Hrun. rewrite Ebatch in Hrun.
  destruct (WindowResult.window_end_us (result wstep) =? 0); simpl in Hrun.
  - injection Hrun as <- <-. done.
  - pose proof (AnalyzeBreath_State_not_None (RuntimeProcess.B_analyzer_ p)
                  (result wstep)
                  (BreathAnalyzer.set_last_window (result wstep)
                     (RuntimeProcess.snapshot_ p))) as Hsome.
    destruct (BreathAnalyzer.AnalyzeBreath _ _ _) as [[[ret ba] r'] ev].
    injection Hrun as <- <-. simpl in *.
    split; [done|]. split; [done|]. split; [done|]. split; [done|].
    split; [done|]. intros [|n]; reflexivity.
Qed.

(** C9 (amended): [on_batch] returns for every batch (the window duration
    being positive) and signals an event for every batch in which
    [AnalyzeBatch] hands back a finalized window, whether or not the window
    makes the state machine change phase, and for no other batch.  The
    event carries the phase the machine was in when it took the window.
    When an event is signaled, exactly one [BreathEvent] is pending at the
    callback: [pop_breath_event] returns it, and the drain loop of the
    callback stops after it. *)
Theorem event_per_finalized_window (p : RuntimeProcess.t D)
    (sample : list (Sample D)) :
  0 < window_micro (WelfordAnalyzer.cfg (RuntimeProcess.W_analyzer_ p)) →
  ∃ fuel0 step p' wstep wa,
    (∀ fuel, (fuel0 ≤ fuel)%nat →
       WelfordAnalyzer.AnalyzeBatch fuel (RuntimeProcess.W_analyzer_ p) sample
         get_volts = Some (wstep, wa) ∧
       RuntimeProcess.on_batch fuel p sample = Some (step, p')) ∧
    if WindowResult.window_end_us (result wstep) =? 0 then
      event step = Event.None ∧
      RuntimeProcess.bHasEvent p' = RuntimeProcess.bHasEvent p ∧
      RuntimeProcess.last_event p' = RuntimeProcess.last_event p
    else
      Event.is_None (event step) = false ∧
      event step = Event.of_state (State (RuntimeProcess.last_event p')) ∧
      State (RuntimeProcess.last_event p')
        = State (BreathAnalyzer.AnalyzeBreath (RuntimeProcess.B_analyzer_ p)
                   (result wstep)
                   (BreathAnalyzer.set_last_window (result wstep)
                      (RuntimeProcess.snapshot_ p))).2 ∧
      (RuntimeProcess.pop_breath_event p').1 = Some (RuntimeProcess.last_event p') ∧
      (RuntimeProcess.pop_breath_event (RuntimeProcess.pop_breath_event p').2).1
        = None ∧
      ∀ n, (RuntimeProcess.drain_events (S n) p').1 = [RuntimeProcess.last_event p'].
Proof.
  intros HW.
  destruct (WelfordAnalyzerProofs.AnalyzeBatch_loop_total sample get_volts
              (RuntimeProcess.W_analyzer_ p) WelfordAnalyzer.default_step HW)
    as (fuel0 & wstep & wa & Hbatch).
  fold (WelfordAnalyzer.AnalyzeBatch) in Hbatch.
  assert (Hsame : ∀ fuel, (fuel0 ≤ fuel)%nat →
            RuntimeProcess.on_batch fuel p sample
            = RuntimeProcess.on_batch fuel0 p sample).
  { intros fuel Hfuel. unfold RuntimeProcess.on_batch.
    unfold WelfordAnalyzer.AnalyzeBatch.
    rewrite (Hbatch fuel Hfuel), (Hbatch fuel0) by lia. done. }
  destruct (RuntimeProcess.on_batch fuel0 p sample) as [[step p']|] eqn:Erun.
  2:{ unfold RuntimeProcess.on_batch, WelfordAnalyzer.AnalyzeBatch in Erun.
      rewrite (Hbatch fuel0) in Erun by lia.
      destruct (_ =? _); simpl in Erun; [discriminate|].
      destruct (BreathAnalyzer.AnalyzeBreath _ _ _) as [[[? ?] ?] ?].
      discriminate. }
  exists fuel0, step, p', wstep, wa. split.
  - intros fuel Hfuel. split; [by apply Hbatch | by rewrite Hsame].
  - apply (on_batch_event fuel0 p p' sample step wstep wa); [|done].
    apply Hbatch. lia.
Qed.

End Events.

Lemma event_per_finalized_window_witness :
  0 < window_micro
        (WelfordAnalyzer.cfg
           (RuntimeProcess.W_analyzer_ (RuntimeScenario.fresh (D:=float)))) ∧
  ∃ fuel0 step p',
    (∀ fuel, (fuel0 ≤ fuel)%nat →
       RuntimeProcess.on_batch fuel (RuntimeScenario.fresh (D:=float))
         RuntimeScenario.first_batch = Some (step, p')).
Proof.
  split; [reflexivity|].
  destruct (event_per_finalized_window (RuntimeScenario.fresh (D:=float))
              RuntimeScenario.first_batch)
    as (fuel0 & step & p' & wstep & wa & Hrun & _); [reflexivity|].
  exists fuel0, step, p'. intros fuel Hfuel. apply (Hrun fuel Hfuel).
Defined.

(** C9 as stated fails: the second batch closes a quiet window while the
    machine is [Ready]; the machine stays [Ready], yet the batch signals an
    event ([Ready]) and the runner calls the callback for it, as it did for
    the first batch. *)
Lemma event_without_transition :
  ∃ step1 p1 step2 p2,
    RuntimeProcess.on_batch 4 (RuntimeScenario.fresh (D:=float))
      RuntimeScenario.first_batch = Some (step1, p1) ∧
    RuntimeProcess.on_batch 4 p1 RuntimeScenario.second_batch = Some (step2, p2) ∧
    BreathAnalyzer.breath_state (RuntimeProcess.B_analyzer_ p1)
      = BreathAnalyzerState.Ready ∧
    BreathAnalyzer.breath_state (RuntimeProcess.B_analyzer_ p2)
      = BreathAnalyzerState.Ready ∧
    event step2 = Event.Ready ∧
    ProcessRunner.callbacks <$>
      ProcessRunner.run 2 (RuntimeScenario.world (D:=float)) Config.consumer_cfg
        RuntimeScenario.on_breath 4 3 RuntimeScenario.fresh
    = Some 2%nat.
Proof.
  eexists _, _, _, _.
  split; [vm_compute; reflexivity|].
  split; [vm_compute; reflexivity|].
  repeat split; vm_compute; reflexivity.
Qed.

End RuntimeProcessProofs.

(** ** Proofs: the ring as a bounded queue, and the producer's count *)

Module SpscLaws.
Import Spsc.

Lemma lastn_all {A : Type} (m : nat) (l : list A) :
  (length l ≤ m)%nat → lastn m l = l.
Proof.
  intros Hl. unfold lastn.
  replace (length l - m)%nat with 0%nat by lia. apply drop_0.
Qed.

Section Ring.
Context {T : Type} `{!Inhabited T}.
Variable k : nat.
Hypothesis Hk : (k < 64)%nat.

Local Abbreviation N := (Spsc.N k).
Local Abbreviation cap := (Z.to_nat (Spsc.N k) - 1)%nat.

Lemma occupancy_le_cap (r : SpscRing T) : (occupancy k r ≤ cap)%nat.
Proof. pose proof (SpscProofs.occupancy_bound k Hk r). lia. Qed.

(** One [push]: it appends when the ring has room, and otherwise returns
    [false] without touching the ring. *)
Lemma push_spec (r : SpscRing T) (v : T) :
  ring_ok k r →
  (push k r v).1 = bool_decide (occupancy k r < cap)%nat ∧
  ring_ok k (push k r v).2 ∧
  contents k (push k r v).2
    = (if (push k r v).1 then contents k r ++ [v] else contents k r) ∧
  ((push k r v).1 = false → (push k r v).2 = r).
Proof.
  intros Hok.
  destruct (SpscProofs.push_overwrite_spec k Hk r v Hok) as (Hok' & Hc & Hret).
  revert Hok' Hc Hret. unfold push, push_overwrite.
  destruct (mask k (head_ r + 1) =? tail_ r); cbn [fst snd negb].
  - intros _ _ Hret. done.
  - intros Hok' Hc Hret. split; [done|]. split; [done|]. split; [|done].
    symmetry in Hret. apply bool_decide_eq_true in Hret.
    rewrite Hc. apply lastn_all.
    rewrite length_app, SpscProofs.contents_length. simpl. lia.
Qed.

(** X1: [push] never overwrites.  Values offered with [push] are taken
    until the ring holds [N - 1] of them, and every later one is refused
    with [false], the ring staying as it is: the ring keeps the oldest
    values, where [push_overwrite] keeps the newest. *)
Theorem push_keeps_the_oldest (l : list T) (r : SpscRing T) :
  ring_ok k r →
  (SpscOps.run k (map SpscOps.Push l) r).1
    = map (λ i, SpscOps.Pushed (bool_decide (occupancy k r + i < cap)%nat))
          (seq 0 (length l)) ∧
  contents k (SpscOps.run k (map SpscOps.Push l) r).2
    = contents k r ++ take (cap - occupancy k r) l ∧
  ring_ok k (SpscOps.run k (map SpscOps.Push l) r).2.
Proof.
  revert r. induction l as [|v l IH]; intros r Hok.
  - simpl. rewrite take_nil, app_nil_r. done.
  - cbn [map SpscOps.run SpscOps.step length seq].
    destruct (push_spec r v Hok) as (Hret & Hok' & Hc & Hsame).
    destruct (push k r v) as [ok r'] eqn:Epush. cbn [fst snd] in *.
    destruct (IH r' Hok') as (H1 & H2 & H3).
    destruct (SpscOps.run k (map SpscOps.Push l) r') as [xs r''].
    cbn [fst snd] in *.
    assert (Hocc : occupancy k r' = (if ok then S (occupancy k r) else occupancy k r)).
    { rewrite <- !SpscProofs.contents_length, Hc.
      destruct ok; [rewrite length_app; simpl; lia | done]. }
    split; [|split; [|done]].
    + f_equal; [by rewrite Hret, Nat.add_0_r|].
      rewrite H1, <- seq_shift, map_map. apply map_ext. intros i.
      f_equal. rewrite Hocc. subst ok.
      case_bool_decide; apply bool_decide_ext; lia.
    + rewrite H2, Hc, Hocc. subst ok. case_bool_decide as Hfree.
      * replace (cap - occupancy k r)%nat with (S (cap - S (occupancy k r))) by lia.
        rewrite <- app_assoc. done.
      * replace (cap - occupancy k r)%nat with 0%nat by lia. done.
Qed.

(** One command on the ring does what it does on the queue. *)
Lemma step_fifo (r : SpscRing T) (o : SpscOps.Op T) :
  ring_ok k r →
  (SpscOps.step k r o).1 = (SpscOps.fifo_step cap (contents k r) o).1 ∧
  contents k (SpscOps.step k r o).2 = (SpscOps.fifo_step cap (contents k r) o).2 ∧
  ring_ok k (SpscOps.step k r o).2.
Proof.
  intros Hok. destruct o as [v|v|]; cbn [SpscOps.step SpscOps.fifo_step].
  - destruct (push_spec r v Hok) as (Hret & Hok' & Hc & _).
    destruct (push k r v) as [ok r']. cbn [fst snd] in *.
    rewrite SpscProofs.contents_length, <- Hret, Hc. destruct ok; done.
  - destruct (SpscProofs.push_overwrite_spec k Hk r v Hok) as (Hok' & Hc & Hret).
    destruct (push_overwrite k r v) as [ok r']. cbn [fst snd] in *.
    rewrite SpscProofs.contents_length, <- Hret, Hc. subst ok.
    case_bool_decide as Hfree; cbn [fst snd]; [|done].
    split; [done|]. split; [|done]. apply lastn_all.
    rewrite length_app, SpscProofs.contents_length. simpl. lia.
  - pose proof (SpscProofs.pop_spec k Hk r Hok) as Hpop.
    destruct (contents k r) as [|x c] eqn:Ec.
    + rewrite Hpop. cbn [fst snd]. done.
    + destruct (pop k r) as [out r']. cbn [fst snd] in *.
      destruct Hpop as (-> & Hc & Hok'). done.
Qed.

(** X2: in sequential use the ring is a first-in first-out queue of
    capacity [N - 1].  Any sequence of [push], [push_overwrite] and [pop]
    calls returns what the same commands return on the bounded queue, and
    leaves the unread elements the queue holds. *)
Theorem ring_refines_fifo (ops : list (SpscOps.Op T)) (r : SpscRing T) :
  ring_ok k r →
  (SpscOps.run k ops r).1 = (SpscOps.fifo_run cap ops (contents k r)).1 ∧
  contents k (SpscOps.run k ops r).2
    = (SpscOps.fifo_run cap ops (contents k r)).2 ∧
  ring_ok k (SpscOps.run k ops r).2.
Proof.
  revert r. induction ops as [|o ops IH]; intros r Hok; [done|].
  cbn [SpscOps.run SpscOps.fifo_run].
  destruct (step_fifo r o Hok) as (Hret & Hc & Hok').
  destruct (SpscOps.step k r o) as [x r'].
  destruct (SpscOps.fifo_step cap (contents k r) o) as [x' q'].
  cbn [fst snd] in *. subst x' q'.
  destruct (IH r' Hok') as (H1 & H2 & H3).
  destruct (SpscOps.run k ops r') as [xs r''].
  destruct (SpscOps.fifo_run cap ops (contents k r')) as [xs' q''].
  cbn [fst snd] in *. by subst.
Qed.

Lemma mask_any (x : Z) : mask k x = x mod N.
Proof.
  pose proof (SpscProofs.N_pos k Hk) as Hpos.
  unfold mask. fold (mask k (wrap64 x)).
  assert (Hw : wrap64 (wrap64 x) = wrap64 x) by (unfold wrap64; apply Z.mod_mod; lia).
  transitivity (mask k (wrap64 x)); [unfold mask; by rewrite Hw|].
  rewrite (SpscProofs.mask_mod k Hk) by (unfold wrap64; apply Z.mod_pos_bound; lia).
  unfold wrap64. apply Z.mod_mod_divide.
  exists (2 ^ (64 - Z.of_nat k)). unfold Spsc.N.
  rewrite <- Z.pow_add_r by lia. f_equal. lia.
Qed.

(** X3: [size_approx] is the number of unread elements, for any positions
    of [head_] and [tail_] (their difference is taken on [size_t], so it
    may wrap), and it stays below [N]. *)
Theorem size_approx_counts_unread (r : SpscRing T) :
  size_approx k r = Z.of_nat (length (contents k r)) ∧
  0 <= size_approx k r <= N - 1.
Proof.
  pose proof (SpscProofs.N_pos k Hk) as Hpos.
  unfold size_approx. rewrite mask_any, SpscProofs.contents_length.
  unfold occupancy.
  pose proof (Z.mod_pos_bound (head_ r - tail_ r) N Hpos). lia.
Qed.

(** X4: [pop_batch] takes the oldest elements, as many as there are up to
    [max_batch], and splits the unread elements in two: what it hands out
    followed by what it leaves is what was there, nothing lost, repeated or
    reordered. *)
Theorem pop_batch_splits (max_batch : nat) (r : SpscRing T) :
  ring_ok k r →
  (pop_batch k max_batch r).1 ++ contents k (pop_batch k max_batch r).2
    = contents k r ∧
  length (pop_batch k max_batch r).1 = Nat.min max_batch (occupancy k r) ∧
  size_approx k (pop_batch k max_batch r).2
    = size_approx k r - Z.of_nat (length (pop_batch k max_batch r).1) ∧
  ring_ok k (pop_batch k max_batch r).2.
Proof.
  intros Hok.
  destruct (SpscProofs.pop_batch_spec k Hk max_batch r Hok) as (H1 & H2 & H3).
  pose proof (mask_any) as Hmask.
  assert (Hsize : ∀ r0 : SpscRing T,
            size_approx k r0 = Z.of_nat (length (contents k r0))).
  { intros r0. pose proof (SpscProofs.N_pos k Hk) as Hpos.
    unfold size_approx. rewrite Hmask, SpscProofs.contents_length.
    unfold occupancy.
    pose proof (Z.mod_pos_bound (head_ r0 - tail_ r0) N Hpos). lia. }
  split; [by rewrite H1, H2, take_drop|].
  split; [by rewrite H1, length_take, SpscProofs.contents_length|].
  split; [|done].
  rewrite !Hsize, H1, H2, length_take, length_drop. lia.
Qed.

End Ring.

(** A ring of four slots: three values fit, the fourth and fifth are
    refused. *)
Lemma push_keeps_the_oldest_witness :
  (2 < 64)%nat ∧ ring_ok 2 (empty (T:=Z) 2) ∧
  contents 2 (SpscOps.run 2 (map SpscOps.Push [1; 2; 3; 4; 5]) (empty (T:=Z) 2)).2
    = [] ++ take (Z.to_nat (N 2) - 1 - occupancy 2 (empty (T:=Z) 2)) [1; 2; 3; 4; 5].
Proof.
  split; [lia|]. split; [apply SpscProofs.empty_ok; lia|].
  apply (push_keeps_the_oldest (T:=Z) 2 ltac:(lia) [1; 2; 3; 4; 5]
           (empty (T:=Z) 2) (SpscProofs.empty_ok (T:=Z) 2 ltac:(lia))).
Defined.

Lemma ring_refines_fifo_witness :
  (2 < 64)%nat ∧ ring_ok 2 (empty (T:=Z) 2) ∧
  (SpscOps.run 2 [SpscOps.Push 1; SpscOps.PushOverwrite 2; SpscOps.Pop;
                  SpscOps.Push 3; SpscOps.Push 4; SpscOps.PushOverwrite 5]
     (empty (T:=Z) 2)).1
  = (SpscOps.fifo_run (Z.to_nat (N 2) - 1)
       [SpscOps.Push 1; SpscOps.PushOverwrite 2; SpscOps.Pop;
        SpscOps.Push 3; SpscOps.Push 4; SpscOps.PushOverwrite 5]
       (contents 2 (empty (T:=Z) 2))).1.
Proof.
  split; [lia|]. split; [apply SpscProofs.empty_ok; lia|].
  apply (ring_refines_fifo (T:=Z) 2 ltac:(lia) _ (empty (T:=Z) 2)
           (SpscProofs.empty_ok (T:=Z) 2 ltac:(lia))).
Defined.

Lemma size_approx_counts_unread_witness :
  (2 < 64)%nat ∧
  size_approx 2 (mkRing [7; 8; 9; 10] 1 3)
    = Z.of_nat (length (contents 2 (mkRing [7; 8; 9; 10] 1 3))).
Proof.
  split; [lia|].
  apply (size_approx_counts_unread (T:=Z) 2 ltac:(lia) (mkRing [7; 8; 9; 10] 1 3)).
Defined.

Lemma pop_batch_splits_witness :
  (2 < 64)%nat ∧ ring_ok 2 (push_all 2 [1; 2; 3] (empty (T:=Z) 2)).2 ∧
  (pop_batch 2 2 (push_all 2 [1; 2; 3] (empty (T:=Z) 2)).2).1
    ++ contents 2 (pop_batch 2 2 (push_all 2 [1; 2; 3] (empty (T:=Z) 2)).2).2
  = contents 2 (push_all 2 [1; 2; 3] (empty (T:=Z) 2)).2.
Proof.
  split; [lia|].
  assert (Hok : ring_ok 2 (push_all 2 [1; 2; 3] (empty (T:=Z) 2)).2)
    by (vm_compute; repeat split; (reflexivity || discriminate)).
  split; [exact Hok|].
  apply (pop_batch_splits (T:=Z) 2 ltac:(lia) 2 _ Hok).
Defined.

End SpscLaws.

(** ** Proofs: the sampler's loop *)

Module SamplerProofs.
Import Spsc.

Section Producer.
Context `{Double D}.
Variable k : nat.
Hypothesis Hk : (k < 64)%nat.

Local Abbreviation cap := (Z.to_nat (Spsc.N k) - 1)%nat.

Lemma delivered_nil : Sampler.delivered (D:=D) [] = [].
Proof. reflexivity. Qed.

Lemma delivered_cons (x : option (Sample D)) (l : list (option (Sample D))) :
  Sampler.delivered (x :: l)
  = match x with
    | Some s => s :: Sampler.delivered l
    | None => Sampler.delivered l
    end.
Proof. destruct x; reflexivity. Qed.

(** X5: the producer alone.  After any number of passes of the sampler's
    loop the ring holds the newest readings the source delivered, as many
    as fit, in order; a pass in which the source failed changes nothing;
    and [dropped_] has grown by the number of readings that did not fit
    (as a [uint64_t]), so that every delivered reading is either still
    unread or counted as dropped. *)
Theorem run_sampler_accounting (readings : list (option (Sample D)))
    (s : Sampler.t D) :
  ring_ok k (Sampler.ring s) → 0 <= Sampler.dropped_ s < 2 ^ 64 →
  let s' := Sampler.run_sampler k readings s in
  let held := occupancy k (Sampler.ring s) in
  let n := length (Sampler.delivered readings) in
  ring_ok k (Sampler.ring s') ∧
  contents k (Sampler.ring s')
    = lastn cap (contents k (Sampler.ring s) ++ Sampler.delivered readings) ∧
  occupancy k (Sampler.ring s') = Nat.min (held + n) cap ∧
  Sampler.dropped s'
    = wrap64 (Sampler.dropped_ s + Z.of_nat (held + n - cap)).
Proof.
  revert s. induction readings as [|x readings IH]; intros s Hok Hd.
  - unfold Sampler.run_sampler. rewrite delivered_nil. cbn [fold_left length].
    pose proof (SpscLaws.occupancy_le_cap k Hk (Sampler.ring s)) as Hle.
    split; [done|]. split; [|split].
    + rewrite app_nil_r. symmetry. apply SpscLaws.lastn_all.
      by rewrite SpscProofs.contents_length.
    + lia.
    + replace (occupancy k (Sampler.ring s) + 0 - cap)%nat with 0%nat by lia.
      unfold Sampler.dropped, wrap64. rewrite Z.add_0_r, Z.mod_small; lia.
  - unfold Sampler.run_sampler. cbn [fold_left].
    fold (Sampler.run_sampler k readings (Sampler.tick k s x)).
    rewrite delivered_cons. destruct x as [sample|]; cbn [Sampler.tick].
    2:{ apply IH; done. }
    destruct (SpscProofs.push_overwrite_spec k Hk (Sampler.ring s) sample Hok)
      as (Hok' & Hc & Hret).
    pose proof (SpscLaws.occupancy_le_cap k Hk (Sampler.ring s)) as Hle.
    destruct (push_overwrite k (Sampler.ring s) sample) as [ok ring'].
    cbn [fst snd] in Hok', Hc, Hret.
    set (s1 := Sampler.mk _ _).
    assert (Hocc : occupancy k ring'
                   = Nat.min (occupancy k (Sampler.ring s) + 1) cap).
    { rewrite <- !SpscProofs.contents_length, Hc. unfold lastn.
      rewrite length_drop, length_app, SpscProofs.contents_length. simpl. lia. }
    assert (Hd1 : 0 <= Sampler.dropped_ s1 < 2 ^ 64).
    { subst s1. cbn [Sampler.dropped_]. destruct ok; cbn [negb]; [done|].
      unfold wrap64. apply Z.mod_pos_bound. lia. }
    destruct (IH s1 Hok' Hd1) as (H1 & H2 & H3 & H4).
    subst s1. cbn [Sampler.ring Sampler.dropped_] in *.
    split; [done|]. split; [|split].
    + rewrite H2, Hc, (SpscProofs.lastn_app_lastn k Hk), <- app_assoc. done.
    + rewrite H3, Hocc. cbn [length]. lia.
    + rewrite H4, Hocc. cbn [length]. subst ok.
      case_bool_decide as Hfree; cbn [negb].
      * do 2 f_equal. lia.
      * unfold wrap64. rewrite Zplus_mod_idemp_l. f_equal. lia.
Qed.

End Producer.

(** A ring of four slots and five passes, one of them without a reading:
    the first of the four readings is dropped. *)
Lemma run_sampler_accounting_witness :
  (2 < 64)%nat ∧ ring_ok 2 (Sampler.ring (Sampler.init (D:=float) 2)) ∧
  0 <= Sampler.dropped_ (Sampler.init (D:=float) 2) < 2 ^ 64 ∧
  Sampler.dropped
    (Sampler.run_sampler 2
       [Some (RuntimeScenario.reading 1); None; Some (RuntimeScenario.reading 2);
        Some (RuntimeScenario.reading 3); Some (RuntimeScenario.reading 4)]
       (Sampler.init (D:=float) 2)) = 1.
Proof.
  split; [lia|].
  assert (Hok : ring_ok 2 (Sampler.ring (Sampler.init (D:=float) 2)))
    by (apply SpscProofs.empty_ok; lia).
  split; [exact Hok|]. split; [simpl; lia|].
  destruct (run_sampler_accounting (D:=float) 2 ltac:(lia)
              [Some (RuntimeScenario.reading 1); None;
               Some (RuntimeScenario.reading 2);
               Some (RuntimeScenario.reading 3);
               Some (RuntimeScenario.reading 4)]
              (Sampler.init 2) Hok ltac:(simpl; lia)) as (_ & _ & _ & Hdrop).
  rewrite Hdrop. reflexivity.
Defined.

End SamplerProofs.

(** ** Proofs: what the Welford accumulator holds *)

Module WelfordLaws.
Import WelfordStats.

Section Exact.
Variable sq : Q → Q.
Local Instance exact_stats : Double Q := Q_Double sq.
Local Open Scope Q_scope.

Lemma Qsquare_nonneg (a : Q) : 0 <= a * a.
Proof. unfold Qle, Qmult. simpl. nia. Qed.

Lemma sum_sq_dev_nonneg (c : Q) (xs : list Q) : 0 <= sum_sq_dev c xs.
Proof.
  unfold sum_sq_dev. induction xs as [|x xs IH] using rev_ind.
  - unfold sum. simpl. apply Qle_refl.
  - rewrite map_app. cbn [map]. rewrite (WelfordProofs.sum_snoc sq).
    rewrite <- (Qplus_0_r 0). apply Qplus_le_compat; [exact IH|].
    apply Qsquare_nonneg.
Qed.

(** X6: in exact arithmetic the accumulated [m2] is the sum of the squared
    deviations from the running mean, so neither it nor the sample variance
    is ever negative: [stddev_sample] takes the square root of a
    non-negative number. *)
Theorem welford_variance_nonneg (xs : list Q) :
  (Z.of_nat (length xs) < 2 ^ 64)%Z →
  m2 (push_all xs) == sum_sq_dev (mean (push_all xs)) xs ∧
  0 <= m2 (push_all xs) ∧
  0 <= variance_sample (push_all xs).
Proof.
  intros Hlen.
  destruct (WelfordProofs.push_all_invariant sq xs Hlen) as (Hn & Hmean & Hm2).
  change (WelfordProofs.exact sq) with exact_stats in *.
  assert (Hdev : m2 (push_all xs) == sum_sq_dev (mean (push_all xs)) xs).
  { rewrite (WelfordProofs.sum_sq_dev_expand sq).
    change (WelfordProofs.exact sq) with exact_stats in *.
    rewrite Hm2, <- Hmean. ring. }
  assert (Hpos : 0 <= m2 (push_all xs)).
  { rewrite Hdev. apply sum_sq_dev_nonneg. }
  split; [exact Hdev|]. split; [exact Hpos|].
  unfold variance_sample. rewrite Hn.
  destruct (Z.ltb_spec 1 (Z.of_nat (length xs))) as [Hgt|_]; [|apply Qle_refl].
  simpl d_div. simpl d_of_Z.
  apply Qle_shift_div_l.
  - unfold wrap64. rewrite Z.mod_small by lia.
    change 0 with (inject_Z 0). rewrite <- Zlt_Qlt. lia.
  - rewrite Qmult_0_l. exact Hpos.
Qed.

Lemma sum_replicate (n : nat) (c : Q) :
  sum (replicate n c) == inject_Z (Z.of_nat n) * c.
Proof.
  induction n as [|n IH].
  - unfold sum. simpl. ring.
  - rewrite replicate_S_end, (WelfordProofs.sum_snoc sq), IH.
    rewrite Nat2Z.inj_succ, <- Z.add_1_r, inject_Z_plus. ring.
Qed.

Lemma sum_sq_replicate (n : nat) (c : Q) :
  sum_sq (replicate n c) == inject_Z (Z.of_nat n) * (c * c).
Proof.
  unfold sum_sq. rewrite <- sum_replicate.
  assert (Hmap : map (λ x : Q, (x * x)%D) (replicate n c) = replicate n (c * c))
    by (induction n as [|m IH]; cbn [replicate map]; [done | by rewrite IH]).
  rewrite Hmap. reflexivity.
Qed.

(** X7: a constant signal.  After any number of readings of the same
    value [c] the running mean is [c] and the sample variance is [0], in
    exact arithmetic. *)
Theorem welford_constant_signal (n : nat) (c : Q) :
  (0 < n)%nat → (Z.of_nat n < 2 ^ 64)%Z →
  num_samples (push_all (replicate n c)) = Z.of_nat n ∧
  mean (push_all (replicate n c)) == c ∧
  variance_sample (push_all (replicate n c)) == 0.
Proof.
  intros Hn Hlen.
  destruct (WelfordProofs.push_all_invariant sq (replicate n c))
    as (Hcount & Hmean & Hm2); [by rewrite length_replicate|].
  change (WelfordProofs.exact sq) with exact_stats in *.
  rewrite length_replicate in Hcount, Hmean.
  assert (Hnz : ¬ inject_Z (Z.of_nat n) == 0).
  { change 0 with (inject_Z 0). rewrite inject_Z_injective. lia. }
  assert (Hc : mean (push_all (replicate n c)) == c).
  { rewrite sum_replicate in Hmean.
    apply (Qmult_inj_l _ _ (inject_Z (Z.of_nat n))); done. }
  split; [done|]. split; [done|].
  unfold variance_sample. rewrite Hcount.
  destruct (Z.ltb_spec 1 (Z.of_nat n)) as [Hgt|_]; [|reflexivity].
  assert (Hzero : m2 (push_all (replicate n c)) == 0).
  { rewrite Hm2, Hc, sum_replicate, sum_sq_replicate. ring. }
  rewrite Hzero. simpl d_div. unfold Qdiv. apply Qmult_0_l.
Qed.

End Exact.

Lemma welford_variance_nonneg_witness :
  (Z.of_nat (length [2 # 1; 4 # 1; 9 # 1]) < 2 ^ 64)%Z ∧
  (0 <= variance_sample (H:=Q_Double id)
          (push_all (H:=Q_Double id) [2 # 1; 4 # 1; 9 # 1]))%Q.
Proof.
  split; [simpl; lia|].
  apply (welford_variance_nonneg id [2 # 1; 4 # 1; 9 # 1]%Q). simpl; lia.
Defined.

Lemma welford_constant_signal_witness :
  (0 < 3)%nat ∧ (Z.of_nat 3 < 2 ^ 64)%Z ∧
  (mean (push_all (H:=Q_Double id) (replicate 3 (12 # 10))) == 12 # 10)%Q.
Proof.
  split; [lia|]. split; [simpl; lia|].
  apply (welford_constant_signal id 3 (12 # 10)%Q); [lia | simpl; lia].
Defined.

End WelfordLaws.

(** ** Proofs: more on the window analyzer *)

Module WindowLaws.
Import WelfordAnalyzer WindowLimits.

Section Windows.
Context `{Double D}.

Lemma finalize_loop_zero_window (fuel : nat) :
  ∀ (t_micro : Z) (a : t D) out log,
    window_micro (cfg a) = 0 → finalize_loop fuel t_micro a out log = None.
Proof.
  induction fuel as [|fuel IH]; intros t_micro a out log HW; cbn [finalize_loop];
    rewrite HW;
    (assert (Hgo : (0 <=? wrap64 (t_micro - window_start_micro_sec a)) = true)
       by (apply Z.leb_le, Z.mod_pos_bound; lia));
    rewrite Hgo; [done|].
  destruct (WelfordAnalyzerProofs.FinalizeWindow_frame a) as (_ & Hcfg & _).
  destruct (FinalizeWindow a) as [out1 a1]. apply IH. simpl in *. congruence.
Qed.

(** X8: a window duration of zero.  The loop of [AnalyzeSample] then never
    ends: its condition compares an unsigned difference with [0].  No
    amount of fuel lets [AnalyzeSample] return, nor [AnalyzeBatch] on a
    batch that holds a sample. *)
Theorem zero_window_never_returns (a : t D) (fuel : nat) :
  window_micro (cfg a) = 0 →
  (∀ t_micro v, AnalyzeSample fuel a t_micro v = None) ∧
  (∀ s rest get_value, AnalyzeBatch fuel a (s :: rest) get_value = None).
Proof.
  intros HW.
  assert (Hsample : ∀ t_micro v, AnalyzeSample fuel a t_micro v = None).
  { intros t_micro v. unfold AnalyzeSample.
    rewrite finalize_loop_zero_window; [done|].
    destruct (window_start_micro_sec a =? 0); simpl; done. }
  split; [exact Hsample|].
  intros s rest get_value. unfold AnalyzeBatch. cbn [AnalyzeBatch_loop].
  by rewrite Hsample.
Qed.

Lemma grid_length (s W : Z) (n : nat) : length (grid s W n) = n.
Proof. revert s. induction n as [|n IH]; intros s; simpl; [done | by rewrite IH]. Qed.

(** X9: catching up.  A sample that comes [n] whole window durations after
    the start of the open window closes exactly those [n] windows, on the
    grid of the window start, and becomes the first sample of the window
    it lies in; of the windows closed, the caller gets the last one only
    (and the all-zero result when none was closed). *)
Theorem AnalyzeSample_catches_up (a : t D) (t_micro : Z) (v : D) (fuel : nat) :
  let W := window_micro (cfg a) in
  let s := window_start_micro_sec a in
  let n := Z.to_nat ((t_micro - s) / W) in
  0 < W → 0 < s <= t_micro → t_micro < 2 ^ 64 → (n ≤ fuel)%nat →
  ∃ out a' ws,
    AnalyzeSample fuel a t_micro v = Some (out, a', ws) ∧
    length ws = n ∧ map bounds ws = grid s W n ∧
    window_start_micro_sec a' = s + Z.of_nat n * W ∧
    window_start_micro_sec a' <= t_micro < window_start_micro_sec a' + W ∧
    window_end_micro_sec a' = t_micro ∧
    match n with
    | O => out = default_step ∧
           WfS a' = WelfordStats.push (WfS a) v
    | S _ => last ws = Some (result out) ∧
             WfS a' = WelfordStats.push WelfordStats.reset v
    end.
Proof.
  intros W s n HW Hs Hlt Hfuel.
  assert (Hq : 0 <= (t_micro - s) / W) by (apply Z.div_pos; lia).
  assert (Hn : Z.of_nat n = (t_micro - s) / W) by (subst n; lia).
  pose proof (Z.mul_div_le (t_micro - s) W HW) as Hlo.
  pose proof (Z.mul_succ_div_gt (t_micro - s) W HW) as Hhi.
  unfold AnalyzeSample.
  destruct (Z.eqb_spec (window_start_micro_sec a) 0) as [H0|_];
    [fold s in H0; lia|].
  destruct (WelfordAnalyzerProofs.finalize_loop_grid n fuel t_micro a default_step [])
    as (out & a2 & ws & Hrun & Hgrid & Hst & Hcf & Hz & Hnz);
    fold W s; try lia.
  rewrite Hrun. simpl app. eexists _, _, ws. split; [reflexivity|].
  cbn [window_start_micro_sec window_end_micro_sec WfS].
  fold W s in Hst. rewrite Hst.
  split; [|split; [done|]].
  { apply (f_equal length) in Hgrid. rewrite length_map in Hgrid.
    by rewrite Hgrid, grid_length. }
  split; [done|]. split; [lia|]. split; [done|].
  destruct n as [|m].
  - destruct Hz as [-> ->]; done.
  - destruct Hnz as [-> Hlast]; done.
Qed.

(** *** The stability debounce *)

Local Abbreviation within c := (λ w, WindowLimits.within_limits c w = true).

Lemma debounced_snoc (c : Analyzer_Config D) (hist : list (WindowResult.t D))
    (w : WindowResult.t D) :
  debounced c hist →
  (WindowResult.stable w = true →
   ∃ run, run `suffix_of` (hist ++ [w]) ∧ Forall (within c) run ∧
          stable_consecutive_windows_req c <= Z.of_nat (length run)) →
  debounced c (hist ++ [w]).
Proof.
  intros Hold Hnew i w' Hi Hs.
  destruct (decide (i < length hist)%nat) as [Hlt|Hge].
  - rewrite lookup_app_l in Hi by done.
    rewrite take_app_le by lia. by apply (Hold i w').
  - rewrite lookup_app_r in Hi by lia.
    destruct (i - length hist)%nat as [|j] eqn:Ej; [|by destruct j].
    injection Hi as <-.
    rewrite take_ge by (rewrite length_app; simpl; lia). by apply Hnew.
Qed.

Lemma FinalizeWindow_counted (c : Analyzer_Config D) (a : t D)
    (hist : list (WindowResult.t D)) :
  counted c a hist →
  counted c (FinalizeWindow a).2 (hist ++ [result (FinalizeWindow a).1]) ∧
  (WindowResult.stable (result (FinalizeWindow a).1) = true →
   ∃ run, run `suffix_of` (hist ++ [result (FinalizeWindow a).1]) ∧
          Forall (within c) run ∧
          stable_consecutive_windows_req c <= Z.of_nat (length run)).
Proof.
  intros (Hcfg & run & Hsuf & Hall & Hcount). unfold FinalizeWindow.
  destruct (WelfordStats.num_samples (WfS a) <? min_window_sample_size (cfg a)).
  - (* too few samples: the count starts again *)
    cbn [fst snd result WindowResult.stable cfg stable_window_count].
    split; [|discriminate]. split; [done|].
    exists []. split; [apply suffix_nil|]. split; [constructor | simpl; lia].
  - cbn [fst snd result WindowResult.stable cfg stable_window_count].
    match goal with |- context [if ?b then wrap64 _ else 0] =>
      destruct b eqn:Ewithin end.
    + (* within the limits: one more *)
      match goal with |- context [hist ++ [?w0]] => set (w := w0) end.
      assert (Hw : WindowLimits.within_limits c w = true).
      { subst w. unfold WindowLimits.within_limits. simpl.
        rewrite <- Hcfg. exact Ewithin. }
      assert (Hle : 0 <= wrap64 (stable_window_count a + 1)
                    <= Z.of_nat (length (run ++ [w]))).
      { rewrite length_app. simpl. unfold wrap64.
        pose proof (Z.mod_pos_bound (stable_window_count a + 1) (2 ^ 64)
                      ltac:(lia)).
        pose proof (Z.mod_le (stable_window_count a + 1) (2 ^ 64)
                      ltac:(lia) ltac:(lia)).
        lia. }
      assert (Hrun : run ++ [w] `suffix_of` hist ++ [w])
        by (by apply suffix_app).
      assert (Hall' : Forall (within c) (run ++ [w]))
        by (apply Forall_app; split; [done | by constructor]).
      split.
      * split; [done|]. exists (run ++ [w]). done.
      * intros Hs. apply Z.leb_le in Hs. exists (run ++ [w]).
        rewrite <- Hcfg. split; [done|]. split; [by rewrite Hcfg | lia].
    + (* outside: the count starts again *)
      split.
      * split; [done|]. exists []. split; [apply suffix_nil|].
        split; [constructor | simpl; lia].
      * intros Hs. apply Z.leb_le in Hs. exists [].
        split; [apply suffix_nil|]. split; [constructor|].
        rewrite <- Hcfg. simpl. lia.
Qed.

Lemma finalize_loop_counted (c : Analyzer_Config D) (fuel : nat) :
  ∀ (t_micro : Z) (a : t D) out log (hist : list (WindowResult.t D)) out' a' log',
    counted c a hist → debounced c hist →
    finalize_loop fuel t_micro a out log = Some (out', a', log') →
    ∃ ws, log' = log ++ ws ∧ counted c a' (hist ++ ws) ∧ debounced c (hist ++ ws).
Proof.
  induction fuel as [|fuel IH];
    intros t_micro a out log hist out' a' log' Hinv Hgood; cbn [finalize_loop];
    destruct (window_micro (cfg a) <=? wrap64 (t_micro - window_start_micro_sec a));
    try discriminate;
    try (intros [= <- <- <-]; exists []; by rewrite !app_nil_r).
  destruct (FinalizeWindow_counted c a hist Hinv) as [Hinv1 Hnew].
  destruct (FinalizeWindow a) as [out1 a1]. cbn [fst snd] in *.
  intros Hrun.
  eapply (IH _ _ _ _ (hist ++ [result out1])) in Hrun as (ws & -> & Hinv' & Hgood').
  - exists (result out1 :: ws). rewrite <- !app_assoc in *. done.
  - destruct Hinv1 as (Hcfg & run & Hrest). split; [done|]. exists run. done.
  - by apply debounced_snoc.
Qed.

Lemma feed_counted (c : Analyzer_Config D) (fuel : nat)
    (samples : list (Z * D)) :
  ∀ (a a' : t D) (hist log : list (WindowResult.t D)),
    counted c a hist → debounced c hist →
    feed fuel a samples = Some (a', log) →
    counted c a' (hist ++ log) ∧ debounced c (hist ++ log).
Proof.
  induction samples as [|[t_micro v] rest IH]; intros a a' hist log Hinv Hgood.
  - intros [= <- <-]. by rewrite app_nil_r.
  - cbn [feed]. unfold AnalyzeSample.
    set (a1 := if window_start_micro_sec a =? 0 then _ else a).
    assert (Hinv1 : counted c a1 hist).
    { subst a1. destruct (_ =? _); [|done].
      destruct Hinv as (Hcfg & Hrun). split; done. }
    destruct (finalize_loop fuel t_micro a1 default_step [])
      as [[[out a2] ws]|] eqn:Eloop; [|discriminate].
    destruct (finalize_loop_counted c fuel _ _ _ _ hist _ _ _ Hinv1 Hgood Eloop)
      as (ws' & -> & Hinv2 & Hgood2). simpl app.
    match goal with |- context [feed fuel ?a3 rest] =>
      destruct (feed fuel a3 rest) as [[a4 log4]|] eqn:Efeed; [|discriminate];
      assert (Hinv3 : counted c a3 (hist ++ ws'))
        by (destruct Hinv2 as (Hcfg & Hrun); split; done)
    end.
    intros [= <- <-]. rewrite app_assoc. by eapply IH.
Qed.

(** X10: the debounce.  From an analyzer whose stable count is zero (a new
    or reset one), a window is reported stable only at the end of a run of
    at least [stable_consecutive_windows_req] consecutive windows that each
    passed the test on standard deviation and drift: never earlier, and
    never across a window that failed it. *)
Theorem stable_needs_consecutive_windows (fuel : nat) (a a' : t D)
    (samples : list (Z * D)) (log : list (WindowResult.t D))
    (i : nat) (w : WindowResult.t D) :
  stable_window_count a = 0 →
  feed fuel a samples = Some (a', log) →
  log !! i = Some w → WindowResult.stable w = true →
  stable_consecutive_windows_req (cfg a) <= Z.of_nat i + 1 ∧
  ∃ run, run `suffix_of` take (S i) log ∧
         stable_consecutive_windows_req (cfg a) <= Z.of_nat (length run) ∧
         Forall (λ w', WindowLimits.within_limits (cfg a) w' = true) run.
Proof.
  intros Hzero Hfeed Hi Hs.
  destruct (feed_counted (cfg a) fuel samples a a' [] log) as [_ Hgood];
    [split; [done|]; exists []; rewrite Hzero; by repeat split; try constructor
    | by intros j w0 Hj | done |].
  destruct (Hgood i w Hi Hs) as (run & Hsuf & Hall & Hreq).
  split; [|by exists run].
  apply suffix_length in Hsuf. rewrite length_take in Hsuf. lia.
Qed.

(** *** [AnalyzeBatch] *)

Lemma finalize_loop_out (P : StepResult (WindowResult.t D) → Prop) (fuel : nat) :
  (∀ a, P (FinalizeWindow a).1) →
  ∀ (t_micro : Z) (a : t D) out log res,
    P out → finalize_loop fuel t_micro a out log = Some res → P res.1.1.
Proof.
  intros HP. induction fuel as [|fuel IH]; intros t_micro a out log res Hout;
    cbn [finalize_loop];
    destruct (window_micro (cfg a) <=? wrap64 (t_micro - window_start_micro_sec a));
    try discriminate; try (by intros [= <-]).
  specialize (HP a). destruct (FinalizeWindow a) as [out1 a1]. by apply IH.
Qed.

(** The steps of the analyzer carry no decision: that is the processors'
    part. *)
Lemma AnalyzeSample_undecided (fuel : nat) (a : t D) (t_micro : Z) (v : D) res :
  AnalyzeSample fuel a t_micro v = Some res →
  action res.1.1 = Continue ∧ event res.1.1 = Event.None.
Proof.
  unfold AnalyzeSample.
  destruct (finalize_loop fuel t_micro _ default_step []) as [[[out a2] log]|] eqn:E;
    [|discriminate].
  intros [= <-]. cbn [fst].
  apply (finalize_loop_out (λ s, action s = Continue ∧ event s = Event.None)
           fuel) in E; [done | | done].
  intros a0. unfold FinalizeWindow. destruct (_ <? _); done.
Qed.

Lemma AnalyzeBatch_loop_shape (fuel : nat) (Samples : list (Sample D))
    (get_value : Sample D → D) :
  ∀ (a a' : t D) (last_finalized step : StepResult (WindowResult.t D)),
    action last_finalized = Continue → event last_finalized = Event.None →
    WindowResult.stable (result last_finalized) = false →
    AnalyzeBatch_loop fuel a Samples get_value last_finalized = Some (step, a') →
    action step = Continue ∧ event step = Event.None ∧
    (WindowResult.stable (result step) = true →
     WindowResult.window_end_us (result step) ≠ 0).
Proof.
  induction Samples as [|s rest IH]; intros a a' last_finalized step Ha He Hs;
    cbn [AnalyzeBatch_loop].
  - intros [= <- <-]. split; [done|]. split; [done|]. congruence.
  - destruct (AnalyzeSample fuel a (t_us s) (get_value s))
      as [[[step1 a1] log]|] eqn:E; [|discriminate].
    apply AnalyzeSample_undecided in E as [Ha1 He1]. cbn [fst] in *.
    destruct (Z.eqb_spec (WindowResult.window_end_us (result step1)) 0) as [|Hend].
    + by apply IH.
    + destruct (WindowResult.stable (result step1)) eqn:Es1.
      * intros [= <- <-]. done.
      * by apply IH.
Qed.

Lemma AnalyzeBatch_shape (fuel : nat) (a a' : t D) (Samples : list (Sample D))
    (get_value : Sample D → D) (step : StepResult (WindowResult.t D)) :
  AnalyzeBatch fuel a Samples get_value = Some (step, a') →
  action step = Continue ∧ event step = Event.None ∧
  (WindowResult.stable (result step) = true →
   WindowResult.window_end_us (result step) ≠ 0).
Proof. by apply AnalyzeBatch_loop_shape. Qed.

Lemma AnalyzeBatch_loop_stops (fuel : nat) (Samples : list (Sample D))
    (get_value : Sample D → D) :
  ∀ (a a' : t D) (last_finalized step : StepResult (WindowResult.t D))
    (more : list (Sample D)),
    WindowResult.stable (result last_finalized) = false →
    AnalyzeBatch_loop fuel a Samples get_value last_finalized = Some (step, a') →
    WindowResult.stable (result step) = true →
    AnalyzeBatch_loop fuel a (Samples ++ more) get_value last_finalized
    = Some (step, a').
Proof.
  induction Samples as [|s rest IH]; intros a a' last_finalized step more Hs;
    cbn [AnalyzeBatch_loop app].
  - intros [= <- <-]. congruence.
  - destruct (AnalyzeSample fuel a (t_us s) (get_value s))
      as [[[step1 a1] log]|]; [|discriminate].
    destruct (WindowResult.window_end_us (result step1) =? 0).
    + by apply IH.
    + destruct (WindowResult.stable (result step1)) eqn:Es1; [done|].
      by apply IH.
Qed.

(** X11: [AnalyzeBatch] stops at the first stable window.  When it hands
    back a stable window, that window is a finalized one, and the samples
    of the batch that come after the one that closed it are not looked at:
    the same call on a longer batch gives the same step and leaves the
    analyzer in the same state. *)
Theorem AnalyzeBatch_stops_at_stable (fuel : nat) (a a' : t D)
    (Samples more : list (Sample D)) (get_value : Sample D → D)
    (step : StepResult (WindowResult.t D)) :
  AnalyzeBatch fuel a Samples get_value = Some (step, a') →
  WindowResult.stable (result step) = true →
  AnalyzeBatch fuel a (Samples ++ more) get_value = Some (step, a') ∧
  WindowResult.window_end_us (result step) ≠ 0.
Proof.
  intros Hrun Hs. split.
  - unfold AnalyzeBatch in *. by apply AnalyzeBatch_loop_stops.
  - destruct (AnalyzeBatch_shape fuel a a' Samples get_value step Hrun)
      as (_ & _ & Hend). by apply Hend.
Qed.

End Windows.

(** An analyzer with a window duration of zero. *)
Lemma zero_window_never_returns_witness :
  window_micro
    (cfg (init (D:=float)
            {| window_micro := 0; min_window_sample_size := 80;
               stddev_max := 0x1p-9%float; drift_per_sec_max := 0x1p-10%float;
               stable_consecutive_windows_req := 3 |})) = 0 ∧
  AnalyzeSample 1000
    (init (D:=float)
       {| window_micro := 0; min_window_sample_size := 80;
          stddev_max := 0x1p-9%float; drift_per_sec_max := 0x1p-10%float;
          stable_consecutive_windows_req := 3 |}) 7812 1%float = None.
Proof.
  split; [reflexivity|].
  apply (zero_window_never_returns
           (init (D:=float)
              {| window_micro := 0; min_window_sample_size := 80;
                 stddev_max := 0x1p-9%float; drift_per_sec_max := 0x1p-10%float;
                 stable_consecutive_windows_req := 3 |}) 1000).
  reflexivity.
Defined.

(** The default configuration, a window open since [1 us] and a sample
    three and a half seconds later: three windows are closed. *)
Lemma AnalyzeSample_catches_up_witness :
  0 < window_micro (Config.analyzer_cfg (D:=float)) ∧ 0 < 1 <= 3500001 ∧
  3500001 < 2 ^ 64 ∧
  ∃ out a' ws,
    AnalyzeSample 3
      {| cfg := Config.analyzer_cfg (D:=float); WfS := WelfordStats.reset;
         stable_window_count := 0; window_start_micro_sec := 1;
         window_end_micro_sec := 1; prev_window_mean := None |}
      3500001 1%float = Some (out, a', ws) ∧
    length ws = 3%nat.
Proof.
  split; [reflexivity|]. split; [lia|]. split; [lia|].
  destruct (AnalyzeSample_catches_up
              {| cfg := Config.analyzer_cfg (D:=float); WfS := WelfordStats.reset;
                 stable_window_count := 0; window_start_micro_sec := 1;
                 window_end_micro_sec := 1; prev_window_mean := None |}
              3500001 1%float 3)
    as (out & a' & ws & Hrun & Hlen & _);
    [reflexivity | simpl; lia | lia | vm_compute; lia |].
  exists out, a', ws. split; [exact Hrun | exact Hlen].
Defined.

(** With one-sample windows and a requirement of one window, the first
    window closed is stable. *)
Lemma stable_needs_consecutive_windows_witness :
  stable_window_count (init (D:=float) Scenario.eager_cfg) = 0 ∧
  ∃ a' log w,
    feed 4 (init (D:=float) Scenario.eager_cfg)
      [(1, 1%float); (1000001, 1%float)] = Some (a', log) ∧
    log !! 0%nat = Some w ∧ WindowResult.stable w = true ∧
    stable_consecutive_windows_req (cfg (init (D:=float) Scenario.eager_cfg))
      <= Z.of_nat 0 + 1.
Proof.
  split; [reflexivity|].
  eexists _, _, _.
  assert (Hfeed : feed 4 (init (D:=float) Scenario.eager_cfg)
                    [(1, 1%float); (1000001, 1%float)]
                  = Some (_, [_])) by (vm_compute; reflexivity).
  split; [exact Hfeed|]. split; [reflexivity|]. split; [reflexivity|].
  apply (stable_needs_consecutive_windows 4 (init (D:=float) Scenario.eager_cfg)
           _ _ _ 0%nat _ eq_refl Hfeed eq_refl eq_refl).
Defined.

Lemma AnalyzeBatch_stops_at_stable_witness :
  ∃ step a',
    AnalyzeBatch 4 (init (D:=float) Scenario.eager_cfg)
      RuntimeScenario.first_batch get_volts = Some (step, a') ∧
    WindowResult.stable (result step) = true ∧
    AnalyzeBatch 4 (init (D:=float) Scenario.eager_cfg)
      (RuntimeScenario.first_batch ++ RuntimeScenario.second_batch) get_volts
    = Some (step, a').
Proof.
  eexists _, _.
  assert (Hrun : AnalyzeBatch 4 (init (D:=float) Scenario.eager_cfg)
                   RuntimeScenario.first_batch get_volts = Some (_, _))
    by (vm_compute; reflexivity).
  split; [exact Hrun|]. split; [reflexivity|].
  apply (AnalyzeBatch_stops_at_stable 4 (init (D:=float) Scenario.eager_cfg) _
           RuntimeScenario.first_batch RuntimeScenario.second_batch
           get_volts _ Hrun eq_refl).
Defined.

End WindowLaws.

(** ** Proofs: more on the breath state machine *)

Module BreathLaws.
Import BreathAnalyzer BreathAnalyzerMore.

Section Machine.
Context `{Double D}.

Local Abbreviation state_after b w r := (AnalyzeBreath b w r).1.1.2.
Local Abbreviation result_after b w r := (AnalyzeBreath b w r).1.2.
Local Abbreviation returns b w r := (AnalyzeBreath b w r).1.1.1.
Local Abbreviation event_of b w r := (AnalyzeBreath b w r).2.

Lemma AnalyzeBreath_settled (b_cfg : BreathAnalyzer_Config D) (b : t D)
    (w : WindowResult.t D) (r : BreathResult D) :
  settled b_cfg b →
  settled b_cfg (state_after b w r) ∧
  (bWarmedup b = true → bWarmedup (state_after b w r) = true).
Proof.
  destruct b as [c st n1 n2 u1 u2 u3 pk warm found frz].
  unfold settled, AnalyzeBreath. cbn [bcfg bWarmedup bFoundbaseline breath_state].
  intros [-> Hin].
  destruct (WindowResult.window_end_us w =? 0); [done|].
  destruct warm; cbn [negb].
  - destruct Hin as [-> Hst]; [done|].
    destruct st; try discriminate Hst; cbn.
    + unfold UpdateBaseline; cbn. destruct (WindowResult.stable w); cbn;
        unfold Ready; destruct (_ <? _)%D; cbn; done.
    + unfold Processing; cbn. destruct (negb _ && negb _); cbn; [done|].
      destruct (_ <? _); cbn; done.
    + unfold UpdateBaseline; cbn. destruct (WindowResult.stable w); cbn;
        unfold Cooldown; cbn; destruct (WindowResult.stable w && _); cbn;
        try destruct (_ <=? _); cbn; done.
    + done.
  - unfold UpdateBaseline; cbn.
    destruct (WindowResult.stable w); cbn; destruct found; cbn;
      unfold Warmup; cbn; try destruct (_ <=? _); cbn;
      (split; [|discriminate]); (split; [done|]); done.
Qed.

Lemma reachable_settled (b_cfg : BreathAnalyzer_Config D) (b : t D) :
  reachable b_cfg b → settled b_cfg b.
Proof.
  induction 1 as [|b w r _ IH].
  - split; [done | discriminate].
  - by apply AnalyzeBreath_settled.
Qed.

(** X12: a warmed-up machine stays in service.  Once the warm-up is over
    the machine never goes back to [Warmup]: after any further windows it
    is still warmed up, in one of the phases [Ready], [Processing],
    [Analyzed] and [Cooldown] (so the [Warmup]/[default] branch of the
    switch in [AnalyzeBreath] is never taken), with the configuration it
    was built with. *)
Theorem warmed_machine_stays_in_service (b_cfg : BreathAnalyzer_Config D)
    (b : t D) (r : BreathResult D) (ws : list (WindowResult.t D)) :
  reachable b_cfg b → bWarmedup b = true →
  in_service (breath_state b) = true ∧
  bWarmedup (run b r ws).1 = true ∧
  in_service (breath_state (run b r ws).1) = true ∧
  bcfg (run b r ws).1 = b_cfg.
Proof.
  intros Hreach Hwarm.
  pose proof (reachable_settled _ _ Hreach) as Hset.
  split; [by apply Hset|].
  clear Hreach. revert b r Hset Hwarm.
  induction ws as [|w ws IH]; intros b r Hset Hwarm; cbn [run].
  - destruct Hset as [Hc Hin]. destruct (Hin Hwarm). done.
  - destruct (AnalyzeBreath_settled b_cfg b w r Hset) as [Hset' Hwarm'].
    destruct (AnalyzeBreath b w r) as [[[ret b'] r'] ev]. cbn [fst snd] in *.
    apply IH; [done | by apply Hwarm'].
Qed.

(** X13: what moves the baseline.  Once the warm-up is over, a finalized
    window moves the baseline (mean and standard deviation, each by the
    exponentially weighted moving average) when it is stable and the
    machine is in [Ready] or [Cooldown]; in every other case, a breath in
    progress included, the baseline stays as it is. *)
Theorem baseline_follows_quiet_air (b_cfg : BreathAnalyzer_Config D) (b : t D)
    (w : WindowResult.t D) (r : BreathResult D) :
  reachable b_cfg b → bWarmedup b = true → finalized w →
  let alpha := baseline_alpha b_cfg in
  if WindowResult.stable w && follows_baseline (breath_state b) then
    baseline_mean (result_after b w r)
      = ewma alpha (baseline_mean r) (WindowResult.mean w) ∧
    baseline_std (result_after b w r)
      = ewma alpha (baseline_std r) (WindowResult.stddev w)
  else
    baseline_mean (result_after b w r) = baseline_mean r ∧
    baseline_std (result_after b w r) = baseline_std r.
Proof.
  intros Hreach Hwarm Hfin.
  destruct (reachable_settled _ _ Hreach) as [Hcfg Hin].
  destruct (Hin Hwarm) as [Hfound Hst]. clear Hin Hreach.
  destruct b as [c st n1 n2 u1 u2 u3 pk warm found frz].
  cbn [bcfg bWarmedup bFoundbaseline breath_state] in *. subst c warm found.
  unfold finalized in Hfin. unfold AnalyzeBreath.
  destruct (Z.eqb_spec (WindowResult.window_end_us w) 0) as [|_]; [done|].
  cbn [bWarmedup negb breath_state].
  destruct st; try discriminate Hst; cbn [follows_baseline].
  - unfold UpdateBaseline; cbn. destruct (WindowResult.stable w); cbn;
      unfold Ready; destruct (_ <? _)%D; cbn; done.
  - rewrite andb_false_r. unfold Processing; cbn.
    destruct (negb _ && negb _); cbn; [done|]. destruct (_ <? _); cbn; done.
  - unfold UpdateBaseline; cbn. destruct (WindowResult.stable w) eqn:Es; cbn;
      unfold Cooldown; cbn; rewrite Es; cbn;
      try destruct (_ <=? _)%D; cbn; try destruct (_ <=? _); cbn; done.
  - rewrite andb_false_r. done.
Qed.

(** X14: the event after a breath.  The window that ends a breath
    ([AnalyzeBreath] returns [true]) leaves the machine in [Analyzed]; the
    next finalized window then hands out the [Analyzed] event, whose peak
    is the peak of the breath ([std::max] of the running peak and the last
    window mean), and takes the machine to [Cooldown] with the count at
    zero, returning [false]. *)
Theorem analyzed_event_carries_peak (b : t D) (w w2 : WindowResult.t D)
    (r : BreathResult D) :
  returns b w r = true → finalized w2 →
  let b1 := state_after b w r in
  let r1 := result_after b w r in
  peak_voltage (event_of b w r)
    = d_max (cur_peak_voltage b) (WindowResult.mean w) ∧
  State (event_of b1 w2 r1) = BreathAnalyzerState.Analyzed ∧
  peak_voltage (event_of b1 w2 r1) = peak_voltage (event_of b w r) ∧
  returns b1 w2 r1 = false ∧
  breath_state (state_after b1 w2 r1) = BreathAnalyzerState.Cooldown ∧
  cooldown_stable_count (state_after b1 w2 r1) = 0.
Proof.
  intros Hret Hfin2.
  destruct (BreathAnalyzerProofs.emitted_event b w r Hret)
    as (Hwarm & Hst & Hfin & Hst1 & _ & Hev).
  destruct (BreathAnalyzerProofs.processing_step b w r Hwarm Hst Hfin)
    as (Hpk & _ & Hwarm1 & _).
  assert (Hr1 : peak_volts (result_after b w r)
                = d_max (cur_peak_voltage b) (WindowResult.mean w)).
  { clear Hret Hst1 Hev Hpk Hwarm1. unfold finalized in Hfin.
    unfold AnalyzeBreath.
    destruct (Z.eqb_spec (WindowResult.window_end_us w) 0) as [|_]; [done|].
    rewrite Hwarm, Hst. cbn [negb]. unfold Processing. cbn.
    destruct (negb _ && negb _); cbn; [done|]. destruct (_ <? _); cbn; done. }
  cbv zeta. rewrite Hev. cbn [peak_voltage]. split; [done|].
  revert Hst1 Hwarm1 Hr1.
  generalize (state_after b w r) (result_after b w r). intros b1 r1 Hst1 Hwarm1 Hr1.
  unfold finalized in Hfin2. unfold AnalyzeBreath.
  destruct (Z.eqb_spec (WindowResult.window_end_us w2) 0) as [|_]; [done|].
  rewrite Hwarm1, Hst1. cbn. done.
Qed.

Lemma run_cons (b : t D) (r : BreathResult D) (w : WindowResult.t D)
    (ws : list (WindowResult.t D)) :
  run b r (w :: ws) = run (state_after b w r) (result_after b w r) ws.
Proof. cbn [run]. by destruct (AnalyzeBreath b w r) as [[[ret b'] r'] ev]. Qed.

(** One window of a cool-down. *)
Lemma cooldown_step (b : t D) (w : WindowResult.t D) (r : BreathResult D) :
  bWarmedup b = true → breath_state b = BreathAnalyzerState.Cooldown →
  finalized w →
  let c := cooldown_stable_windows (bcfg b) in
  let count := wrap32 (cooldown_stable_count b + 1) in
  let b' := state_after b w r in
  bWarmedup b' = true ∧ bcfg b' = bcfg b ∧
  if WindowResult.stable w
     && (WindowResult.mean w
           <=? threshold r (ready_delta_v (bcfg b)) (ready_k_sigma (bcfg b)))%D
  then
    if c <=? count then
      breath_state b' = BreathAnalyzerState.Ready ∧
      cooldown_stable_count b' = 0 ∧
      cur_peak_voltage b' = d_zero ∧ peak_volts (result_after b w r) = d_zero
    else
      breath_state b' = BreathAnalyzerState.Cooldown ∧
      cooldown_stable_count b' = count
  else
    breath_state b' = BreathAnalyzerState.Cooldown ∧
    cooldown_stable_count b' = 0.
Proof.
  intros Hwarm Hst Hfin.
  destruct b as [c st n1 n2 u1 u2 u3 pk warm found frz].
  cbn [bcfg bWarmedup breath_state cooldown_stable_count] in *. subst warm st.
  unfold finalized in Hfin. unfold AnalyzeBreath.
  destruct (Z.eqb_spec (WindowResult.window_end_us w) 0) as [|_]; [done|].
  cbn [bWarmedup negb breath_state]. unfold UpdateBaseline, threshold.
  destruct found; cbn;
    (destruct (WindowResult.stable w) eqn:Es; cbn; unfold Cooldown; cbn;
     rewrite Es; cbn; [|done]);
    (destruct (_ <=? _)%D; cbn; [|done]);
    (destruct (cooldown_stable_windows c <=? wrap32 (n2 + 1)); cbn; done).
Qed.

Lemma cooldown_run (ws : list (WindowResult.t D)) :
  ∀ (b : t D) (r : BreathResult D),
    let c := cooldown_stable_windows (bcfg b) in
    bWarmedup b = true → breath_state b = BreathAnalyzerState.Cooldown →
    0 <= cooldown_stable_count b → c < 2 ^ 16 →
    all_quiet b r ws →
    cooldown_stable_count b + Z.of_nat (length ws) < Z.max 1 c →
    bWarmedup (run b r ws).1 = true ∧
    breath_state (run b r ws).1 = BreathAnalyzerState.Cooldown ∧
    cooldown_stable_count (run b r ws).1
      = cooldown_stable_count b + Z.of_nat (length ws) ∧
    bcfg (run b r ws).1 = bcfg b ∧
    ∀ ws', all_quiet b r (ws ++ ws') →
           all_quiet (run b r ws).1 (run b r ws).2 ws'.
Proof.
  induction ws as [|w ws IH]; intros b r c Hwarm Hst Hn Hc Hq Hlen.
  - cbn [run length]. rewrite Z.add_0_r. done.
  - destruct Hq as [(Hfin & Hs & Hthr) Hq]. cbn [length] in Hlen.
    rewrite Nat2Z.inj_succ in Hlen.
    pose proof (cooldown_step b w r Hwarm Hst Hfin) as Hstep.
    cbv zeta in Hstep. rewrite Hs, Hthr in Hstep. cbn [andb] in Hstep.
    assert (Hcount : wrap32 (cooldown_stable_count b + 1)
                     = cooldown_stable_count b + 1).
    { apply BreathAnalyzerProofs.wrap32_small. subst c. lia. }
    rewrite Hcount in Hstep. fold c in Hstep.
    destruct (Z.leb_spec c (cooldown_stable_count b + 1)) as [Hle|Hgt]; [lia|].
    destruct Hstep as (Hwarm' & Hcfg' & Hst' & Hn').
    rewrite run_cons.
    destruct (IH (state_after b w r) (result_after b w r))
      as (H1 & H2 & H3 & H4 & H5); try done.
    + lia.
    + rewrite Hcfg'. fold c. done.
    + rewrite Hcfg', Hn'. fold c. lia.
    + split; [done|]. split; [done|].
      split; [rewrite H3, Hn'; cbn [length]; lia|].
      split; [congruence|].
      intros ws' [_ Hq']. by apply H5.
Qed.

(** X15: the cool-down.  From the start of a cool-down (the count at
    zero), quiet windows (stable, with a mean at or below the ready
    threshold of the moving baseline) keep the machine in [Cooldown], each
    adding one to the count, until the window number
    [max 1 cooldown_stable_windows], which takes it back to [Ready] with
    the count and both peak voltages cleared.  The cool-down takes the
    configured number of windows, where the warm-up takes one fewer. *)
Theorem cooldown_returns_to_ready (b : t D) (r : BreathResult D)
    (ws : list (WindowResult.t D)) (w : WindowResult.t D) :
  bWarmedup b = true → breath_state b = BreathAnalyzerState.Cooldown →
  cooldown_stable_count b = 0 →
  0 <= cooldown_stable_windows (bcfg b) < 2 ^ 16 →
  all_quiet b r (ws ++ [w]) →
  Z.of_nat (length ws) + 1 = Z.max 1 (cooldown_stable_windows (bcfg b)) →
  breath_state (run b r ws).1 = BreathAnalyzerState.Cooldown ∧
  cooldown_stable_count (run b r ws).1 = Z.of_nat (length ws) ∧
  breath_state (run b r (ws ++ [w])).1 = BreathAnalyzerState.Ready ∧
  cooldown_stable_count (run b r (ws ++ [w])).1 = 0 ∧
  cur_peak_voltage (run b r (ws ++ [w])).1 = d_zero ∧
  peak_volts (run b r (ws ++ [w])).2 = d_zero.
Proof.
  intros Hwarm Hst Hzero Hc Hq Hlen.
  assert (Hq0 : all_quiet b r ws).
  { clear -Hq. revert b r Hq. induction ws as [|w0 ws IH]; intros b r; [done|].
    intros [Hw Hq]. split; [done|]. by apply IH. }
  destruct (cooldown_run ws b r) as (H1 & H2 & H3 & H4 & H5); try done; try lia.
  rewrite Hzero, Z.add_0_l in H3. split; [done|]. split; [done|].
  specialize (H5 [w] Hq). cbn [all_quiet] in H5. unfold quiet in H5.
  destruct H5 as [(Hfin & Hs & Hthr) _].
  rewrite BreathAnalyzerProofs.run_app. cbn [run].
  revert H1 H2 H3 H4 Hfin Hs Hthr.
  destruct (run b r ws) as [b1 r1]. cbn [fst snd].
  intros H1 H2 H3 H4 Hfin Hs Hthr.
  pose proof (cooldown_step b1 w r1 H1 H2 Hfin) as Hstep.
  cbv zeta in Hstep. rewrite Hs, Hthr, H3, H4 in Hstep. cbn [andb] in Hstep.
  rewrite BreathAnalyzerProofs.wrap32_small in Hstep by lia.
  destruct (Z.leb_spec (cooldown_stable_windows (bcfg b))
              (Z.of_nat (length ws) + 1)) as [_|Hgt]; [|lia].
  destruct (AnalyzeBreath b1 w r1) as [[[ret b'] r'] ev]. cbn [fst snd] in *.
  destruct Hstep as (_ & _ & ? & ? & ? & ?). done.
Qed.

(** A warm-up whose baseline has been found: every stable window adds one
    to the count until the count reaches [warmup_stable_windows]. *)
Lemma rewarm_run (ws : list (WindowResult.t D)) :
  ∀ (b : t D) (r : BreathResult D),
    let W := warmup_stable_windows (bcfg b) in
    bWarmedup b = false → bFoundbaseline b = true →
    0 <= baseline_stable_count b → W < 2 ^ 16 →
    Forall finalized ws → Forall (λ w, WindowResult.stable w = true) ws →
    baseline_stable_count b + Z.of_nat (length ws) < W →
    bWarmedup (run b r ws).1 = false ∧
    bFoundbaseline (run b r ws).1 = true ∧
    baseline_stable_count (run b r ws).1
      = baseline_stable_count b + Z.of_nat (length ws) ∧
    bcfg (run b r ws).1 = bcfg b.
Proof.
  induction ws as [|w ws IH]; intros b r W Hwarm Hfound Hn HW Hfin Hst Hlen.
  - cbn [run length]. rewrite Z.add_0_r. done.
  - apply Forall_cons in Hfin as [Hw Hfin]. apply Forall_cons in Hst as [Hs Hst].
    cbn [length] in Hlen. rewrite Nat2Z.inj_succ in Hlen.
    pose proof (BreathAnalyzerProofs.warmup_step b w r Hwarm Hw) as Hstep.
    cbv zeta in Hstep. rewrite Hs, Hfound in Hstep.
    rewrite BreathAnalyzerProofs.wrap32_small in Hstep by (subst W; lia).
    fold W in Hstep.
    destruct (Z.leb_spec W (baseline_stable_count b + 1)) as [Hle|Hgt]; [lia|].
    destruct Hstep as (Hcfg' & Hwarm' & _ & Hfound' & Hn').
    rewrite run_cons.
    destruct (IH (state_after b w r) (result_after b w r))
      as (H1 & H2 & H3 & H4); try done.
    + lia.
    + rewrite Hcfg'. fold W. done.
    + rewrite Hcfg', Hn'. fold W. lia.
    + split; [done|]. split; [done|].
      split; [rewrite H3, Hn'; cbn [length]; lia | congruence].
Qed.

(** X16: [reset] during a warm-up.  [reset] clears the count of stable
    windows (and the peak and the breath start) and keeps the baseline
    found, so the first stable window is not counted twice the second time
    round: after [reset] the machine enters [Ready] on stable window number
    [warmup_stable_windows], all of them, and not before. *)
Theorem reset_restarts_the_warmup_count (b : t D) (r : BreathResult D)
    (ws : list (WindowResult.t D)) (w : WindowResult.t D) :
  bWarmedup b = false → bFoundbaseline b = true →
  0 < warmup_stable_windows (bcfg b) < 2 ^ 16 →
  Forall finalized (ws ++ [w]) →
  Forall (λ w, WindowResult.stable w = true) (ws ++ [w]) →
  Z.of_nat (length ws) + 1 = warmup_stable_windows (bcfg b) →
  baseline_stable_count (reset b r).1 = 0 ∧
  cur_peak_voltage (reset b r).1 = d_zero ∧ peak_volts (reset b r).2 = d_zero ∧
  bWarmedup (run (reset b r).1 (reset b r).2 ws).1 = false ∧
  baseline_stable_count (run (reset b r).1 (reset b r).2 ws).1
    = Z.of_nat (length ws) ∧
  bWarmedup (run (reset b r).1 (reset b r).2 (ws ++ [w])).1 = true ∧
  breath_state (run (reset b r).1 (reset b r).2 (ws ++ [w])).1
    = BreathAnalyzerState.Ready.
Proof.
  intros Hwarm Hfound HW Hfin Hst Hlen.
  apply Forall_app in Hfin as [Hfin Hw]. apply Forall_inv in Hw.
  apply Forall_app in Hst as [Hst Hs]. apply Forall_inv in Hs.
  split; [done|]. split; [done|]. split; [done|].
  set (b0 := (reset b r).1). set (r0 := (reset b r).2).
  assert (Hb0 : bWarmedup b0 = false ∧ bFoundbaseline b0 = true ∧
                baseline_stable_count b0 = 0 ∧ bcfg b0 = bcfg b)
    by (subst b0; cbn; done).
  destruct Hb0 as (Hwarm0 & Hfound0 & Hzero & Hcfg0).
  destruct (rewarm_run ws b0 r0) as (H1 & H2 & H3 & H4);
    rewrite ?Hcfg0, ?Hzero; try done; try lia.
  rewrite Hzero, Z.add_0_l in H3. rewrite Hcfg0 in H4.
  split; [done|]. split; [done|].
  rewrite BreathAnalyzerProofs.run_app. cbn [run].
  revert H1 H2 H3 H4. destruct (run b0 r0 ws) as [b1 r1]. cbn [fst snd].
  intros H1 H2 H3 H4.
  pose proof (BreathAnalyzerProofs.warmup_step b1 w r1 H1 Hw) as Hstep.
  cbv zeta in Hstep. rewrite Hs, H2, H3, H4 in Hstep.
  rewrite BreathAnalyzerProofs.wrap32_small in Hstep by lia.
  destruct (Z.leb_spec (warmup_stable_windows (bcfg b))
              (Z.of_nat (length ws) + 1)) as [_|Hgt]; [|lia].
  destruct (AnalyzeBreath b1 w r1) as [[[ret b'] r'] ev]. cbn [fst snd] in *.
  destruct Hstep as (_ & ? & ?). done.
Qed.

End Machine.

Lemma warmed_machine_stays_in_service_witness :
  reachable BreathScenario.cfg BreathScenario.ready ∧
  bWarmedup BreathScenario.ready = true ∧
  in_service
    (breath_state
       (run BreathScenario.ready BreathScenario.ready_result
          [BreathScenario.trigger; BreathScenario.rising]).1) = true.
Proof.
  assert (Hreach : reachable BreathScenario.cfg BreathScenario.ready)
    by apply BreathAnalyzerProofs.run_reachable, reachable_init.
  split; [exact Hreach|]. split; [reflexivity|].
  apply (warmed_machine_stays_in_service BreathScenario.cfg BreathScenario.ready
           BreathScenario.ready_result
           [BreathScenario.trigger; BreathScenario.rising] Hreach eq_refl).
Defined.

(** A quiet window in [Ready] moves the baseline. *)
Lemma baseline_follows_quiet_air_witness :
  reachable BreathScenario.cfg BreathScenario.ready ∧
  bWarmedup BreathScenario.ready = true ∧
  finalized (Scenario.quiet (D:=float) 1000001) ∧
  baseline_mean
    (AnalyzeBreath BreathScenario.ready (Scenario.quiet 1000001)
       BreathScenario.ready_result).1.2
  = ewma (baseline_alpha BreathScenario.cfg)
      (baseline_mean BreathScenario.ready_result)
      (WindowResult.mean (Scenario.quiet (D:=float) 1000001)).
Proof.
  assert (Hreach : reachable BreathScenario.cfg BreathScenario.ready)
    by apply BreathAnalyzerProofs.run_reachable, reachable_init.
  assert (Hfin : finalized (Scenario.quiet (D:=float) 1000001))
    by (unfold finalized; simpl; lia).
  split; [exact Hreach|]. split; [reflexivity|]. split; [exact Hfin|].
  apply (baseline_follows_quiet_air BreathScenario.cfg BreathScenario.ready
           (Scenario.quiet 1000001) BreathScenario.ready_result
           Hreach eq_refl Hfin).
Defined.

(** The breath of [BreathScenario]: the window after the one that ends it
    hands out the [Analyzed] event. *)
Lemma analyzed_event_carries_peak_witness :
  (AnalyzeBreath BreathScenario.blowing BreathScenario.falling
     BreathScenario.blowing_result).1.1.1 = true ∧
  finalized (Scenario.quiet (D:=float) 4000001) ∧
  State
    (AnalyzeBreath
       (AnalyzeBreath BreathScenario.blowing BreathScenario.falling
          BreathScenario.blowing_result).1.1.2
       (Scenario.quiet 4000001)
       (AnalyzeBreath BreathScenario.blowing BreathScenario.falling
          BreathScenario.blowing_result).1.2).2
  = BreathAnalyzerState.Analyzed.
Proof.
  assert (Hfin : finalized (Scenario.quiet (D:=float) 4000001))
    by (unfold finalized; simpl; lia).
  split; [vm_compute; reflexivity|]. split; [exact Hfin|].
  apply (analyzed_event_carries_peak BreathScenario.blowing BreathScenario.falling
           (Scenario.quiet 4000001) BreathScenario.blowing_result);
    [vm_compute; reflexivity | exact Hfin].
Defined.

(** The default cool-down of 25 windows. *)
Lemma cooldown_returns_to_ready_witness :
  bWarmedup BreathScenario.cooling = true ∧
  breath_state BreathScenario.cooling = BreathAnalyzerState.Cooldown ∧
  cooldown_stable_count BreathScenario.cooling = 0 ∧
  all_quiet BreathScenario.cooling BreathScenario.cooling_result
    (replicate 24 (Scenario.quiet 5000001) ++ [Scenario.quiet 5000001]) ∧
  breath_state
    (run BreathScenario.cooling BreathScenario.cooling_result
       (replicate 24 (Scenario.quiet 5000001) ++ [Scenario.quiet 5000001])).1
  = BreathAnalyzerState.Ready.
Proof.
  assert (Hquiet : all_quiet BreathScenario.cooling BreathScenario.cooling_result
            (replicate 24 (Scenario.quiet 5000001) ++ [Scenario.quiet 5000001])).
  { vm_compute. repeat split; intros Hx; discriminate Hx. }
  split; [reflexivity|]. split; [reflexivity|]. split; [reflexivity|].
  split; [exact Hquiet|].
  apply (cooldown_returns_to_ready BreathScenario.cooling
           BreathScenario.cooling_result
           (replicate 24 (Scenario.quiet 5000001)) (Scenario.quiet 5000001));
    [reflexivity | reflexivity | reflexivity
    | vm_compute; split; [intros Hx; discriminate Hx | reflexivity]
    | exact Hquiet | reflexivity].
Defined.

(** A warm-up of three windows, reset after its first stable window: three
    more are needed. *)
Lemma reset_restarts_the_warmup_count_witness :
  bWarmedup BreathScenario.warming = false ∧
  bFoundbaseline BreathScenario.warming = true ∧
  breath_state
    (run (reset BreathScenario.warming default_result).1
         (reset BreathScenario.warming default_result).2
         ([Scenario.quiet 1000001; Scenario.quiet 2000001]
            ++ [Scenario.quiet 3000001])).1
  = BreathAnalyzerState.Ready.
Proof.
  split; [reflexivity|]. split; [reflexivity|].
  apply (reset_restarts_the_warmup_count BreathScenario.warming default_result
           [Scenario.quiet 1000001; Scenario.quiet 2000001]
           (Scenario.quiet 3000001));
    [reflexivity | reflexivity | vm_compute; split; [reflexivity | reflexivity]
    | repeat constructor; unfold finalized; simpl; lia
    | repeat constructor | reflexivity].
Defined.

End BreathLaws.

(** ** Proofs: the two processors under the runner *)

Module ProcessorLaws.
Import ProcessRunner.

Section Calibration.
Context `{Double D}.

(** What a returning [on_batch] of the calibration has done. *)
Lemma calibration_on_batch (fuel : nat) (p p' : CalibrationProcess.t D)
    (sample : list (Sample D)) (step : StepResult (WindowResult.t D)) :
  CalibrationProcess.on_batch fuel p sample = Some (step, p') →
  (action step = Done ↔ WindowResult.stable (result step) = true) ∧
  action step ≠ Abort ∧ event step = Event.None ∧
  (action step = Done →
   CalibrationProcess.result p' = result step ∧
   WindowResult.window_end_us (result step) ≠ 0).
Proof.
  unfold CalibrationProcess.on_batch, CalibrationProcess.result.
  destruct (WelfordAnalyzer.AnalyzeBatch fuel (CalibrationProcess.analyzer_ p)
              sample get_volts) as [[wstep a]|] eqn:Ebatch; [|discriminate].
  destruct (WindowLaws.AnalyzeBatch_shape fuel _ _ _ _ _ Ebatch)
    as (Hact & Hev & Hend).
  intros [= <- <-].
  destruct (WindowResult.stable (result wstep)) eqn:Es; cbn.
  - specialize (Hend eq_refl). apply Z.eqb_neq in Hend as Hend'.
    rewrite Hend'. cbn. done.
  - rewrite Hact, Es. split; [split; intros Hx; discriminate Hx|].
    split; [discriminate|]. split; [done|]. intros Hx; discriminate Hx.
Qed.

(** X17: when the calibration is done.  With a positive window duration
    [on_batch] returns for every batch; it asks the runner to stop
    ([Done]) exactly when the batch gave a stable window, never aborts and
    never signals an event; and when it stops, the window [result()]
    returns from then on is that stable window, a finalized one. *)
Theorem calibration_done_means_stable (p : CalibrationProcess.t D)
    (sample : list (Sample D)) :
  0 < window_micro (WelfordAnalyzer.cfg (CalibrationProcess.analyzer_ p)) →
  ∃ fuel0 step p',
    (∀ fuel, (fuel0 ≤ fuel)%nat →
             CalibrationProcess.on_batch fuel p sample = Some (step, p')) ∧
    (action step = Done ↔ WindowResult.stable (result step) = true) ∧
    action step ≠ Abort ∧ event step = Event.None ∧
    (action step = Done →
     CalibrationProcess.result p' = result step ∧
     WindowResult.stable (CalibrationProcess.result p') = true ∧
     WindowResult.window_end_us (CalibrationProcess.result p') ≠ 0).
Proof.
  intros HW.
  destruct (WelfordAnalyzerProofs.AnalyzeBatch_loop_total sample get_volts
              (CalibrationProcess.analyzer_ p) WelfordAnalyzer.default_step HW)
    as (fuel0 & wstep & wa & Hbatch).
  fold (WelfordAnalyzer.AnalyzeBatch) in Hbatch.
  destruct (CalibrationProcess.on_batch fuel0 p sample) as [[step p']|] eqn:Erun.
  2:{ unfold CalibrationProcess.on_batch, WelfordAnalyzer.AnalyzeBatch in Erun.
      rewrite (Hbatch fuel0) in Erun by lia. discriminate. }
  exists fuel0, step, p'.
  destruct (calibration_on_batch _ _ _ _ _ Erun) as (Hdone & Habort & Hev & Hres).
  split; [|split; [done|]; split; [done|]; split; [done|]].
  - intros fuel Hfuel. rewrite <- Erun.
    unfold CalibrationProcess.on_batch, WelfordAnalyzer.AnalyzeBatch.
    rewrite (Hbatch fuel Hfuel), (Hbatch fuel0) by lia. done.
  - intros Hd. destruct (Hres Hd) as [Hr Hend].
    rewrite Hr. split; [done|]. split; [by apply Hdone | done].
Qed.

Variable k : nat.
Variable w : World (D:=D).
Variable consumer_config : Consumer_Config.
Variable on_process_event : CalibrationProcess.t D → CalibrationProcess.t D.
Variable analyzer_fuel : nat.

(** X18: why a calibration run ends.  Whatever the sampler delivers and
    whenever the clock is read, a run that returns has never called the
    event callback, and it returns for one of three reasons: it was
    stopped ([g_running] read as [false]), the timeout had elapsed at the
    reading of the clock in the last pass, or the result it returns is a
    stable, finalized window. *)
Theorem calibration_run_ends (fuel : nat) (p : CalibrationProcess.t D)
    (o : Outcome) :
  run (R:=WindowResult.t D) k w consumer_config on_process_event analyzer_fuel
    fuel p = Some o →
  callbacks o = 0%nat ∧
  (g_running w (iterations o) = false ∨
   Timeout consumer_config <= clock w (S (iterations o)) - clock w 0 ∨
   (WindowResult.stable (returned o) = true ∧
    WindowResult.window_end_us (returned o) ≠ 0)).
Proof.
  unfold run.
  assert (Hloop : ∀ fuel i calls ring (p : CalibrationProcess.t D) o,
            run_loop (R:=WindowResult.t D) k w consumer_config on_process_event
              analyzer_fuel fuel (clock w 0) i (S i) calls ring p = Some o →
            callbacks o = calls ∧
            (g_running w (iterations o) = false ∨
             Timeout consumer_config <= clock w (S (iterations o)) - clock w 0 ∨
             (WindowResult.stable (returned o) = true ∧
              WindowResult.window_end_us (returned o) ≠ 0)));
    [|by apply Hloop].
  clear fuel p o. induction fuel as [|fuel IH]; intros i calls ring p o;
    [discriminate|].
  cbn [run_loop].
  destruct (g_running w i) eqn:Erun; cbn [negb].
  2:{ intros [= <-]. cbn. split; [done|]. by left. }
  destruct (Spsc.pop_batch k (max_batch consumer_config) _) as [batch ring'].
  cbn [Proc.bEnableTimeout CalibrationProcess.processor].
  unfold timed_out.
  destruct batch as [|s batch].
  - destruct (Z.leb_spec (Timeout consumer_config) (clock w (S i) - clock w 0)).
    + intros [= <-]. cbn. split; [done|]. right. by left.
    + apply IH.
  - cbn [Proc.on_batch CalibrationProcess.processor].
    destruct (CalibrationProcess.on_batch analyzer_fuel p (s :: batch))
      as [[step p']|] eqn:Ebatch; [|discriminate].
    destruct (calibration_on_batch _ _ _ _ _ Ebatch)
      as (Hdone & Habort & Hev & Hres).
    rewrite Hev. cbn [Event.is_None negb].
    destruct (action step) eqn:Eact.
    + destruct (Z.leb_spec (Timeout consumer_config) (clock w (S i) - clock w 0)).
      * intros [= <-]. cbn. split; [done|]. right. by left.
      * apply IH.
    + intros [= <-]. cbn [callbacks returned iterations Proc.result
                          CalibrationProcess.processor].
      split; [done|]. right. right.
      destruct (Hres eq_refl) as (Hr & Hend). rewrite Hr.
      split; [by apply Hdone | done].
    + done.
Qed.

End Calibration.

Section Runtime.
Context `{Double D}.
Variable k : nat.
Variable w : World (D:=D).
Variable consumer_config : Consumer_Config.
Variable on_process_event : RuntimeProcess.t D → RuntimeProcess.t D.
Variable analyzer_fuel : nat.

Lemma runtime_on_batch_continues (fuel : nat) (p p' : RuntimeProcess.t D)
    (sample : list (Sample D)) (step : StepResult (BreathResult D)) :
  RuntimeProcess.on_batch fuel p sample = Some (step, p') →
  action step = Continue ∧ RuntimeProcess.result p' = result step.
Proof.
  unfold RuntimeProcess.on_batch, RuntimeProcess.result.
  destruct (WelfordAnalyzer.AnalyzeBatch _ _ _ _) as [[wstep a]|]; [|discriminate].
  destruct (negb _).
  - destruct (BreathAnalyzer.AnalyzeBreath _ _ _) as [[[ret ba] r'] ev].
    intros [= <- <-]. done.
  - intros [= <- <-]. done.
Qed.

(** X19: the runtime session runs until it is stopped.  The runtime
    processor never asks the runner to stop and has the timeout compiled
    out, so a run returns only in a pass in which [g_running] was read as
    [false], the first such pass, with at most one callback per pass
    before it. *)
Theorem runtime_runs_until_stopped (fuel : nat) (p : RuntimeProcess.t D)
    (o : Outcome) :
  run (R:=BreathResult D) k w consumer_config on_process_event analyzer_fuel
    fuel p = Some o →
  g_running w (iterations o) = false ∧
  (∀ j, (j < iterations o)%nat → g_running w j = true) ∧
  (callbacks o ≤ iterations o)%nat ∧
  returned o = RuntimeProcess.result (processor o).
Proof.
  unfold run.
  assert (Hloop : ∀ fuel i c calls ring (p : RuntimeProcess.t D) o,
            run_loop (R:=BreathResult D) k w consumer_config on_process_event
              analyzer_fuel fuel (clock w 0) i c calls ring p = Some o →
            (i ≤ iterations o)%nat ∧
            g_running w (iterations o) = false ∧
            (∀ j, (i ≤ j < iterations o)%nat → g_running w j = true) ∧
            (callbacks o ≤ calls + (iterations o - i))%nat ∧
            returned o = RuntimeProcess.result (processor o)).
  { clear fuel p o. induction fuel as [|fuel IH]; intros i c calls ring p o;
      [discriminate|].
    cbn [run_loop].
    destruct (g_running w i) eqn:Erun; cbn [negb].
    2:{ intros [= <-]. cbn. repeat split; try done; try lia. }
    destruct (Spsc.pop_batch k (max_batch consumer_config) _) as [batch ring'].
    cbn [Proc.bEnableTimeout RuntimeProcess.processor].
    assert (Hnext : ∀ calls' ring p o,
              (calls' ≤ S calls)%nat →
              run_loop (R:=BreathResult D) k w consumer_config on_process_event
                analyzer_fuel fuel (clock w 0) (S i) c calls' ring p = Some o →
              (i ≤ iterations o)%nat ∧
              g_running w (iterations o) = false ∧
              (∀ j, (i ≤ j < iterations o)%nat → g_running w j = true) ∧
              (callbacks o ≤ calls + (iterations o - i))%nat ∧
              returned o = RuntimeProcess.result (processor o)).
    { intros calls' ring0 p0 o0 Hcalls Hrun.
      destruct (IH _ _ _ _ _ _ Hrun) as (Hi & Hstop & Hgo & Hcb & Hret).
      split; [lia|]. split; [done|]. split; [|split; [lia | done]].
      intros j Hj. destruct (decide (j = i)) as [->|]; [done|]. apply Hgo. lia. }
    destruct batch as [|s batch].
    - apply Hnext. lia.
    - cbn [Proc.on_batch RuntimeProcess.processor].
      destruct (RuntimeProcess.on_batch analyzer_fuel p (s :: batch))
        as [[step p']|] eqn:Ebatch; [|discriminate].
      destruct (runtime_on_batch_continues _ _ _ _ _ Ebatch) as [-> _].
      destruct (negb (Event.is_None (event step))); apply Hnext; lia. }
  intros Hrun. destruct (Hloop _ _ _ _ _ _ _ Hrun) as (_ & Hstop & Hgo & Hcb & Hret).
  split; [done|]. split; [|split; [lia | done]].
  intros j Hj. apply Hgo. lia.
Qed.

End Runtime.

(** A calibration with one-sample windows: the first batch closes a stable
    window. *)
Lemma calibration_done_means_stable_witness :
  0 < window_micro
        (WelfordAnalyzer.cfg
           (CalibrationProcess.analyzer_
              (CalibrationProcess.init (D:=float) Scenario.eager_cfg))) ∧
  ∃ fuel0 step p',
    ∀ fuel, (fuel0 ≤ fuel)%nat →
      CalibrationProcess.on_batch fuel
        (CalibrationProcess.init (D:=float) Scenario.eager_cfg)
        RuntimeScenario.first_batch = Some (step, p').
Proof.
  split; [reflexivity|].
  destruct (calibration_done_means_stable
              (CalibrationProcess.init (D:=float) Scenario.eager_cfg)
              RuntimeScenario.first_batch)
    as (fuel0 & step & p' & Hrun & _); [reflexivity|].
  exists fuel0, step, p'. exact Hrun.
Defined.

(** The same calibration under the runner: it ends in the first pass. *)
Lemma calibration_run_ends_witness :
  ∃ o,
    run (D:=float) (R:=WindowResult.t float) 2 RuntimeScenario.world
      Config.consumer_cfg id 4 3
      (CalibrationProcess.init Scenario.eager_cfg) = Some o ∧
    callbacks o = 0%nat.
Proof.
  eexists.
  assert (Hrun : run (D:=float) (R:=WindowResult.t float) 2 RuntimeScenario.world
                   Config.consumer_cfg id 4 3
                   (CalibrationProcess.init Scenario.eager_cfg) = Some _)
    by (vm_compute; reflexivity).
  split; [exact Hrun|].
  apply (calibration_run_ends (D:=float) 2 RuntimeScenario.world
           Config.consumer_cfg id 4 3 _ _ Hrun).
Defined.

(** The runtime session of [RuntimeScenario]: stopped in the third pass. *)
Lemma runtime_runs_until_stopped_witness :
  ∃ o,
    run (D:=float) (R:=BreathResult float) 2 RuntimeScenario.world
      Config.consumer_cfg RuntimeScenario.on_breath 4 3 RuntimeScenario.fresh
    = Some o ∧
    g_running RuntimeScenario.world (iterations o) = false.
Proof.
  eexists.
  assert (Hrun : run (D:=float) (R:=BreathResult float) 2 RuntimeScenario.world
                   Config.consumer_cfg RuntimeScenario.on_breath 4 3
                   RuntimeScenario.fresh = Some _)
    by (vm_compute; reflexivity).
  split; [exact Hrun|].
  apply (runtime_runs_until_stopped (D:=float) 2 RuntimeScenario.world
           Config.consumer_cfg RuntimeScenario.on_breath 4 3 _ _ Hrun).
Defined.

End ProcessorLaws.

(** ** Proofs: the register words of the ADC *)

Module ADS1115Proofs.
Import ADS1115.

(** X20: the fields of the config word do not overlap.  Every field
    [MakeConfig] packs can be read back from the word with the mask of its
    bits; the comparator bits 2 to 4 and the start bit 15 are clear; and
    the word [ReadSingleShot] writes is the single-shot word of its
    arguments with the start bit added. *)
Theorem MakeConfig_fields (mux : Mux.t) (pga : Pga.t) (mode : Mode.t)
    (drate : DataRate.t) (cqueue : CompQueue.t) :
  let cfg := MakeConfig mux pga mode drate cqueue in
  0 <= cfg < 2 ^ 15 ∧
  Z.land cfg 0x7000 = Mux.val mux ∧
  Z.land cfg 0x0E00 = Pga.val pga ∧
  Z.land cfg 0x0100 = Mode.val mode ∧
  Z.land cfg 0x00E0 = DataRate.val drate ∧
  Z.land cfg 0x001C = 0 ∧
  Z.land cfg 0x0003 = CompQueue.val cqueue ∧
  ReadSingleShot_config mux pga drate
    = MakeConfig mux pga Mode.SingleShot drate CompQueue.Disable + 2 ^ 15.
Proof.
  destruct mux, pga, mode, drate, cqueue;
    vm_compute; repeat split; (reflexivity || (intros Hx; discriminate Hx)).
Qed.

Lemma uint16_testbit (z : Z) (i : Z) :
  0 <= i → Z.testbit (uint16 z) i = (i <? 16) && Z.testbit z i.
Proof.
  intros Hi. unfold uint16. rewrite Z.testbit_mod_pow2 by lia. done.
Qed.

(** X21: [StartSingleConversion] sets the start bit and nothing else: bit
    15 of the result is set, the 15 bits below it are those of the
    argument, and the result is a 16-bit word. *)
Theorem StartSingleConversion_sets_OS (cfg : Z) :
  0 <= cfg < 2 ^ 16 →
  Z.testbit (StartSingleConversion cfg) 15 = true ∧
  (∀ i, 0 <= i < 15 →
        Z.testbit (StartSingleConversion cfg) i = Z.testbit cfg i) ∧
  0 <= StartSingleConversion cfg < 2 ^ 16 ∧
  Z.land (StartSingleConversion cfg) 0x8000 ≠ 0.
Proof.
  intros Hcfg. unfold StartSingleConversion.
  assert (Hbit : ∀ i, 0 <= i →
            Z.testbit (uint16 (Z.lor cfg (Z.shiftl 1 15))) i
            = (i <? 16) && (Z.testbit cfg i || (i =? 15))).
  { intros i Hi. rewrite uint16_testbit, Z.lor_spec, Z.shiftl_spec by lia.
    f_equal. f_equal. destruct (Z.eqb_spec i 15) as [->|Hne]; [done|].
    destruct (Z.ltb_spec i 15).
    - apply Z.testbit_neg_r. lia.
    - rewrite (Z.bits_above_log2 1 (i - 15)); [done | lia | simpl; lia]. }
  split; [rewrite Hbit by lia; simpl; apply orb_true_r|].
  split.
  { intros i Hi. rewrite Hbit by lia.
    destruct (Z.ltb_spec i 16); [|lia]. destruct (Z.eqb_spec i 15); [lia|].
    by rewrite orb_false_r. }
  split; [unfold uint16; apply Z.mod_pos_bound; lia|].
  intros Hzero. apply (f_equal (λ z, Z.testbit z 15)) in Hzero.
  rewrite Z.land_spec, Hbit in Hzero by lia. simpl in Hzero. 
  rewrite orb_true_r in Hzero. discriminate Hzero.
Qed.

(** X22: the conversion wait.  [Get_SpsRate] decodes every data rate to
    the rate it is named after, and [ConversionTimeMs] is the time of one
    conversion in whole milliseconds, rounded up: the least [t] with
    [t * rate >= 1000].  The timeout of [ReadSingleShot] leaves room for at
    least two polls after it. *)
Theorem ConversionTimeMs_rounds_up (datarate : DataRate.t) :
  Get_SpsRate datarate = DataRate.named_rate datarate ∧
  (ConversionTimeMs datarate - 1) * Get_SpsRate datarate < 1000
    <= ConversionTimeMs datarate * Get_SpsRate datarate ∧
  0 < poll_ms datarate <= ConversionTimeMs datarate ∧
  ConversionTimeMs datarate + 2 * poll_ms datarate <= timeout_ms datarate.
Proof.
  destruct datarate; vm_compute;
    repeat split; (reflexivity || (intros Hx; discriminate Hx)).
Qed.

Lemma byte_split (v : Z) :
  0 <= v < 2 ^ 16 →
  Z.lor (Z.shiftl (v / 2 ^ 8) 8) (v mod 2 ^ 8) = v.
Proof.
  intros Hv. apply Z.bits_inj'. intros n Hn.
  rewrite Z.lor_spec, Z.shiftl_spec, Z.testbit_mod_pow2 by lia.
  destruct (Z.ltb_spec n 8) as [Hlo|Hhi].
  - rewrite Z.testbit_neg_r by lia. done.
  - rewrite andb_false_l, orb_false_r.
    rewrite <- Z.shiftr_div_pow2 by lia. rewrite Z.shiftr_spec by lia.
    f_equal. lia.
Qed.

(** X23: a word survives the bus.  The two value bytes [i2c_write_word]
    sends for a 16-bit word are bytes, most significant first, and
    [i2c_read_word] makes the same word of them again. *)
Theorem i2c_word_round_trip (reg value : Z) :
  0 <= value < 2 ^ 16 →
  Forall (λ byte, 0 <= byte < 2 ^ 8) (drop 1 (i2c_write_word_buf reg value)) ∧
  drop 1 (i2c_write_word_buf reg value) = [value / 2 ^ 8; value mod 2 ^ 8] ∧
  i2c_read_word_conversion (drop 1 (i2c_write_word_buf reg value)) = value.
Proof.
  intros Hv. unfold i2c_write_word_buf, i2c_read_word_conversion.
  cbn [drop]. change (drop 0 ?l) with l.
  assert (Hhi : uint8 (Z.shiftr value 8) = value / 2 ^ 8).
  { unfold uint8. rewrite Z.shiftr_div_pow2 by lia. apply Z.mod_small.
    split; [apply Z.div_pos; lia|]. apply Z.div_lt_upper_bound; lia. }
  assert (Hlo : uint8 (Z.land value 255) = value mod 2 ^ 8).
  { unfold uint8. change 255 with (Z.ones 8). rewrite Z.land_ones by lia.
    apply Z.mod_mod. lia. }
  rewrite Hhi, Hlo.
  pose proof (Z.mod_pos_bound value (2 ^ 8) ltac:(lia)) as Hb.
  assert (Hd : 0 <= value / 2 ^ 8 < 2 ^ 8).
  { split; [apply Z.div_pos; lia|]. apply Z.div_lt_upper_bound; lia. }
  split; [repeat constructor; lia|]. split; [done|].
  cbn [lookup_total list_lookup_total].
  unfold uint16.
  rewrite (Z.mod_small (value / 2 ^ 8) (2 ^ 16)),
    (Z.mod_small (value mod 2 ^ 8) (2 ^ 16)) by lia.
  rewrite byte_split by lia. apply Z.mod_small. lia.
Qed.

Section VoltsExact.
Variable sq : Q → Q.
Local Instance exact_volts : Double Q := Q_Double sq.

(** X24: the conversion to volts, in exact arithmetic.  The reading is
    taken as a two's complement number and scaled by 125 microvolts a
    step: the result lies in the full-scale range, from -4.096 V up to but
    not including 4.096 V, and it is negative exactly when bit 15 of the
    raw word is set. *)
Theorem Convert_Volts_full_scale (raw_u16 : Z) :
  0 <= raw_u16 < 2 ^ 16 →
  (Convert_Volts_FS4_096 raw_u16 == inject_Z (int16 raw_u16) * (1 # 8000))%Q ∧
  (- (4096 # 1000) <= Convert_Volts_FS4_096 raw_u16 < 4096 # 1000)%Q ∧
  (Z.testbit raw_u16 15 = true ↔ (Convert_Volts_FS4_096 raw_u16 < 0)%Q).
Proof.
  intros Hraw.
  assert (Hint : -32768 <= int16 raw_u16 <= 32767 ∧
                 (Z.testbit raw_u16 15 = true ↔ int16 raw_u16 < 0)).
  { unfold int16. rewrite Z.testbit_true by lia.
    pose proof (Z.div_mod raw_u16 (2 ^ 15) ltac:(lia)) as Hdm.
    pose proof (Z.mod_pos_bound raw_u16 (2 ^ 15) ltac:(lia)) as Hm.
    destruct (Z.ltb_spec raw_u16 (2 ^ 15)) as [Hlt|Hge].
    - rewrite Z.div_small by lia. split; [lia|]. simpl. split; [discriminate | lia].
    - assert (Hq : raw_u16 / 2 ^ 15 = 1) by nia.
      rewrite Hq. split; [lia|]. simpl. split; [lia | done]. }
  destruct Hint as [[Hlo Hhi] Hsign].
  assert (Hval : (Convert_Volts_FS4_096 raw_u16
                  == inject_Z (int16 raw_u16) * (1 # 8000))%Q).
  { unfold Convert_Volts_FS4_096, d_of_int, Config.ratio.
    cbn [d_of_Z d_div d_mul d_sub d_zero exact_volts Q_Double].
    destruct (Z.ltb_spec (int16 raw_u16) 0).
    - rewrite inject_Z_opp. field.
    - field. }
  split; [exact Hval|].
  rewrite Hval, Hsign. rewrite Zle_Qle in Hlo, Hhi.
  change (inject_Z (-32768)) with (-32768 # 1)%Q in Hlo.
  change (inject_Z 32767) with (32767 # 1)%Q in Hhi.
  split; [lra|].
  rewrite Zlt_Qlt. change (inject_Z 0) with 0%Q. split; intros Hneg; lra.
Qed.

End VoltsExact.

Lemma StartSingleConversion_sets_OS_witness :
  0 <= 0x4383 < 2 ^ 16 ∧ Z.testbit (StartSingleConversion 0x4383) 15 = true.
Proof.
  split; [lia|]. apply (StartSingleConversion_sets_OS 0x4383). lia.
Defined.

Lemma i2c_word_round_trip_witness :
  0 <= 0xC383 < 2 ^ 16 ∧
  i2c_read_word_conversion (drop 1 (i2c_write_word_buf 1 0xC383)) = 0xC383.
Proof.
  split; [lia|]. apply (i2c_word_round_trip 1 0xC383). lia.
Defined.

Lemma Convert_Volts_full_scale_witness :
  0 <= 0x2520 < 2 ^ 16 ∧
  (Convert_Volts_FS4_096 (H:=Q_Double id) 0x2520
   == inject_Z (int16 0x2520) * (1 # 8000))%Q.
Proof.
  split; [lia|]. apply (Convert_Volts_full_scale id 0x2520). lia.
Defined.

End ADS1115Proofs.

(** ** Proofs: the LEDs *)

Module LedProofs.
Import LedController.

Lemma mask_bit (mask i : Z) :
  0 <= i → negb (Z.land mask (Z.shiftl 1 i) =? 0) = Z.testbit mask i.
Proof.
  intros Hi. rewrite Z.shiftl_1_l.
  destruct (Z.testbit mask i) eqn:Eb.
  - apply negb_true_iff, Z.eqb_neq. intros Hz.
    apply (f_equal (λ z, Z.testbit z i)) in Hz.
    rewrite Z.land_spec, Eb, Z.pow2_bits_true, Z.bits_0 in Hz by lia.
    discriminate Hz.
  - apply negb_false_iff, Z.eqb_eq. apply Z.bits_inj'. intros n Hn.
    rewrite Z.land_spec, Z.bits_0, Z.pow2_bits_eqb by lia.
    destruct (Z.eqb_spec i n) as [<-|]; [by rewrite Eb | apply andb_false_r].
Qed.

(** The lines after [ApplyMask], one by one. *)
Lemma ApplyMask_lines (LedBank : GPIOBank.t) (mask : Z) (pin : Z) :
  GPIOBank.request_interface LedBank = true →
  GPIOBank.lines (ApplyMask LedBank mask) pin
  = if pin =? 16 then Z.testbit mask 4
    else if pin =? 22 then Z.testbit mask 3
    else if pin =? 27 then Z.testbit mask 2
    else if pin =? 17 then Z.testbit mask 1
    else if pin =? 26 then Z.testbit mask 0
    else GPIOBank.lines LedBank pin.
Proof.
  destruct LedBank as [req lines]. cbn [GPIOBank.request_interface]. intros ->.
  rewrite <- (mask_bit mask 0), <- (mask_bit mask 1), <- (mask_bit mask 2),
    <- (mask_bit mask 3), <- (mask_bit mask 4) by lia.
  reflexivity.
Qed.

Lemma ApplyMask_led (LedBank : GPIOBank.t) (mask : Z) (T : LedType.t) :
  GPIOBank.request_interface LedBank = true →
  GPIOBank.lines (ApplyMask LedBank mask) (pin_of T)
  = Z.testbit mask (LedToIndex T).
Proof. intros Hreq. rewrite ApplyMask_lines by done. destruct T; reflexivity. Qed.

(** X25: [ApplyMask] shows the mask.  With a line request in place, the
    line of every LED is driven active exactly when the bit of its index
    is set in the mask, whatever the lines were before, and no other line
    changes; without a line request nothing changes at all. *)
Theorem ApplyMask_shows_the_mask (LedBank : GPIOBank.t) (mask : Z) :
  (GPIOBank.request_interface LedBank = true →
   (∀ T, GPIOBank.lines (ApplyMask LedBank mask) (pin_of T)
         = Z.testbit mask (LedToIndex T)) ∧
   (∀ pin, (∀ T, pin ≠ pin_of T) →
           GPIOBank.lines (ApplyMask LedBank mask) pin
           = GPIOBank.lines LedBank pin)) ∧
  (GPIOBank.request_interface LedBank = false → ApplyMask LedBank mask = LedBank) ∧
  GPIOBank.request_interface (ApplyMask LedBank mask)
  = GPIOBank.request_interface LedBank.
Proof.
  split; [|split].
  - intros Hreq. split.
    + intros T. by apply ApplyMask_led.
    + intros pin Hpin. rewrite ApplyMask_lines by done.
      destruct (Z.eqb_spec pin 16) as [->|_]; [by destruct (Hpin LedType.Red)|].
      destruct (Z.eqb_spec pin 22) as [->|_]; [by destruct (Hpin LedType.Orange)|].
      destruct (Z.eqb_spec pin 27) as [->|_]; [by destruct (Hpin LedType.Yellow)|].
      destruct (Z.eqb_spec pin 17) as [->|_]; [by destruct (Hpin LedType.Green)|].
      destruct (Z.eqb_spec pin 26) as [->|_]; [by destruct (Hpin LedType.Blue)|].
      done.
  - destruct LedBank as [req lines]. cbn [GPIOBank.request_interface].
    intros ->. reflexivity.
  - destruct LedBank as [[] lines]; reflexivity.
Qed.

(** X26: [Clear] and [EnableAll] are the masks [0] and all five bits:
    line by line they leave what [ApplyMask] leaves, every LED off and
    every LED on. *)
Theorem Clear_and_EnableAll (LedBank : GPIOBank.t) (pin : Z) :
  GPIOBank.lines (Clear LedBank) pin
    = GPIOBank.lines (ApplyMask LedBank 0) pin ∧
  GPIOBank.lines (EnableAll LedBank) pin
    = GPIOBank.lines (ApplyMask LedBank 31) pin ∧
  (GPIOBank.request_interface LedBank = true →
   ∀ T, GPIOBank.lines (Clear LedBank) (pin_of T) = false ∧
        GPIOBank.lines (EnableAll LedBank) (pin_of T) = true).
Proof.
  assert (Hclear : ∀ p, GPIOBank.lines (Clear LedBank) p
                        = GPIOBank.lines (ApplyMask LedBank 0) p)
    by (intros p; destruct LedBank as [[] lines]; reflexivity).
  assert (Hall : ∀ p, GPIOBank.lines (EnableAll LedBank) p
                      = GPIOBank.lines (ApplyMask LedBank 31) p)
    by (intros p; destruct LedBank as [[] lines]; reflexivity).
  split; [apply Hclear|]. split; [apply Hall|].
  intros Hreq T. rewrite Hclear, Hall, !ApplyMask_lines by done.
  destruct T; split; reflexivity.
Qed.

Section BAC.
Context `{Double D}.

(** X27: the BAC display is a bar.  In any arithmetic, not-a-number
    included, [DriveBAC] lights green and never blue, and red only with
    orange, orange only with yellow: the mask is one of four. *)
Theorem DriveBAC_is_a_bar (LedBank : GPIOBank.t) (bac_percent : D) :
  DriveBAC_mask bac_percent ∈ [2; 6; 14; 30] ∧
  (GPIOBank.request_interface LedBank = true →
   let lit T := GPIOBank.lines (DriveBAC LedBank bac_percent) (pin_of T) in
   lit LedType.Green = true ∧ lit LedType.Blue = false ∧
   (lit LedType.Red = true → lit LedType.Orange = true) ∧
   (lit LedType.Orange = true → lit LedType.Yellow = true)).
Proof.
  assert (Hmask : DriveBAC_mask bac_percent ∈ [2; 6; 14; 30]).
  { unfold DriveBAC_mask.
    destruct (_ <? _)%D; [apply list_elem_of_here|].
    destruct (_ <? _)%D; [apply list_elem_of_further, list_elem_of_here|].
    destruct (_ <? _)%D; repeat constructor. }
  split; [exact Hmask|].
  intros Hreq lit. subst lit. unfold DriveBAC. rewrite !ApplyMask_lines by done.
  cbn [pin_of LedToIndex LedType.val GPIOBank.GetLedInfo Default_LedArray
       lookup_total list_lookup_total Z.to_nat Pos.to_nat Pos.iter_op Nat.add
       gpio_pin Z.eqb Pos.eqb].
  repeat (apply elem_of_cons in Hmask as [->|Hmask]); [done..|].
  by apply elem_of_nil in Hmask.
Qed.

End BAC.

Section Levels.
Variable sq : Q → Q.
Local Instance exact_bac : Double Q := Q_Double sq.

Lemma Qltb_spec (a b : Q) :
  BoolSpec (a < b)%Q (b <= a)%Q (negb (Qle_bool b a)).
Proof.
  destruct (Qle_bool b a) eqn:E; constructor.
  - by apply Qle_bool_iff.
  - apply Qnot_le_lt. rewrite <- Qle_bool_iff, E. discriminate.
Qed.

Lemma Qleb_spec (a b : Q) : BoolSpec (a <= b)%Q (b < a)%Q (Qle_bool a b).
Proof.
  destruct (Qle_bool a b) eqn:E; constructor.
  - by apply Qle_bool_iff.
  - apply Qnot_le_lt. rewrite <- Qle_bool_iff, E. discriminate.
Qed.

(** The mask as a function of the value itself: the clamp to [0, 0.45]
    changes nothing. *)
Lemma DriveBAC_mask_levels (bac_percent : Q) :
  DriveBAC_mask bac_percent
  = if Qle_bool (8 # 100) bac_percent then 30
    else if Qle_bool (5 # 100) bac_percent then 14
    else if Qle_bool (2 # 100) bac_percent then 6
    else 2.
Proof.
  unfold DriveBAC_mask, d_clamp.
  cbn [d_ltb d_zero exact_bac Q_Double].
  change (Config.ratio 45 100) with (45 # 100)%Q.
  change (Config.ratio 2 100) with (2 # 100)%Q.
  change (Config.ratio 5 100) with (5 # 100)%Q.
  change (Config.ratio 8 100) with (8 # 100)%Q.
  destruct (Qleb_spec (8 # 100) bac_percent);
    [|destruct (Qleb_spec (5 # 100) bac_percent);
      [|destruct (Qleb_spec (2 # 100) bac_percent)]];
    (destruct (Qltb_spec bac_percent 0);
     [|destruct (Qltb_spec (45 # 100) bac_percent)]);
    repeat match goal with
    | |- context [negb (Qle_bool ?b ?a)] => destruct (Qltb_spec a b)
    end;
    try reflexivity; exfalso; lra.
Qed.

(** X28: the BAC levels, in exact arithmetic.  Yellow is lit from 0.02,
    orange from 0.05 and red from 0.08 on: clamping the value to
    [0, 0.45] first changes nothing. *)
Theorem DriveBAC_levels (LedBank : GPIOBank.t) (bac_percent : Q) :
  GPIOBank.request_interface LedBank = true →
  let lit T := GPIOBank.lines (DriveBAC LedBank bac_percent) (pin_of T) in
  lit LedType.Green = true ∧
  (lit LedType.Yellow = true ↔ (2 # 100 <= bac_percent)%Q) ∧
  (lit LedType.Orange = true ↔ (5 # 100 <= bac_percent)%Q) ∧
  (lit LedType.Red = true ↔ (8 # 100 <= bac_percent)%Q).
Proof.
  intros Hreq lit. subst lit. unfold DriveBAC.
  rewrite !ApplyMask_led, DriveBAC_mask_levels by done.
  destruct (Qleb_spec (8 # 100) bac_percent);
    [|destruct (Qleb_spec (5 # 100) bac_percent);
      [|destruct (Qleb_spec (2 # 100) bac_percent)]];
    cbn; repeat split; intros; try done; try lra.
Qed.

End Levels.

Lemma ApplyMask_shows_the_mask_witness :
  GPIOBank.request_interface (GPIOBank.mk true (λ _, false)) = true ∧
  GPIOBank.lines (ApplyMask (GPIOBank.mk true (λ _, false)) 6)
    (pin_of LedType.Yellow) = Z.testbit 6 (LedToIndex LedType.Yellow).
Proof.
  split; [reflexivity|].
  destruct (ApplyMask_shows_the_mask (GPIOBank.mk true (λ _, false)) 6)
    as ((Hlit & _) & _); [reflexivity|].
  apply (Hlit LedType.Yellow).
Defined.

Lemma Clear_and_EnableAll_witness :
  GPIOBank.request_interface (GPIOBank.mk true (λ _, true)) = true ∧
  GPIOBank.lines (Clear (GPIOBank.mk true (λ _, true))) (pin_of LedType.Red)
  = false.
Proof.
  split; [reflexivity|].
  destruct (Clear_and_EnableAll (GPIOBank.mk true (λ _, true)) 0)
    as (_ & _ & Hoff).
  apply (Hoff eq_refl LedType.Red).
Defined.

Lemma DriveBAC_is_a_bar_witness :
  GPIOBank.request_interface (GPIOBank.mk true (λ _, false)) = true ∧
  DriveBAC_mask nan ∈ [2; 6; 14; 30].
Proof.
  split; [reflexivity|].
  apply (DriveBAC_is_a_bar (D:=float) (GPIOBank.mk true (λ _, false)) nan).
Defined.

Lemma DriveBAC_levels_witness :
  GPIOBank.request_interface (GPIOBank.mk true (λ _, false)) = true ∧
  GPIOBank.lines
    (DriveBAC (H:=Q_Double id) (GPIOBank.mk true (λ _, false)) (6 # 100)%Q)
    (pin_of LedType.Green) = true.
Proof.
  split; [reflexivity|].
  pose proof (DriveBAC_levels id (GPIOBank.mk true (λ _, false)) (6 # 100)%Q
                eq_refl) as Hlevels.
  cbv zeta in Hlevels. destruct Hlevels as (Hgreen & _). exact Hgreen.
Defined.

End LedProofs.

(** ** Proofs: the single-shot read *)

Module ReadSingleShotProofs.
Import ADS1115.

Section Poll.
Variable bus : Bus.

Lemma timeout_ms_pos (daterate : DataRate.t) : 0 < timeout_ms daterate <= 130.
Proof. destruct daterate; vm_compute; split; (reflexivity || discriminate). Qed.

Lemma poll_ms_pos (daterate : DataRate.t) : 1 <= poll_ms daterate.
Proof. destruct daterate; vm_compute; discriminate. Qed.

Lemma ReadSingleShot_loop_returns (daterate : DataRate.t) (budget : nat) :
  ∀ (fuel : nat) (start : Z) (r c : nat),
    (∀ j, (1 ≤ j)%nat → now bus j + 1000000 <= now bus (S j)) →
    (1 ≤ c)%nat →
    (timeout_ms daterate - Z.of_nat budget) * 1000000 <= now bus c - start →
    (budget < fuel)%nat →
    ∃ res,
      ReadSingleShot_loop bus daterate fuel start r c = Some res ∧
      ∀ raw, res = Some raw →
        ∃ n read_cfg,
          (r ≤ n ≤ r + budget)%nat ∧
          i2c_read_word bus n = Some read_cfg ∧
          Z.testbit read_cfg 15 = true ∧
          i2c_read_word bus (S n) = Some raw.
Proof.
  induction budget as [|budget IH]; intros fuel start r c Htick Hc Hnow Hfuel;
    (destruct fuel as [|fuel]; [lia|]); cbn [ReadSingleShot_loop];
    (destruct (i2c_read_word bus r) as [read_cfg|] eqn:Eread;
       [|exists None; split; [done | discriminate]]);
    (destruct (Z.land read_cfg 32768 =? 0) eqn:Eos; cbn [negb];
       [|exists (i2c_read_word bus (S r)); split; [done|];
         intros raw Hraw; exists r, read_cfg;
         split; [lia|]; split; [done|]; split; [|done];
         apply Z.eqb_neq in Eos;
         destruct (Z.testbit read_cfg 15) eqn:Eb; [done|];
         exfalso; apply Eos; apply Z.bits_inj'; intros n Hn;
         rewrite Z.land_spec, Z.bits_0;
         change 32768 with (2 ^ 15); rewrite Z.pow2_bits_eqb by lia;
         destruct (Z.eqb_spec 15 n) as [<-|]; [by rewrite Eb | apply andb_false_r]]).
  - (* no time left: the timeout has elapsed *)
    destruct (Z.leb_spec (timeout_ms daterate * 1000000) (now bus c - start));
      [|lia].
    exists None. split; [done | discriminate].
  - destruct (Z.leb_spec (timeout_ms daterate * 1000000) (now bus c - start)).
    + exists None. split; [done | discriminate].
    + destruct (IH fuel start (S r) (S c)) as (res & Hrun & Hres);
        try done; try lia.
      { specialize (Htick c Hc). lia. }
      exists res. split; [done|]. intros raw Hraw.
      destruct (Hres raw Hraw) as (n & cfg & Hn & Hrest).
      exists n, cfg. split; [lia | done].
Qed.

(** X29: [ReadSingleShot] returns.  With a steady clock that does not go
    back and advances by at least a millisecond from one poll to the next
    (the loop sleeps [poll_ms] in between), the call returns within
    [timeout_ms + 1] polls, whatever the bus does.  It returns [true] only
    if the write of the config word succeeded and a poll read the config
    register with bit 15 set; [out_raw] is then the word read next, from
    the conversion register. *)
Theorem ReadSingleShot_returns (mux : Mux.t) (pga : Pga.t)
    (daterate : DataRate.t) (fuel : nat) :
  now bus 0 <= now bus 1 →
  (∀ j, (1 ≤ j)%nat → now bus j + poll_ms daterate * 1000000 <= now bus (S j)) →
  (Z.to_nat (timeout_ms daterate) < fuel)%nat →
  ∃ res,
    ReadSingleShot bus fuel mux pga daterate = Some res ∧
    ∀ raw, res = Some raw →
      i2c_write_word bus Reg.Config (ReadSingleShot_config mux pga daterate)
        = true ∧
      ∃ n read_cfg,
        (n ≤ Z.to_nat (timeout_ms daterate))%nat ∧
        i2c_read_word bus n = Some read_cfg ∧
        Z.testbit read_cfg 15 = true ∧
        i2c_read_word bus (S n) = Some raw.
Proof.
  intros Hfirst Htick Hfuel. unfold ReadSingleShot.
  pose proof (timeout_ms_pos daterate) as HT.
  pose proof (poll_ms_pos daterate) as Hpoll.
  destruct (i2c_write_word bus Reg.Config (ReadSingleShot_config mux pga daterate));
    cbn [negb]; [|exists None; split; [done | discriminate]].
  destruct (ReadSingleShot_loop_returns daterate (Z.to_nat (timeout_ms daterate))
              fuel (now bus 0) 0 1) as (res & Hrun & Hres); try done; try lia.
  { intros j Hj. specialize (Htick j Hj). nia. }
  exists res. split; [done|]. intros raw Hraw. split; [done|].
  destruct (Hres raw Hraw) as (n & cfg & Hn & Hrest).
  exists n, cfg. split; [lia | done].
Qed.

End Poll.

(** A device that reports the conversion done at the second poll. *)
Lemma ReadSingleShot_returns_witness :
  ∃ res,
    ReadSingleShot
      (mkBus (λ _ _, true)
             (λ n, match n with
                   | 0%nat => Some 0x4383
                   | 1%nat => Some 0xC383
                   | _ => Some 0x2520
                   end)
             (λ c, Z.of_nat c * 2000000))
      14 Mux.AIN0_GND Pga.FS_4_096V DataRate.SPS_128 = Some res.
Proof.
  destruct (ReadSingleShot_returns
              (mkBus (λ _ _, true)
                     (λ n, match n with
                           | 0%nat => Some 0x4383
                           | 1%nat => Some 0xC383
                           | _ => Some 0x2520
                           end)
                     (λ c, Z.of_nat c * 2000000))
              Mux.AIN0_GND Pga.FS_4_096V DataRate.SPS_128 14)
    as (res & Hrun & _).
  - simpl. lia.
  - intros j Hj. cbn [now]. change (poll_ms DataRate.SPS_128) with 2. lia.
  - vm_compute. lia.
  - exists res. exact Hrun.
Defined.

End ReadSingleShotProofs.

(** ** Proofs: the sensor curve *)

Module MQ3Proofs.
Import MQ3.

Section Exact.
Variable sq : Q → Q.
Local Instance exact_curve : Double Q := Q_Double sq.
Variable ex lg : Q → Q.
Local Open Scope Q_scope.

(** The sensor resistance falls as the voltage rises, and is positive
    below [Vcc / 1.5]. *)
Lemma adc3v3_to_ratio_decreasing (v1 v2 : Q) :
  0 < v1 → v1 < v2 → v2 < 10 # 3 →
  0 < adc3v3_to_ratio v2 RLoad Ro_Air VCC_5v
    < adc3v3_to_ratio v1 RLoad Ro_Air VCC_5v.
Proof.
  intros H1 H12 H2.
  unfold adc3v3_to_ratio, rs_to_ratio, adc3v3_to_rs, vout5_to_rs,
    adc3v3_to_vout5, RLoad, Ro_Air, VCC_5v, Voltage_Factor, Config.ratio.
  cbn [d_of_Z d_div d_mul d_sub d_one exact_curve Q_Double].
  change (inject_Z 20000) with (20000 # 1). change (inject_Z 5) with (5 # 1).
  change (inject_Z 15 / inject_Z 10) with (15 # 10).
  change (inject_Z 685124026 / inject_Z 1000000) with (685124026 # 1000000).
  assert (Ha1 : 0 < v1 * (15 # 10)) by lra.
  assert (Ha2 : 0 < v2 * (15 # 10)) by lra.
  assert (Hinv : / (v2 * (15 # 10)) < / (v1 * (15 # 10)))
    by (apply -> Qinv_lt_contravar; [lra | done | done]).
  assert (Hfive : / (5 # 1) < / (v2 * (15 # 10)))
    by (apply -> Qinv_lt_contravar; [lra | done | lra]).
  change (/ (5 # 1)) with (1 # 5) in Hfive.
  unfold Qdiv.
  set (i1 := / (v1 * (15 # 10))) in *. set (i2 := / (v2 * (15 # 10))) in *.
  change (/ (685124026 # 1000000)) with (1000000 # 685124026).
  lra.
Qed.

(** X30: a stronger breath reads higher.  With [std::log] increasing on
    the positive numbers and [std::exp] increasing, the blood alcohol
    content computed for the peak voltage of a breath grows with that
    voltage, over the range in which the sensor resistance is positive
    (below [Vcc / 1.5], about 3.33 V at the ADC). *)
Theorem Analyzed_bac_increasing (v1 v2 : Q) :
  (∀ x y, 0 < x → x < y → lg x < lg y) →
  (∀ x y, x < y → ex x < ex y) →
  0 < v1 → v1 < v2 → v2 < 10 # 3 →
  Analyzed_bac ex lg v1 < Analyzed_bac ex lg v2.
Proof.
  intros Hlog Hexp H1 H12 H2.
  destruct (adc3v3_to_ratio_decreasing v1 v2 H1 H12 H2) as [Hpos Hratio].
  unfold adc3v3_to_ratio in Hpos, Hratio.
  unfold Analyzed_bac, calculate_bac, calculate_ppm, calculate_concentration_exp.
  set (r1 := rs_to_ratio (adc3v3_to_rs v1 RLoad VCC_5v) Ro_Air) in *.
  set (r2 := rs_to_ratio (adc3v3_to_rs v2 RLoad VCC_5v) Ro_Air) in *.
  pose proof (Hlog r2 r1 Hpos Hratio) as Hlg.
  unfold E_Slope, E_Intercept, Ethanol_Conversion, PPM_BAC_Conversion,
    Config.ratio.
  cbn [d_of_Z d_div d_mul d_sub d_add d_zero exact_curve Q_Double].
  change (inject_Z 530) with (530 # 1).
  change (inject_Z 385505 / inject_Z 1000000000) with (385505 # 1000000000).
  change (inject_Z 29 / inject_Z 100) with (29 # 100).
  change (0 - inject_Z 268 / inject_Z 1000) with (- (268 # 1000)).
  assert (Harg : (lg r1 + (29 # 100)) / - (268 # 1000)
                 < (lg r2 + (29 # 100)) / - (268 # 1000)).
  { unfold Qdiv. change (/ - (268 # 1000)) with (- (1000 # 268)). lra. }
  pose proof (Hexp _ _ Harg) as Hconc.
  set (c1 := ex _) in *. set (c2 := ex _) in *. lra.
Qed.

End Exact.

(** With the identity for both functions (increasing, as required): 1 V
    against 2 V. *)
Lemma Analyzed_bac_increasing_witness :
  (∀ x y : Q, 0 < x → x < y → id x < id y)%Q ∧
  (∀ x y : Q, x < y → id x < id y)%Q ∧
  (0 < 1)%Q ∧ (1 < 2)%Q ∧ (2 < 10 # 3)%Q ∧
  (Analyzed_bac (H:=Q_Double id) id id 1 < Analyzed_bac (H:=Q_Double id) id id 2)%Q.
Proof.
  assert (Hlog : (∀ x y : Q, 0 < x → x < y → id x < id y)%Q)
    by (intros x y _ Hxy; exact Hxy).
  assert (Hexp : (∀ x y : Q, x < y → id x < id y)%Q)
    by (intros x y Hxy; exact Hxy).
  split; [exact Hlog|]. split; [exact Hexp|].
  split; [reflexivity|]. split; [reflexivity|]. split; [reflexivity|].
  apply (Analyzed_bac_increasing id id id 1 2 Hlog Hexp);
    reflexivity.
Defined.

End MQ3Proofs.
